(** * MCP proxy of higress-group/wasm-go: a shallow embedding

    The development follows [pkg/mcp/server]: the StreamableHTTP protocol
    handler ([McpProtocolHandler], proxy_tool.go), the allow-list filter, the
    authentication hook of the proxy server (proxy_server.go), and the two
    parts of the proxy whose sources are documentation only (the JSON-RPC
    codec of [pkg/mcp/utils] and the SSE protocol state machine of
    sse_proxy.go). *)

From stdpp Require Import gmap strings list fin_maps.
From Stdlib Require Import ZArith Ascii String.

Set Warnings "-register-all".
Set Default Proof Using "Type*".

Open Scope string_scope.
Open Scope Z_scope.

(** ** Go values and JSON documents *)

(** A JSON document as it travels on the wire.  Byte-level syntax is not
    modelled: a body that is not a JSON text is an absent document.  Numbers
    are carried by the integer they denote; no function below computes with
    them, and every number of the frames under study (ids, error codes) is
    integer-valued. *)
Inductive json : Type :=
| JNull
| JBool (b : bool)
| JNumber (n : Z)
| JString (s : string)
| JArray (l : list json)
| JObject (m : gmap string json).

(** The dynamic values behind Go's [interface{}]: the dynamic type is the
    constructor.  [VInt] is Go's [int] (what an untyped integer constant
    becomes when it is stored in an interface), [VFloat64] is what
    [encoding/json] produces for every JSON number. *)
Inductive val : Type :=
| VNil
| VBool (b : bool)
| VInt (n : Z)
| VFloat64 (n : Z)
| VString (s : string)
| VArray (l : list val)
| VMap (m : gmap string val).

(** [json.Unmarshal] into an [interface{}].  Every number becomes a
    [float64]; its rounding is not modelled, so that the decoding is that
    of the library on the documents whose numbers a [float64] holds
    exactly, the integers of magnitude up to 2^53 among them. *)
Fixpoint Unmarshal (j : json) : val :=
  match j with
  | JNull => VNil
  | JBool b => VBool b
  | JNumber n => VFloat64 n
  | JString s => VString s
  | JArray l => VArray (map Unmarshal l)
  | JObject m => VMap (Unmarshal <$> m)
  end.

(** [json.Marshal] of a value built from the dynamic types above; it cannot
    fail on them. *)
Fixpoint Marshal (v : val) : json :=
  match v with
  | VNil => JNull
  | VBool b => JBool b
  | VInt n => JNumber n
  | VFloat64 n => JNumber n
  | VString s => JString s
  | VArray l => JArray (map Marshal l)
  | VMap m => JObject (Marshal <$> m)
  end.

(** The number of constructors of a document, the measure of the induction
    over documents. *)
Fixpoint json_size (j : json) : nat :=
  match j with
  | JArray l => S (foldr (λ x acc, json_size x + acc)%nat 0%nat l)
  | JObject m => S (map_fold (λ _ x acc, json_size x + acc)%nat 0%nat m)
  | _ => 1%nat
  end.

(** Errors of the Go code: [fmt.Errorf] with its text, the error of
    [json.Unmarshal] (text of the library), and errors handed back by the
    host when a call cannot be dispatched. *)
Inductive GoError : Type :=
| Errorf (fmt : string) (args : list string)
| UnmarshalError
| HostError (msg : string).

(** [json.Unmarshal(body, &m)] with [m : map[string]interface{}]: a JSON
    object fills the map, JSON [null] leaves the nil map, anything else (or a
    body that is no JSON text) is an error. *)
Definition Unmarshal_map (body : option json) : GoError + gmap string val :=
  match body with
  | Some (JObject m) => inr (Unmarshal <$> m)
  | Some JNull => inr ∅
  | _ => inl UnmarshalError
  end.

(** ** Strings *)

(** [strings.Split(s, sep)] for a one-byte separator (the pieces that
    [strings.SplitSeq] yields, in order). *)
Fixpoint Split (sep : ascii) (s : string) : list string :=
  match s with
  | EmptyString => [EmptyString]
  | String a s' =>
      if Ascii.eqb a sep then EmptyString :: Split sep s'
      else match Split sep s' with
           | piece :: rest => String a piece :: rest
           | [] => [String a EmptyString]
           end
  end.

(** [strings.Join(pieces, sep)] for a one-byte separator. *)
Fixpoint Join (sep : ascii) (pieces : list string) : string :=
  match pieces with
  | [] => EmptyString
  | [p] => p
  | p :: rest => p ++ String sep (Join sep rest)
  end.

(** [strings.TrimPrefix(s, "/")]. *)
Definition TrimPrefix_slash (s : string) : string :=
  match s with
  | String "/"%char s' => s'
  | _ => s
  end.

(** Does the byte occur in the string? *)
Fixpoint contains_byte (c : ascii) (s : string) : bool :=
  match s with
  | EmptyString => false
  | String a s' => Ascii.eqb a c || contains_byte c s'
  end.

(** ** Data of the proxy server (proxy_server.go) *)

(** [SecurityScheme]: the fields the proxy reads. *)
Record SecurityScheme : Type := {
  scheme_ID : string;
  scheme_Type : string;
  scheme_In : string;
  scheme_Name : string;
  scheme_Scheme : string;
  scheme_DefaultCredential : string;
}.

(** [McpProxyServer]: its name and its map of security schemes (the tool
    table and the embedded base server are not read by the code below). *)
Record McpProxyServer : Type := {
  server_Name : string;
  securitySchemes : gmap string SecurityScheme;
}.

(** [url.URL] as the proxy uses it; [url_EscapedPath] is the result of
    [u.EscapedPath()]. *)
Record URL : Type := {
  url_Scheme : string;
  url_Host : string;
  url_EscapedPath : string;
  url_RawQuery : string;
  url_Fragment : string;
}.

(** [ProxyAuthContext]: [ParsedURL] is a pointer and may be nil. *)
Record ProxyAuthContext : Type := {
  pac_Headers : list (string * string);
  pac_ParsedURL : option URL;
  pac_RequestBody : string;
  pac_PassthroughCredential : string;
}.

(** [AuthRequestContext] and [SecurityRequirement] of the shared
    authentication utilities, as [applyProxyAuthentication] builds them. *)
Record AuthRequestContext : Type := {
  arc_Method : string;
  arc_Headers : list (string * string);
  arc_ParsedURL : URL;
  arc_RequestBody : string;
  arc_PassthroughCredential : string;
}.

Record SecurityRequirement : Type := {
  req_ID : string;
  req_Credential : string;
  req_Passthrough : bool;
}.

(** [ProxyAuthInfo] (proxy_tool.go). *)
Record ProxyAuthInfo : Type := {
  SecuritySchemeID : string;
  PassthroughCredential : string;
  Server : McpProxyServer;
}.

(** ** The request context store *)

(** The values the proxy keeps in [wrapper.HttpContext] under string keys,
    tagged by their Go dynamic type ([COperation] is the named string type
    [McpProxyOperation], [CAllowTools] is [map[string]struct{}]). *)
Inductive CtxVal : Type :=
| CBool (b : bool)
| CString (s : string)
| COperation (op : string)
| CArguments (m : gmap string val)
| CAuthInfo (a : ProxyAuthInfo)
| CAllowTools (s : gset string)
| CServer (srv : McpProxyServer).

Definition CtxMcpProxyInitialized : string := "mcp_proxy_initialized".
Definition CtxMcpProxySessionID : string := "mcp_proxy_session_id".
Definition CtxMcpProxyToolName : string := "mcp_proxy_tool_name".
Definition CtxMcpProxyToolArgs : string := "mcp_proxy_tool_args".
Definition CtxMcpProxyOperation : string := "mcp_proxy_operation".

Definition OpToolsList : string := "tools/list".
Definition OpToolsCall : string := "tools/call".

(** ** Effects of the handler *)

Inductive LogLevel : Type := LDebug | LInfo | LWarn | LError.

(** The continuations the handler registers with an outbound call, with the
    variables their closures capture. *)
Inductive Callback : Type :=
| CbInitialize (authInfo : option ProxyAuthInfo)
| CbInitialized
| CbToolsList
| CbToolsCall (toolName : string).

(** What the handler does to the outside: log lines (by their format
    string), outbound calls ([client.Post] over the route cluster and
    [ctx.RouteCall]), the two reply functions of [pkg/mcp/utils], and
    [proxywasm.ResumeHttpRequest]. *)
Inductive Effect : Type :=
| ELog (lvl : LogLevel) (fmt : string)
| EPost (url : string) (headers : list (string * string)) (body : json)
        (timeout : Z) (cb : Callback)
| ERouteCall (method url : string) (headers : list (string * string))
             (body : json) (cb : Callback)
| EResponseError (err : GoError) (code : Z) (debugInfo : string)
| EResponseSuccess (result : gmap string val) (debugInfo : string)
| EResume.

(** ** What the embedding takes from outside the sources

    Library functions whose text is not part of the repository, the shared
    authentication routine [ApplySecurity] (called by proxy_tool.go, defined
    in a file that is not at hand), and the immediate answer of the host to
    an outbound call. *)
Class Env : Type := {
  (** [strings.TrimSpace] *)
  TrimSpace : string → string;
  (** [fmt]'s [%v] rendering of an operand that is not a string *)
  Sprint_other : val → string;
  (** [url.Parse] *)
  url_Parse : string → GoError + URL;
  (** [ApplySecurity(securityConfig, server, &authCtx)]: the error it
      returns and the context it leaves behind *)
  ApplySecurity : SecurityRequirement → McpProxyServer → AuthRequestContext →
                  option GoError * AuthRequestContext;
  (** the error, if any, that [client.Post] returns at once *)
  client_Post : string → list (string * string) → json → Z → option GoError;
  (** the error, if any, that [ctx.RouteCall] returns at once *)
  ctx_RouteCall : string → string → list (string * string) → json →
                  option GoError;
  (** [err.Error()] for an error whose text is not a constant of the sources *)
  Error_other : GoError → string;
  (** the document that a byte string denotes, when it is a JSON text *)
  json_decode : string → option json;
}.

(** [fmt.Sprintf("%v", v)]: a string operand is rendered as itself. *)
Definition Sprint_v `{Env} (v : val) : string :=
  match v with
  | VString s => s
  | _ => Sprint_other v
  end.

(** [err.Error()]: a [fmt.Errorf] without operands yields its text. *)
Definition Error_text `{Env} (err : GoError) : string :=
  match err with
  | Errorf fmt [] => fmt
  | _ => Error_other err
  end.

(** ** JSON-RPC error codes *)

(** Modelled from the spec: the constants [utils.ErrInternalError] and
    [utils.ErrInvalidParams] of pkg/mcp/utils, which section 4.1 of the
    specification gives as INTERNAL_ERROR = -32603 and
    INVALID_PARAMS = -32602 (with PARSE_ERROR, INVALID_REQUEST and
    METHOD_NOT_FOUND beside them). *)
Definition ErrParseError : Z := -32700.
Definition ErrInvalidRequest : Z := -32600.
Definition ErrMethodNotFound : Z := -32601.
Definition ErrInvalidParams : Z := -32602.
Definition ErrInternalError : Z := -32603.

(** ** The allow-list filter (proxy_tool.go, [applyAllowToolsFilter]) *)

Section AllowTools.
Context `{Env}.

(** The loop over [strings.SplitSeq(headerStr, ",")]: every piece is
    trimmed, empty results are skipped, the others are added to the set. *)
Definition allowToolsFromHeader (headerStr : string) : gset string :=
  fold_left
    (λ (acc : gset string) (tool : string),
       let trimmedTool := TrimSpace tool in
       if String.eqb trimmedTool "" then acc else {[trimmedTool]} ∪ acc)
    (Split "," headerStr) ∅.

(** The body of the loop over [toolsArray]: [true] when the tool reaches
    the [append], [false] when the iteration ends before it (a [continue],
    or one of the three guards fails). *)
Definition tool_kept (allowTools allowHeader : gset string) (tool : val) : bool :=
  match tool with
  | VMap toolMap =>
      match toolMap !! "name" with
      | Some (VString toolName) =>
          if (0 <? size allowTools)%nat && negb (bool_decide (toolName ∈ allowTools))
          then false
          else if (0 <? size allowHeader)%nat && negb (bool_decide (toolName ∈ allowHeader))
          then false
          else true
      | _ => false
      end
  | _ => false
  end.

(** [filteredTools], built by [append] in the order of [toolsArray]. *)
Definition filteredTools (allowTools allowHeader : gset string)
    (toolsArray : list val) : list val :=
  fold_left
    (λ acc tool, if tool_kept allowTools allowHeader tool then (acc ++ [tool])%list else acc)
    toolsArray [].

(** The copy loop [for k, v := range resultMap { filteredResult[k] = v }]. *)
Definition copy_map (resultMap : gmap string val) : gmap string val :=
  map_fold (λ k v (filteredResult : gmap string val), <[k:=v]> filteredResult)
           ∅ resultMap.

(** The first block of [applyAllowToolsFilter]: the configured set stored
    under "mcp_proxy_allow_tools"; a missing entry, an entry of another
    dynamic type and a nil map all end as the empty set. *)
Definition allowToolsFromContext (ctx : gmap string CtxVal) : gset string :=
  match ctx !! "mcp_proxy_allow_tools" with
  | Some (CAllowTools allowToolsMap) => allowToolsMap
  | _ => ∅
  end.

(** [applyAllowToolsFilter(ctx, resultMap)].  [None] is the run-time panic
    of the unchecked assertion [allowToolsHeaderStr.(string)]. *)
Definition applyAllowToolsFilter (ctx : gmap string CtxVal)
    (resultMap : gmap string val) : option (gmap string val) :=
  let allowTools := allowToolsFromContext ctx in
  match
    match ctx !! "mcp_proxy_allow_tools_header" with
    | None => Some ∅
    | Some (CString headerStr) => Some (allowToolsFromHeader headerStr)
    | Some _ => None
    end
  with
  | None => None
  | Some allowHeader =>
      if (size allowTools =? 0)%nat && (size allowHeader =? 0)%nat
      then Some resultMap
      else
        match resultMap !! "tools" with
        | Some (VArray toolsArray) =>
            Some (<["tools" := VArray (filteredTools allowTools allowHeader toolsArray)]>
                    (copy_map resultMap))
        | _ => Some resultMap
        end
  end.

(** The claim's reading of the filter: a tool stays when it is an object
    with a string name that belongs to every non-empty allow-set. *)
Definition in_every_nonempty_set (cfg hdr : gset string) (tool : val) : Prop :=
  ∃ toolMap name,
    tool = VMap toolMap ∧ toolMap !! "name" = Some (VString name) ∧
    (cfg ≠ ∅ → name ∈ cfg) ∧ (hdr ≠ ∅ → name ∈ hdr).

(** The same reading as a test, with which the retained tools can be
    written as the sublist of the tools array that passes it. *)
Definition retained (cfg hdr : gset string) (tool : val) : bool :=
  match tool with
  | VMap toolMap =>
      match toolMap !! "name" with
      | Some (VString name) =>
          bool_decide ((cfg ≠ ∅ → name ∈ cfg) ∧ (hdr ≠ ∅ → name ∈ hdr))
      | _ => false
      end
  | _ => false
  end.

End AllowTools.

(** ** The protocol handler (proxy_tool.go, [McpProtocolHandler]) *)

Record McpProtocolHandler : Type := {
  backendURL : string;
  timeout : Z;
  sessionID : string;
}.

Definition NewMcpProtocolHandler (backendURL : string) (timeout : Z) : McpProtocolHandler :=
  {| backendURL := backendURL; timeout := timeout; sessionID := "" |}.

(** What a handler method can change: the context store of the request and
    the handler behind the pointer [h]. *)
Record State : Type := {
  ctx : gmap string CtxVal;
  handler : McpProtocolHandler;
}.

(** A handler computation: from a state either a panic ([None]) or a result,
    the next state and the effects in the order they happened. *)
Definition M (A : Type) : Type := State → option (A * State * list Effect).

Definition M_ret {A} (a : A) : M A := λ st, Some (a, st, []).

Definition M_bind {A B} (m : M A) (k : A → M B) : M B :=
  λ st,
    match m st with
    | None => None
    | Some (a, st1, tr1) =>
        match k a st1 with
        | None => None
        | Some (b, st2, tr2) => Some (b, st2, (tr1 ++ tr2)%list)
        end
    end.

Global Instance M_mret : MRet M := @M_ret.
Global Instance M_mbind : MBind M := λ A B k m, M_bind m k.

Definition panic {A} : M A := λ _, None.
Definition emit (e : Effect) : M unit := λ st, Some (tt, st, [e]).
Definition log (lvl : LogLevel) (fmt : string) : M unit := emit (ELog lvl fmt).
Definition GetContext (key : string) : M (option CtxVal) :=
  λ st, Some (ctx st !! key, st, []).
Definition SetContext (key : string) (v : CtxVal) : M unit :=
  λ st, Some (tt, {| ctx := <[key := v]> (ctx st); handler := handler st |}, []).
Definition get_handler : M McpProtocolHandler := λ st, Some (handler st, st, []).
Definition set_sessionID (sid : string) : M unit :=
  λ st, Some (tt, {| ctx := ctx st;
                     handler := {| backendURL := backendURL (handler st);
                                   timeout := timeout (handler st);
                                   sessionID := sid |} |}, []).

(** [utils.OnMCPResponseError] and [utils.OnMCPResponseSuccess]. *)
Definition OnMCPResponseError (err : GoError) (code : Z) (debugInfo : string) : M unit :=
  emit (EResponseError err code debugInfo).
Definition OnMCPResponseSuccess (result : gmap string val) (debugInfo : string) : M unit :=
  emit (EResponseSuccess result debugInfo).

(** [x == c] for an interface value [x] and an untyped integer constant [c]:
    the constant is converted to its default type [int], and two interface
    values are equal only when their dynamic types are identical. *)
Definition iface_eq_int (x : val) (c : Z) : bool :=
  match x with
  | VInt n => n =? c
  | _ => false
  end.

(** [x == true] for an interface value [x]. *)
Definition iface_eq_true (x : val) : bool :=
  match x with
  | VBool b => b
  | _ => false
  end.

(** [createInitializeRequest]. *)
Definition createInitializeRequest : gmap string val :=
  <["jsonrpc" := VString "2.0"]>
  (<["id" := VInt 1]>
  (<["method" := VString "initialize"]>
  (<["params" := VMap (
       <["protocolVersion" := VString "2025-03-26"]>
       (<["capabilities" := VMap ∅]>
       (<["clientInfo" := VMap (
            <["name" := VString "Higress-mcp-proxy"]>
            (<["version" := VString "1.0.0"]> ∅))]> ∅)))]> ∅))).

(** The notification literal of [sendInitializedNotification]. *)
Definition initializedNotification : gmap string val :=
  <["jsonrpc" := VString "2.0"]>
  (<["method" := VString "notifications/initialized"]> ∅).

(** [createToolsListRequest(cursor)]. *)
Definition createToolsListRequest (cursor : option string) : gmap string val :=
  let params : gmap string val :=
    match cursor with
    | Some c => if negb (String.eqb c "") then <["cursor" := VString c]> ∅ else ∅
    | None => ∅
    end in
  <["jsonrpc" := VString "2.0"]>
  (<["id" := VInt 2]>
  (<["method" := VString "tools/list"]>
  (<["params" := VMap params]> ∅))).

(** [createToolsCallRequest(toolName, arguments)]. *)
Definition createToolsCallRequest (toolName : string) (arguments : gmap string val)
    : gmap string val :=
  <["jsonrpc" := VString "2.0"]>
  (<["id" := VInt 3]>
  (<["method" := VString "tools/call"]>
  (<["params" := VMap (
       <["name" := VString toolName]>
       (<["arguments" := VMap arguments]> ∅))]> ∅))).

(** The header list every outbound request starts from: the content type,
    then the session id when the handler has one. *)
Definition requestHeaders (h : McpProtocolHandler) : list (string * string) :=
  if negb (String.eqb (sessionID h) "")
  then [("Content-Type", "application/json"); ("Mcp-Session-Id", sessionID h)]
  else [("Content-Type", "application/json")].

(** [uint32(h.timeout)], then the default of five seconds for zero. *)
Definition effectiveTimeout (h : McpProtocolHandler) : Z :=
  let t := timeout h mod 2 ^ 32 in
  if t =? 0 then 5000 else t.

Section Handler.
Context `{Env}.

(** [h.applyProxyAuthentication(server, schemeID, passthroughCredential,
    &headers)]: the URL to call and the header list after authentication,
    or the error.  On an error the caller's header list is the one it had
    before the call. *)
Definition applyProxyAuthentication (h : McpProtocolHandler) (server : McpProxyServer)
    (schemeID passthroughCredential : string) (headers : list (string * string))
    : GoError + (string * list (string * string)) :=
  match url_Parse (backendURL h) with
  | inl _ => inl (Errorf "failed to parse backend URL: %v" [])
  | inr parsedURL =>
      let authCtx :=
        {| arc_Method := "POST";
           arc_Headers := headers;
           arc_ParsedURL := parsedURL;
           arc_RequestBody := "";
           arc_PassthroughCredential := passthroughCredential |} in
      let securityConfig :=
        {| req_ID := schemeID;
           req_Credential := "";
           req_Passthrough := negb (String.eqb passthroughCredential "") |} in
      match ApplySecurity securityConfig server authCtx with
      | (Some err, _) => inl err
      | (None, authCtx') =>
          let u := arc_ParsedURL authCtx' in
          let encodedPath := url_EscapedPath u in
          let urlStr :=
            if negb (String.eqb (url_Scheme u) "") && negb (String.eqb (url_Host u) "")
            then url_Scheme u ++ "://" ++ url_Host u ++ encodedPath
            else "/" ++ TrimPrefix_slash encodedPath in
          let urlStr :=
            if negb (String.eqb (url_RawQuery u) "")
            then urlStr ++ "?" ++ url_RawQuery u else urlStr in
          let urlStr :=
            if negb (String.eqb (url_Fragment u) "")
            then urlStr ++ "#" ++ url_Fragment u else urlStr in
          inr (urlStr, arc_Headers authCtx')
      end
  end.

(** The block "Apply authentication if auth info was provided" that
    [sendMcpRequest], [executeToolsList] and [executeToolsCall] share: with
    a scheme id, authentication is applied; its error is logged and the
    original URL and headers are kept. *)
Definition authenticate (authInfo : option ProxyAuthInfo) (errFmt okFmt : string)
    (headers : list (string * string)) : M (string * list (string * string)) :=
  h ← get_handler;
  match authInfo with
  | Some authInfo =>
      if negb (String.eqb (SecuritySchemeID authInfo) "") then
        match applyProxyAuthentication h (Server authInfo) (SecuritySchemeID authInfo)
                (PassthroughCredential authInfo) headers with
        | inl _ => log LError errFmt ;; M_ret (backendURL h, headers)
        | inr (modifiedURL, headers') => log LDebug okFmt ;; M_ret (modifiedURL, headers')
        end
      else M_ret (backendURL h, headers)
  | None => M_ret (backendURL h, headers)
  end.

(** The same block when the auth info is read from the context under
    "mcp_proxy_auth_info" with a checked type assertion. *)
Definition authenticateFromContext (errFmt okFmt : string)
    (headers : list (string * string)) : M (string * list (string * string)) :=
  authInfoCtx ← GetContext "mcp_proxy_auth_info";
  match authInfoCtx with
  | Some (CAuthInfo authInfo) => authenticate (Some authInfo) errFmt okFmt headers
  | _ => authenticate None errFmt okFmt headers
  end.

(** [h.sendMcpRequest(ctx, body, authInfo, callback)]: a POST over the
    route cluster; the result is the error of [client.Post]. *)
Definition sendMcpRequest (body : json) (authInfo : option ProxyAuthInfo)
    (callback : Callback) : M (option GoError) :=
  h ← get_handler;
  p ← authenticate authInfo
         "Failed to apply authentication for MCP request: %v"
         "Using modified URL for MCP request: %s"
         (requestHeaders h);
  let '(finalURL, headers) := p in
  emit (EPost finalURL headers body (effectiveTimeout h) callback) ;;
  M_ret (client_Post finalURL headers body (effectiveTimeout h)).

(** The block "Add source attribution to error data" of
    [wrapBackendError]: the assignment [textContent["text"] = wrappedText]
    writes through the maps and the slice that [response] refers to, so
    the response afterwards is the one with the new text in place. *)
Definition addSourceAttribution (response : gmap string val) : gmap string val :=
  match response !! "result" with
  | Some (VMap resultMap) =>
      match resultMap !! "content" with
      | Some (VArray (VMap textContent :: contentRest)) =>
          match textContent !! "text" with
          | Some text =>
              let wrappedText := "Backend error: " ++ Sprint_v text in
              <["result" := VMap (
                  <["content" := VArray (
                      VMap (<["text" := VString wrappedText]> textContent)
                      :: contentRest)]> resultMap)]> response
          | None => response
          end
      | _ => response
      end
  | _ => response
  end.

(** [h.wrapBackendError(originalResponse, ctx)]. *)
Definition wrapBackendError (originalResponse : option json) : M unit :=
  match Unmarshal_map originalResponse with
  | inl err =>
      log LError "Failed to parse backend error response: %v" ;;
      OnMCPResponseError err ErrInternalError "mcp-proxy:error:parse_failure"
  | inr response =>
      let wrappedResponse := Marshal (VMap (addSourceAttribution response)) in
      match Unmarshal_map (Some wrappedResponse) with
      | inl err =>
          log LError "Failed to parse wrapped error response: %v" ;;
          OnMCPResponseError err ErrInternalError "mcp-proxy:error:wrap_failure"
      | inr wrappedResult =>
          match wrappedResult !! "result" with
          | Some (VMap resultMap) =>
              OnMCPResponseSuccess resultMap "mcp-proxy:error:backend_wrapped"
          | Some _ =>
              OnMCPResponseError (Errorf "invalid wrapped result type" [])
                ErrInternalError "mcp-proxy:error:wrap_failure"
          | None =>
              OnMCPResponseError (Errorf "wrapped response parse error" [])
                ErrInternalError "mcp-proxy:error:wrap_failure"
          end
      end
  end.

(** [h.executeToolsList(ctx)]. *)
Definition executeToolsList : M (option GoError) :=
  cursorVal ← GetContext "mcp_proxy_cursor";
  cursor ← match cursorVal with
            | None => M_ret None
            | Some (CString cursorStr) => M_ret (Some cursorStr)
            | Some _ => panic
            end;
  let requestBody := Marshal (VMap (createToolsListRequest cursor)) in
  h ← get_handler;
  p ← authenticateFromContext
         "Failed to apply authentication for tools/list request: %v"
         "Using modified URL for tools/list request: %s"
         (requestHeaders h);
  let '(finalURL, headers) := p in
  emit (ERouteCall "POST" finalURL headers requestBody CbToolsList) ;;
  M_ret (ctx_RouteCall "POST" finalURL headers requestBody).

(** [h.executeToolsCall(ctx)]. *)
Definition executeToolsCall : M (option GoError) :=
  nameVal ← GetContext CtxMcpProxyToolName;
  toolName ← match nameVal with
              | Some (CString s) => M_ret s
              | _ => panic
              end;
  argsVal ← GetContext CtxMcpProxyToolArgs;
  arguments ← match argsVal with
               | Some (CArguments m) => M_ret m
               | _ => panic
               end;
  let requestBody := Marshal (VMap (createToolsCallRequest toolName arguments)) in
  h ← get_handler;
  p ← authenticateFromContext
         "Failed to apply authentication for proxy tool call: %v"
         "Using modified URL for tools/call request: %s"
         (requestHeaders h);
  let '(finalURL, headers) := p in
  emit (ERouteCall "POST" finalURL headers requestBody (CbToolsCall toolName)) ;;
  M_ret (ctx_RouteCall "POST" finalURL headers requestBody).

(** The callback of [executeToolsList]. *)
Definition onToolsListResponse (statusCode : Z)
    (responseHeaders : list (string * string)) (responseBody : option json) : M unit :=
  if negb (statusCode =? 200) then
    log LError "Tools/list request failed with status %d: %s" ;;
    OnMCPResponseError (Errorf "backend tools/list failed" [])
      ErrInternalError "mcp-proxy:tools/list:backend_error"
  else
    match Unmarshal_map responseBody with
    | inl err =>
        log LError "Failed to parse tools/list response: %v" ;;
        OnMCPResponseError err ErrInternalError "mcp-proxy:tools/list:parse_error"
    | inr response =>
        match response !! "result" with
        | Some (VMap resultMap) =>
            λ st,
              match applyAllowToolsFilter (ctx st) resultMap with
              | None => None
              | Some filteredResult =>
                  OnMCPResponseSuccess filteredResult "mcp-proxy:tools/list:success" st
              end
        | Some _ =>
            OnMCPResponseError (Errorf "invalid tools/list result type" [])
              ErrInternalError "mcp-proxy:tools/list:invalid_type"
        | None =>
            OnMCPResponseError (Errorf "invalid tools/list response" [])
              ErrInternalError "mcp-proxy:tools/list:invalid_response"
        end
    end.

(** The callback of [executeToolsCall]. *)
Definition onToolsCallResponse (toolName : string) (statusCode : Z)
    (responseHeaders : list (string * string)) (responseBody : option json) : M unit :=
  if negb (statusCode =? 200) then
    log LError "Tools/call request failed with status %d: %s" ;;
    OnMCPResponseError (Errorf "backend tools/call failed" [])
      ErrInternalError "mcp-proxy:tools/call:backend_error"
  else
    let backendReportedError :=
      match Unmarshal_map responseBody with
      | inr callResponse =>
          match callResponse !! "result" with
          | Some (VMap resultMap) =>
              match resultMap !! "isError" with
              | Some isError => iface_eq_true isError
              | None => false
              end
          | _ => false
          end
      | inl _ => false
      end in
    if backendReportedError then
      log LWarn "Backend reported tool call error for %s" ;;
      wrapBackendError responseBody
    else
      match Unmarshal_map responseBody with
      | inl err =>
          log LError "Failed to parse tools/call response: %v" ;;
          OnMCPResponseError err ErrInternalError "mcp-proxy:tools/call:parse_error"
      | inr finalResponse =>
          match finalResponse !! "result" with
          | Some (VMap resultMap) =>
              OnMCPResponseSuccess resultMap "mcp-proxy:tools/call:success"
          | Some _ =>
              OnMCPResponseError (Errorf "invalid tools/call result type" [])
                ErrInternalError "mcp-proxy:tools/call:invalid_type"
          | None =>
              OnMCPResponseError (Errorf "invalid tools/call response" [])
                ErrInternalError "mcp-proxy:tools/call:invalid_response"
          end
      end.

(** The callback of [sendInitializedNotification]; the deferred
    [proxywasm.ResumeHttpRequest] runs last. *)
Definition onInitializedResponse (statusCode : Z)
    (responseHeaders : list (string * string)) (responseBody : option json) : M unit :=
  (if negb (statusCode =? 200)
   then log LWarn "Initialized notification failed with status %d: %s"
   else log LDebug "MCP initialization completed successfully") ;;
  SetContext CtxMcpProxyInitialized (CBool true) ;;
  operation ← GetContext CtxMcpProxyOperation;
  match operation with
  | Some (COperation op) =>
      if String.eqb op OpToolsList then
        err ← executeToolsList;
        match err with
        | Some err =>
            log LError "Failed to execute tools/list: %v" ;;
            OnMCPResponseError err ErrInternalError "mcp-proxy:tools/list:execution_error"
        | None => M_ret tt
        end
      else if String.eqb op OpToolsCall then
        err ← executeToolsCall;
        match err with
        | Some err =>
            log LError "Failed to execute tools/call: %v" ;;
            OnMCPResponseError err ErrInternalError "mcp-proxy:tools/call:execution_error"
        | None => M_ret tt
        end
      else
        log LWarn "Unknown MCP proxy operation: %v" ;;
        OnMCPResponseError (Errorf "unknown operation" [])
          ErrInternalError "mcp-proxy:unknown_operation"
  | Some _ => panic
  | None => log LDebug "MCP initialization completed, no pending operation"
  end ;;
  emit EResume.

(** [h.sendInitializedNotification(ctx, authInfo)]. *)
Definition sendInitializedNotification (authInfo : option ProxyAuthInfo) : M unit :=
  let requestBody := Marshal (VMap initializedNotification) in
  err ← sendMcpRequest requestBody authInfo CbInitialized;
  match err with
  | Some err =>
      log LError "Failed to send initialized notification: %v" ;;
      OnMCPResponseError err ErrInternalError
        "mcp-proxy:notifications/initialized:send_error"
  | None => M_ret tt
  end.

(** The session id of the initialize response: the first header named
    "Mcp-Session-Id". *)
Fixpoint findSessionID (responseHeaders : list (string * string)) : option string :=
  match responseHeaders with
  | [] => None
  | (name, value) :: rest =>
      if String.eqb name "Mcp-Session-Id" then Some value else findSessionID rest
  end.

(** The callback of [Initialize]. *)
Definition onInitializeResponse (authInfo : option ProxyAuthInfo) (statusCode : Z)
    (responseHeaders : list (string * string)) (responseBody : option json) : M unit :=
  if negb (statusCode =? 200) then
    log LError "Initialize request failed with status %d: %s" ;;
    OnMCPResponseError (Errorf "backend initialization failed" [])
      ErrInternalError "mcp-proxy:initialize:backend_error"
  else
    match Unmarshal_map responseBody with
    | inl err =>
        log LError "Failed to parse initialize response: %v" ;;
        OnMCPResponseError err ErrInternalError "mcp-proxy:initialize:parse_error"
    | inr response =>
        match response !! "error" with
        | Some errorObj =>
            log LError "Backend initialization error: %v" ;;
            let versionIncompatible :=
              match errorObj with
              | VMap errorMap =>
                  match errorMap !! "code" with
                  | Some code => iface_eq_int code (-32602)
                  | None => false
                  end
              | _ => false
              end in
            if versionIncompatible then
              OnMCPResponseError (Errorf "protocol version not supported by backend" [])
                ErrInvalidParams "mcp-proxy:initialize:version_incompatible"
            else
              OnMCPResponseError (Errorf "backend initialization failed" [])
                ErrInternalError "mcp-proxy:initialize:backend_error"
        | None =>
            match findSessionID responseHeaders with
            | Some sid =>
                set_sessionID sid ;;
                SetContext CtxMcpProxySessionID (CString sid) ;;
                log LInfo "Received MCP session ID: %s"
            | None => M_ret tt
            end ;;
            sendInitializedNotification authInfo
        end
    end.

(** [h.Initialize(ctx, authInfo)]. *)
Definition Initialize (authInfo : option ProxyAuthInfo) : M (option GoError) :=
  log LInfo "Starting MCP protocol initialization for %s" ;;
  initialized ← GetContext CtxMcpProxyInitialized;
  sid ← GetContext CtxMcpProxySessionID;
  match initialized, sid with
  | Some _, Some (CString sessionID) =>
      set_sessionID sessionID ;;
      log LDebug "MCP proxy already initialized with session ID: %s" ;;
      M_ret None
  | Some _, Some _ => panic
  | _, _ =>
      let requestBody := Marshal (VMap createInitializeRequest) in
      sendMcpRequest requestBody authInfo (CbInitialize authInfo)
  end.

(** [h.ForwardToolsList(ctx, cursor, authInfo)]. *)
Definition ForwardToolsList (cursor : option string) (authInfo : option ProxyAuthInfo)
    : M (option GoError) :=
  log LDebug "Forwarding tools/list request to %s" ;;
  SetContext CtxMcpProxyOperation (COperation OpToolsList) ;;
  match cursor with
  | Some c => SetContext "mcp_proxy_cursor" (CString c)
  | None => M_ret tt
  end ;;
  match authInfo with
  | Some a => SetContext "mcp_proxy_auth_info" (CAuthInfo a)
  | None => M_ret tt
  end ;;
  initialized ← GetContext CtxMcpProxyInitialized;
  match initialized with
  | Some _ => executeToolsList
  | None => Initialize authInfo
  end.

(** [h.ForwardToolsCall(ctx, toolName, arguments, authInfo)]. *)
Definition ForwardToolsCall (toolName : string) (arguments : gmap string val)
    (authInfo : option ProxyAuthInfo) : M (option GoError) :=
  log LDebug "Forwarding tools/call request for tool %s to %s" ;;
  SetContext CtxMcpProxyOperation (COperation OpToolsCall) ;;
  SetContext CtxMcpProxyToolName (CString toolName) ;;
  SetContext CtxMcpProxyToolArgs (CArguments arguments) ;;
  match authInfo with
  | Some a => SetContext "mcp_proxy_auth_info" (CAuthInfo a)
  | None => M_ret tt
  end ;;
  initialized ← GetContext CtxMcpProxyInitialized;
  match initialized with
  | Some _ => executeToolsCall
  | None => Initialize authInfo
  end.

(** The continuation behind a callback tag. *)
Definition runCallback (callback : Callback) (statusCode : Z)
    (responseHeaders : list (string * string)) (responseBody : option json) : M unit :=
  match callback with
  | CbInitialize authInfo => onInitializeResponse authInfo statusCode responseHeaders responseBody
  | CbInitialized => onInitializedResponse statusCode responseHeaders responseBody
  | CbToolsList => onToolsListResponse statusCode responseHeaders responseBody
  | CbToolsCall toolName => onToolsCallResponse toolName statusCode responseHeaders responseBody
  end.

End Handler.


(** ** Authentication of the proxy server (proxy_server.go) *)

(** [s.GetSecurityScheme(id)]. *)
Definition GetSecurityScheme (s : McpProxyServer) (id : string) : option SecurityScheme :=
  securitySchemes s !! id.

(** The loop "add or update the header": the first header with the given
    name is overwritten; the flag tells whether one was found. *)
Fixpoint updateHeader (name credential : string) (headers : list (string * string))
    : list (string * string) * bool :=
  match headers with
  | [] => ([], false)
  | header :: rest =>
      if String.eqb (fst header) name then ((name, credential) :: rest, true)
      else let '(rest', found) := updateHeader name credential rest in
           (header :: rest', found)
  end.

Definition addOrUpdateHeader (name credential : string) (headers : list (string * string))
    : list (string * string) :=
  let '(headers', found) := updateHeader name credential headers in
  if found then headers' else (headers ++ [(name, credential)])%list.

Definition pac_with_headers (ctx : ProxyAuthContext) (headers : list (string * string))
    : ProxyAuthContext :=
  {| pac_Headers := headers;
     pac_ParsedURL := pac_ParsedURL ctx;
     pac_RequestBody := pac_RequestBody ctx;
     pac_PassthroughCredential := pac_PassthroughCredential ctx |}.

(** [s.ApplyAuthentication(ctx, schemeID)]: the error it returns and the
    context it leaves behind the pointer. *)
Definition ApplyAuthentication (s : McpProxyServer) (ctx : ProxyAuthContext)
    (schemeID : string) : option GoError * ProxyAuthContext :=
  match GetSecurityScheme s schemeID with
  | None => (Some (Errorf "security scheme not found: %s" [schemeID]), ctx)
  | Some scheme =>
      let credential := pac_PassthroughCredential ctx in
      let credential :=
        if String.eqb credential "" && negb (String.eqb (scheme_DefaultCredential scheme) "")
        then scheme_DefaultCredential scheme else credential in
      if String.eqb credential "" then
        (Some (Errorf "no credential available for scheme %s" [schemeID]), ctx)
      else if String.eqb (scheme_Type scheme) "apiKey" then
        if String.eqb (scheme_In scheme) "header" then
          (None, pac_with_headers ctx
                   (addOrUpdateHeader (scheme_Name scheme) credential (pac_Headers ctx)))
        else if String.eqb (scheme_In scheme) "query" then
          (* the branch holds two comments and no statement *)
          (None, ctx)
        else (None, ctx)
      else if String.eqb (scheme_Type scheme) "http" then
        (None, pac_with_headers ctx
                 (addOrUpdateHeader "Authorization" credential (pac_Headers ctx)))
      else (None, ctx)
  end.

(** The value of the first header with the given name. *)
Fixpoint headerValue (name : string) (headers : list (string * string)) : option string :=
  match headers with
  | [] => None
  | header :: rest =>
      if String.eqb (fst header) name then Some (snd header) else headerValue name rest
  end.

(** [s.ExtractCredentials(ctx, schemeID)]. *)
Definition ExtractCredentials (s : McpProxyServer) (ctx : ProxyAuthContext)
    (schemeID : string) : option GoError * ProxyAuthContext :=
  match GetSecurityScheme s schemeID with
  | None => (Some (Errorf "security scheme not found: %s" [schemeID]), ctx)
  | Some scheme =>
      let extract name :=
        match headerValue name (pac_Headers ctx) with
        | Some value =>
            (None, {| pac_Headers := pac_Headers ctx;
                      pac_ParsedURL := pac_ParsedURL ctx;
                      pac_RequestBody := pac_RequestBody ctx;
                      pac_PassthroughCredential := value |})
        | None => (None, ctx)
        end in
      if String.eqb (scheme_Type scheme) "apiKey" then extract (scheme_Name scheme)
      else if String.eqb (scheme_Type scheme) "http" then extract "Authorization"
      else (None, ctx)
  end.


(** ** The JSON-RPC codec (pkg/mcp/utils) *)

(** Modelled from the spec: the JSON-RPC codec of pkg/mcp/utils
    ([JsonRpcID], the parsing of the client frame, and
    [OnJsonRpcResponseSuccess] / [OnJsonRpcResponseError] behind
    [OnMCPResponseSuccess] / [OnMCPResponseError]), of which the sources at
    hand hold the callers and the tests only.  Section 4.1: a frame is
    [{jsonrpc, id?, method?, params?}]; [jsonrpc] must equal "2.0", otherwise
    INVALID_REQUEST; [id] is captured as an opaque JSON value (string, number,
    or absent) and re-emitted with the same JSON type; a body that is not
    JSON is a PARSE_ERROR. *)
Record ClientFrame : Type := {
  frame_id : option json;
  frame_method : option string;
  frame_params : option json;
}.

Definition parseClientFrame (body : option json) : Z + ClientFrame :=
  match body with
  | None => inl ErrParseError
  | Some (JObject m) =>
      match m !! "jsonrpc" with
      | Some (JString "2.0") =>
          let method := match m !! "method" with
                        | Some (JString s) => Some s
                        | _ => None
                        end in
          match m !! "id" with
          | None =>
              inr {| frame_id := None; frame_method := method;
                     frame_params := m !! "params" |}
          | Some (JString s) =>
              inr {| frame_id := Some (JString s); frame_method := method;
                     frame_params := m !! "params" |}
          | Some (JNumber n) =>
              inr {| frame_id := Some (JNumber n); frame_method := method;
                     frame_params := m !! "params" |}
          | Some _ => inl ErrInvalidRequest
          end
      | _ => inl ErrInvalidRequest
      end
  | Some _ => inl ErrInvalidRequest
  end.

(** Modelled from the spec: the two frames of section 4.1,
    [{"jsonrpc":"2.0","id":<opaque>,"result":<value>}] and
    [{"jsonrpc":"2.0","id":<opaque>,"error":{"code":<int>,"message":<string>}}]. *)
Definition buildSuccess (id : json) (result : json) : json :=
  JObject (<["jsonrpc" := JString "2.0"]>
          (<["id" := id]>
          (<["result" := result]> ∅))).

Definition buildError (id : json) (code : Z) (message : string) : json :=
  JObject (<["jsonrpc" := JString "2.0"]>
          (<["id" := id]>
          (<["error" := JObject (<["code" := JNumber code]>
                                (<["message" := JString message]> ∅))]> ∅))).

(** The members of a frame. *)
Definition frameMember (key : string) (frame : json) : option json :=
  match frame with
  | JObject m => m !! key
  | _ => None
  end.

(** Modelled from the spec: the dispatch of section 4.1.  A frame without
    [id] is a notification and is acknowledged with 202 and no body, and so
    is [notifications/initialized]; [tools/list] and [tools/call] go to the
    proxy layer; any other method of a request is METHOD_NOT_FOUND, echoing
    the client id.  A parse error is answered with id [null] (section 7).
    The texts of the local error messages are not fixed by the
    specification; the standard ones of JSON-RPC 2.0 stand in. *)
Inductive Dispatch : Type :=
| DAck
| DLocal (frame : json)
| DProxy (id : json) (method : string) (params : option json).

Definition dispatchClientFrame (body : option json) : Dispatch :=
  match parseClientFrame body with
  | inl code =>
      DLocal (buildError JNull code
                (if code =? ErrParseError then "Parse error" else "Invalid Request"))
  | inr frame =>
      match frame_id frame with
      | None => DAck
      | Some id =>
          match frame_method frame with
          | Some method =>
              if String.eqb method "notifications/initialized" then DAck
              else if String.eqb method "tools/list" || String.eqb method "tools/call"
              then DProxy id method (frame_params frame)
              else DLocal (buildError id ErrMethodNotFound "Method not found")
          | None => DLocal (buildError id ErrMethodNotFound "Method not found")
          end
      end
  end.

Section ClientReplies.
Context `{Env}.

(** Modelled from the spec: what [OnJsonRpcResponseSuccess] and
    [OnJsonRpcResponseError] send for a request whose captured id is [id]:
    the success or error frame of section 4.1, tagged with that id. *)
Definition clientReply (id : json) (e : Effect) : option json :=
  match e with
  | EResponseSuccess result _ => Some (buildSuccess id (Marshal (VMap result)))
  | EResponseError err code _ => Some (buildError id code (Error_text err))
  | _ => None
  end.

(** The frames a trace of the handler delivers to the client. *)
Definition clientFrames (id : json) (trace : list Effect) : list json :=
  omap (clientReply id) trace.

(** ** Driving the handler with backend responses *)

(** A backend response as a callback receives it. *)
Record BackendResponse : Type := {
  resp_status : Z;
  resp_headers : list (string * string);
  resp_body : option json;
}.

(** The callback an outbound call leaves registered with the host, when
    the host accepted the call. *)
Definition registered (e : Effect) : option Callback :=
  match e with
  | EPost url headers body timeout cb =>
      match client_Post url headers body timeout with
      | None => Some cb
      | Some _ => None
      end
  | ERouteCall method url headers body cb =>
      match ctx_RouteCall method url headers body with
      | None => Some cb
      | Some _ => None
      end
  | _ => None
  end.

(** The host hands each backend response to the oldest registered
    callback; the calls a callback issues are registered behind it. *)
Fixpoint serve (responses : list BackendResponse) (pending : list Callback)
    (st : State) : option (State * list Effect) :=
  match responses, pending with
  | r :: responses', cb :: pending' =>
      match runCallback cb (resp_status r) (resp_headers r) (resp_body r) st with
      | None => None
      | Some (_, st', trace) =>
          match serve responses' (pending' ++ omap registered trace)%list st' with
          | None => None
          | Some (st'', trace') => Some (st'', (trace ++ trace')%list)
          end
      end
  | _, _ => Some (st, [])
  end.

(** The "tools/list" handler of [CreateMcpProxyMethodHandlers]:
    [allowToolsHeaderStr] is the value of the request header
    "x-envoy-allow-mcp-tools" (empty when the header is absent), [cursor]
    is [params.Get("cursor")] when it exists; the server then builds a
    fresh protocol handler from its configuration and forwards. *)
Definition toolsListMethodHandler (server : McpProxyServer) (allowTools : gset string)
    (mcpServerURL : string) (configTimeout : Z) (authInfo : option ProxyAuthInfo)
    (allowToolsHeaderStr : string) (cursor : option string)
    (ctx0 : gmap string CtxVal) : option (option GoError * State * list Effect) :=
  let ctx1 :=
    <["mcp_proxy_allow_tools" := CAllowTools allowTools]>
    (<["mcp_proxy_server" := CServer server]>
    (<["mcp_proxy_allow_tools_header" := CString allowToolsHeaderStr]> ctx0)) in
  ForwardToolsList cursor authInfo
    {| ctx := ctx1; handler := NewMcpProtocolHandler mcpServerURL configTimeout |}.

(** The run of one proxied "tools/list" request over StreamableHTTP: the
    handler, then the backend responses; the result is the list of frames
    the client receives. *)
Definition proxyToolsList (id : json) (server : McpProxyServer) (allowTools : gset string)
    (mcpServerURL : string) (configTimeout : Z) (authInfo : option ProxyAuthInfo)
    (allowToolsHeaderStr : string) (cursor : option string)
    (responses : list BackendResponse) : option (list json) :=
  match toolsListMethodHandler server allowTools mcpServerURL configTimeout authInfo
          allowToolsHeaderStr cursor ∅ with
  | None => None
  | Some (_, st, trace) =>
      match serve responses (omap registered trace) st with
      | None => None
      | Some (_, trace') => Some (clientFrames id (trace ++ trace')%list)
      end
  end.

End ClientReplies.

(** ** The SSE transport (sse_proxy.go) *)

(** Modelled from the spec: the SSE event parser and the SSE protocol state
    machine of sse_proxy.go ([ParseSSEMessage], [handleSSEStreamingResponse]
    and the handlers of its states), which are not among the sources at
    hand; sections 4.5, 4.6 and 7 of the specification and the design notes
    of the repository describe them.  The event parser first: line ends are
    LF, CR LF and CR; a line that starts with a colon is a comment; a field
    line is [NAME: VALUE] with one leading space of the value stripped; a
    blank line ends an event; the data lines of an event are joined by LF;
    the event name defaults to "message". *)
Record SseEvent : Type := {
  ev_name : string;
  ev_data : string;
}.

Definition LF : ascii := ascii_of_nat 10.
Definition CR : ascii := ascii_of_nat 13.

(** The complete lines of a byte string, each with the bytes it was read
    from (its text and its line end), and the bytes after the last complete
    line.  A CR at the very end may be the first half of CR LF: it ends no
    line yet. *)
Fixpoint lexLines (s : string) : list (string * string) * string :=
  match s with
  | EmptyString => ([], EmptyString)
  | String c rest =>
      if Ascii.eqb c LF then
        let '(ls, tail) := lexLines rest in
        ((EmptyString, String LF EmptyString) :: ls, tail)
      else if Ascii.eqb c CR then
        match rest with
        | EmptyString => ([], String CR EmptyString)
        | String c2 rest2 =>
            if Ascii.eqb c2 LF then
              let '(ls, tail) := lexLines rest2 in
              ((EmptyString, String CR (String LF EmptyString)) :: ls, tail)
            else
              let '(ls, tail) := lexLines rest in
              ((EmptyString, String CR EmptyString) :: ls, tail)
        end
      else
        let '(ls, tail) := lexLines rest in
        match ls with
        | [] => ([], String c tail)
        | (l, raw) :: ls' => ((String c l, String c raw) :: ls', tail)
        end
  end.

(** The complete blocks of a list of lines (a block is closed by a blank
    line), and the lines of the block that is still open. *)
Fixpoint groupBlocks (ls opened : list (string * string))
    : list (list string) * list (string * string) :=
  match ls with
  | [] => ([], rev opened)
  | (l, raw) :: rest =>
      if String.eqb l EmptyString then
        let '(blocks, stillOpen) := groupBlocks rest [] in
        (map fst (rev opened) :: blocks, stillOpen)
      else groupBlocks rest ((l, raw) :: opened)
  end.

(** A field line split at its first colon; [None] for a comment. *)
Fixpoint splitField (line : string) : string * option string :=
  match line with
  | EmptyString => (EmptyString, None)
  | String c rest =>
      if Ascii.eqb c ":" then (EmptyString, Some rest)
      else let '(name, value) := splitField rest in (String c name, value)
  end.

Definition stripLeadingSpace (s : string) : string :=
  match s with
  | String " "%char s' => s'
  | _ => s
  end.

Definition parseField (line : string) : option (string * string) :=
  match line with
  | String ":"%char _ => None
  | _ =>
      let '(name, value) := splitField line in
      Some (name, match value with
                  | Some v => stripLeadingSpace v
                  | None => EmptyString
                  end)
  end.

(** The event of a block: the last [event] field names it, the [data]
    fields are its data; a block without data (comments, keep-alive pings)
    is no event. *)
Definition eventOfBlock (block : list string) : option SseEvent :=
  let fields := omap parseField block in
  let datas := map snd (filter (λ f, fst f = "data") fields) in
  let names := map snd (filter (λ f, fst f = "event") fields) in
  match datas with
  | [] => None
  | _ => Some {| ev_name := default "message" (last names);
                 ev_data := Join LF datas |}
  end.

Definition concatStrings (l : list string) : string :=
  foldr String.append EmptyString l.

(** The events that are complete in the accumulated bytes, and the bytes of
    the event that is not complete yet. *)
Definition parseEvents (s : string) : list SseEvent * string :=
  let '(ls, tail) := lexLines s in
  let '(blocks, stillOpen) := groupBlocks ls [] in
  (omap eventOfBlock blocks, concatStrings (map snd stillOpen) ++ tail).

(** Modelled from the spec: the states of the data model (section 3), the
    cap of 100 MiB on the accumulated bytes (sections 3, 4.5 and 7), and the
    per-request context as far as the SSE path uses it. *)
Inductive SseState : Type :=
| NONE | WAIT_ENDPOINT | SENDING_INIT | WAIT_INIT_RESP | SENDING_NOTIFY
| WAIT_NOTIFY_RESP | SENDING_TOOL | WAIT_TOOL_RESP | DONE | FAILED.

Definition MaxSSEBufferSize : Z := 100 * 1024 * 1024.

Record RequestContext : Type := {
  jsonRpcId : json;
  rc_method : string;
  toolRequest : json;
  store : gmap string CtxVal;
  backendOrigin : string;
  sseState : SseState;
  sseBuffer : string;
  sseEndpointURL : string;
}.

Definition withState (rc : RequestContext) (s : SseState) : RequestContext :=
  {| jsonRpcId := jsonRpcId rc; rc_method := rc_method rc; toolRequest := toolRequest rc;
     store := store rc; backendOrigin := backendOrigin rc;
     sseState := s; sseBuffer := sseBuffer rc; sseEndpointURL := sseEndpointURL rc |}.

Definition withBuffer (rc : RequestContext) (b : string) : RequestContext :=
  {| jsonRpcId := jsonRpcId rc; rc_method := rc_method rc; toolRequest := toolRequest rc;
     store := store rc; backendOrigin := backendOrigin rc;
     sseState := sseState rc; sseBuffer := b; sseEndpointURL := sseEndpointURL rc |}.

Definition withEndpoint (rc : RequestContext) (url : string) : RequestContext :=
  {| jsonRpcId := jsonRpcId rc; rc_method := rc_method rc; toolRequest := toolRequest rc;
     store := store rc; backendOrigin := backendOrigin rc;
     sseState := sseState rc; sseBuffer := sseBuffer rc; sseEndpointURL := url |}.

(** The request context after the request-body hook (section 4.4, step 7). *)
Definition newRequestContext (id : json) (method : string) (toolRequest : json)
    (store : gmap string CtxVal) (backendOrigin : string) : RequestContext :=
  {| jsonRpcId := id; rc_method := method; toolRequest := toolRequest;
     store := store; backendOrigin := backendOrigin;
     sseState := WAIT_ENDPOINT; sseBuffer := EmptyString;
     sseEndpointURL := EmptyString |}.

(** What the state machine does to the outside: a sidecall POST to the
    endpoint, or the injection of the final frame into the response body. *)
Inductive SseOutput : Type :=
| Sidecall (url : string) (body : json)
| Inject (frame : json).

(** The states in which the streaming hook does its work: every state but
    [NONE] and the two terminal ones. *)
Definition isActive (s : SseState) : bool :=
  match s with
  | NONE | DONE | FAILED => false
  | _ => true
  end.

Definition bufferOverflowFrame (id : json) : json :=
  buildError id ErrInternalError "SSE buffer overflow".

Section SseMachine.
Context `{Env}.

(** A failure: the error frame is injected and the state is terminal. *)
Definition failWith (rc : RequestContext) (message : string)
    : RequestContext * list SseOutput :=
  (withBuffer (withState rc FAILED) EmptyString,
   [Inject (buildError (jsonRpcId rc) ErrInternalError message)]).

(** The member [id] of a message, compared with the id the proxy used. *)
Definition hasId (m : gmap string json) (n : Z) : bool :=
  match m !! "id" with
  | Some (JNumber k) => k =? n
  | _ => false
  end.

(** The result that goes to the client: the allow-list filter for
    [tools/list], the attribution of a tool failure for [tools/call]. *)
Definition finalResult (rc : RequestContext) (result : gmap string json)
    : option (gmap string val) :=
  if String.eqb (rc_method rc) "tools/list" then
    applyAllowToolsFilter (store rc) (Unmarshal <$> result)
  else
    match result !! "isError" with
    | Some (JBool true) =>
        match addSourceAttribution {["result" := VMap (Unmarshal <$> result)]} !! "result" with
        | Some (VMap r) => Some r
        | _ => Some (Unmarshal <$> result)
        end
    | _ => Some (Unmarshal <$> result)
    end.

(** Modelled from the spec: the table of section 4.6, one event at a
    time. *)
Definition dispatchEvent (rc : RequestContext) (ev : SseEvent)
    : RequestContext * list SseOutput :=
  match sseState rc with
  | WAIT_ENDPOINT =>
      if String.eqb (ev_name ev) "endpoint" then
        let url := match ev_data ev with
                   | String "/"%char _ => backendOrigin rc ++ ev_data ev
                   | _ => ev_data ev
                   end in
        (withState (withEndpoint rc url) SENDING_INIT,
         [Sidecall url (Marshal (VMap createInitializeRequest))])
      else (rc, [])
  | WAIT_INIT_RESP =>
      if String.eqb (ev_name ev) "message" then
        match json_decode (ev_data ev) with
        | Some (JObject m) =>
            if hasId m 1 then
              match m !! "result" with
              | Some _ =>
                  (withState rc WAIT_NOTIFY_RESP,
                   [Sidecall (sseEndpointURL rc) (Marshal (VMap initializedNotification))])
              | None => failWith rc "backend initialization failed"
              end
            else (rc, [])
        | _ => failWith rc "failed to parse initialize response"
        end
      else (rc, [])
  | WAIT_TOOL_RESP =>
      if String.eqb (ev_name ev) "message" then
        match json_decode (ev_data ev) with
        | Some (JObject m) =>
            if hasId m 2 then
              match m !! "result" with
              | Some (JObject result) =>
                  match finalResult rc result with
                  | Some r =>
                      (withBuffer (withState rc DONE) EmptyString,
                       [Inject (buildSuccess (jsonRpcId rc) (Marshal (VMap r)))])
                  | None => failWith rc "invalid tool response"
                  end
              | Some _ => failWith rc "invalid tool response"
              | None => failWith rc "backend tool call failed"
              end
            else (rc, [])
        | _ => failWith rc "failed to parse tool response"
        end
      else (rc, [])
  | _ => (rc, [])
  end.

(** The events of one chunk are dispatched in stream order, as long as
    the machine is not terminal. *)
Fixpoint dispatchAll (rc : RequestContext) (events : list SseEvent)
    : RequestContext * list SseOutput :=
  match events with
  | [] => (rc, [])
  | ev :: rest =>
      if isActive (sseState rc) then
        let '(rc1, out1) := dispatchEvent rc ev in
        let '(rc2, out2) := dispatchAll rc1 rest in
        (rc2, (out1 ++ out2)%list)
      else (rc, [])
  end.

(** Modelled from the spec: the streaming response-body hook (sections
    4.6 and 4.8).  The bytes are appended to [sseBuffer], the complete
    events are taken out and dispatched; when the machine is still running
    and the bytes that remain exceed the cap, the request fails with the
    overflow frame; a terminal machine swallows the bytes. *)
Definition onHttpStreamingResponseBody (rc : RequestContext) (data : string)
    : RequestContext * list SseOutput :=
  if isActive (sseState rc) then
    let '(events, remaining) := parseEvents (sseBuffer rc ++ data) in
    let '(rc1, out) := dispatchAll (withBuffer rc remaining) events in
    if isActive (sseState rc1) then
      if MaxSSEBufferSize <? Z.of_nat (String.length (sseBuffer rc1)) then
        (withBuffer (withState rc1 FAILED) EmptyString,
         (out ++ [Inject (bufferOverflowFrame (jsonRpcId rc1))])%list)
      else (rc1, out)
    else (rc1, out)
  else (rc, []).

(** Modelled from the spec: the completion of a sidecall (sections 4.6
    and 7): a 2xx status moves the machine on, any other status fails the
    request; after a terminal state the callback does nothing. *)
Definition onSidecallDone (rc : RequestContext) (statusCode : Z)
    : RequestContext * list SseOutput :=
  let ok := (200 <=? statusCode) && (statusCode <? 300) in
  match sseState rc with
  | SENDING_INIT =>
      if ok then (withState rc WAIT_INIT_RESP, [])
      else failWith rc "backend initialization failed"
  | WAIT_NOTIFY_RESP =>
      if ok then (withState rc WAIT_TOOL_RESP, [Sidecall (sseEndpointURL rc) (toolRequest rc)])
      else failWith rc "backend notification failed"
  | WAIT_TOOL_RESP =>
      if ok then (rc, []) else failWith rc "backend tool call failed"
  | _ => (rc, [])
  end.

(** What reaches the machine: a chunk of the event stream, or the status
    of the sidecall that was outstanding. *)
Inductive SseInput : Type :=
| Chunk (data : string)
| SidecallDone (statusCode : Z).

Definition sseStep (rc : RequestContext) (i : SseInput) : RequestContext * list SseOutput :=
  match i with
  | Chunk data => onHttpStreamingResponseBody rc data
  | SidecallDone statusCode => onSidecallDone rc statusCode
  end.

Fixpoint sseRun (rc : RequestContext) (inputs : list SseInput)
    : RequestContext * list SseOutput :=
  match inputs with
  | [] => (rc, [])
  | i :: rest =>
      let '(rc1, out1) := sseStep rc i in
      let '(rc2, out2) := sseRun rc1 rest in
      (rc2, (out1 ++ out2)%list)
  end.

(** The frames among the outputs. *)
Definition injections (out : list SseOutput) : list json :=
  omap (λ o, match o with Inject frame => Some frame | Sidecall _ _ => None end) out.

(** One step of the machine either stays quiet (the machine keeps
    running, nothing is injected) or is final (one frame with the client
    id is injected, the machine is terminal and its buffer is empty). *)
Definition quiet (rc1 : RequestContext) (out : list SseOutput) : Prop :=
  isActive (sseState rc1) = true ∧ injections out = [].

Definition final (id : json) (rc1 : RequestContext) (out : list SseOutput) : Prop :=
  isActive (sseState rc1) = false ∧ sseBuffer rc1 = "" ∧
  ∃ frame, injections out = [frame] ∧ frameMember "id" frame = Some id.

End SseMachine.

(** ** An instance to run the definitions *)

(** ASCII white space, as [strings.TrimSpace] sees it on ASCII input. *)
Definition isAsciiSpace (c : ascii) : bool :=
  let n := nat_of_ascii c in
  ((9 <=? n) && (n <=? 13) || (n =? 32))%nat.

Fixpoint trimLeft (s : string) : string :=
  match s with
  | String c s' => if isAsciiSpace c then trimLeft s' else s
  | EmptyString => EmptyString
  end.

Fixpoint trimRight (s : string) : string :=
  match s with
  | EmptyString => EmptyString
  | String c s' =>
      match trimRight s' with
      | EmptyString => if isAsciiSpace c then EmptyString else String c EmptyString
      | t => String c t
      end
  end.

Definition asciiTrimSpace (s : string) : string := trimRight (trimLeft s).

(** The one backend URL of the examples, parsed. *)
Definition exampleBackendURL : string := "http://backend-mcp.example.com/mcp".

Definition exampleParse (s : string) : GoError + URL :=
  if String.eqb s exampleBackendURL then
    inr {| url_Scheme := "http"; url_Host := "backend-mcp.example.com";
           url_EscapedPath := "/mcp"; url_RawQuery := ""; url_Fragment := "" |}
  else inl (Errorf "parse: unknown URL" []).

(** The JSON texts of the examples, decoded. *)
Definition quoted (s : string) : string :=
  String (ascii_of_nat 34) s ++ String (ascii_of_nat 34) "".

Definition initializeResultText : string :=
  "{" ++ quoted "jsonrpc" ++ ":" ++ quoted "2.0" ++ "," ++ quoted "id" ++ ":1,"
      ++ quoted "result" ++ ":{}}".

Definition toolResultText : string :=
  "{" ++ quoted "jsonrpc" ++ ":" ++ quoted "2.0" ++ "," ++ quoted "id" ++ ":2,"
      ++ quoted "result" ++ ":{" ++ quoted "content" ++ ":[{" ++ quoted "type" ++ ":"
      ++ quoted "text" ++ "," ++ quoted "text" ++ ":" ++ quoted "hi" ++ "}],"
      ++ quoted "isError" ++ ":false}}".

Definition toolResultDocument : json :=
  JObject (<["jsonrpc" := JString "2.0"]>
          (<["id" := JNumber 2]>
          (<["result" := JObject (
               <["content" := JArray [JObject (<["type" := JString "text"]>
                                              (<["text" := JString "hi"]> ∅))]]>
               (<["isError" := JBool false]> ∅))]> ∅))).

Definition exampleDecode (text : string) : option json :=
  if String.eqb text initializeResultText then
    Some (JObject (<["jsonrpc" := JString "2.0"]>
                  (<["id" := JNumber 1]> (<["result" := JObject ∅]> ∅))))
  else if String.eqb text toolResultText then Some toolResultDocument
  else None.

(** A platform for examples: ASCII trimming and a host that accepts every
    call.  The examples authenticate nothing: [ApplySecurity], whose text
    is not at hand, is never reached in them, and the field holds a
    routine that changes nothing. *)
Definition exampleEnv : Env :=
  {| TrimSpace := asciiTrimSpace;
     Sprint_other := λ _, "<value>";
     url_Parse := exampleParse;
     ApplySecurity := λ _ _ authCtx, (None, authCtx);
     client_Post := λ _ _ _ _, None;
     ctx_RouteCall := λ _ _ _ _, None;
     Error_other := λ _, "error";
     json_decode := exampleDecode |}.


(** Log lines are the only effects that are not visible outside the
    plugin. *)
Definition is_log (e : Effect) : Prop :=
  match e with
  | ELog _ _ => True
  | _ => False
  end.

(** ** Inputs of the examples *)

(** The initialize response of a backend that rejects the protocol version
    (the body of the test "protocol version mismatch"). *)
Definition versionErrorResponse : json :=
  JObject (<["jsonrpc" := JString "2.0"]>
          (<["id" := JNumber 1]>
          (<["error" := JObject (
               <["code" := JNumber (-32602)]>
               (<["message" := JString "Unsupported protocol version"]> ∅))]> ∅))).

(** A scheme that carries an API key in the query string, with a default
    credential, and a server that knows it. *)
Definition queryKeyScheme : SecurityScheme :=
  {| scheme_ID := "QueryKey"; scheme_Type := "apiKey"; scheme_In := "query";
     scheme_Name := "api_key"; scheme_Scheme := "";
     scheme_DefaultCredential := "secret" |}.

Definition queryKeyServer : McpProxyServer :=
  {| server_Name := "query-auth"; securitySchemes := {["QueryKey" := queryKeyScheme]} |}.

Definition queryKeyContext : ProxyAuthContext :=
  {| pac_Headers := [("Content-Type", "application/json")];
     pac_ParsedURL := Some {| url_Scheme := "http"; url_Host := "backend-mcp.example.com";
                              url_EscapedPath := "/mcp"; url_RawQuery := "";
                              url_Fragment := "" |};
     pac_RequestBody := "";
     pac_PassthroughCredential := "" |}.



(** A request in flight to the example backend, nothing stored yet. *)
Definition exampleState : State :=
  {| ctx := ∅; handler := NewMcpProtocolHandler exampleBackendURL 5000 |}.

(** A scheme that carries an API key in a header and has no default
    credential; a tool call that names it, without passthrough credential. *)
Definition headerKeyScheme : SecurityScheme :=
  {| scheme_ID := "BackendApiKey"; scheme_Type := "apiKey"; scheme_In := "header";
     scheme_Name := "X-API-Key"; scheme_Scheme := "";
     scheme_DefaultCredential := "" |}.

Definition headerKeyServer : McpProxyServer :=
  {| server_Name := "proxy-auth-test-server";
     securitySchemes := {["BackendApiKey" := headerKeyScheme]} |}.


Definition productArguments : gmap string val := {["product_id" := VString "12345"]}.


(** The state in which the callback of the initialized notification runs
    for a pending [tools/list] without cursor. *)
Definition pendingListState : State :=
  {| ctx := <[CtxMcpProxyOperation := COperation OpToolsList]> ∅;
     handler := NewMcpProtocolHandler exampleBackendURL 5000 |}.



(** The scheme and the context of the repository's test of default
    credentials: an API key in the header "X-Service-Key". *)
Definition defaultKeyScheme : SecurityScheme :=
  {| scheme_ID := "DefaultAuth"; scheme_Type := "apiKey"; scheme_In := "header";
     scheme_Name := "X-Service-Key"; scheme_Scheme := "";
     scheme_DefaultCredential := "default-service-key" |}.

Definition defaultKeyServer : McpProxyServer :=
  {| server_Name := "default-creds-test";
     securitySchemes := {["DefaultAuth" := defaultKeyScheme]} |}.

Definition defaultKeyContext : ProxyAuthContext :=
  {| pac_Headers := [("Content-Type", "application/json")];
     pac_ParsedURL := None;
     pac_RequestBody := "";
     pac_PassthroughCredential := "" |}.

(** The request context of the allow-list example of the specification:
    configured set {A, B}, header value "A,C". *)
Definition allowListContext : gmap string CtxVal :=
  <["mcp_proxy_allow_tools" := CAllowTools {["A"; "B"]}]>
  (<["mcp_proxy_allow_tools_header" := CString "A,C"]> ∅).

Definition namedTool (name : string) : val := VMap {["name" := VString name]}.

Definition threeTools : list val := [namedTool "A"; namedTool "B"; namedTool "C"].

Definition threeToolsResult : gmap string val :=
  <["tools" := VArray threeTools]> (<["nextCursor" := VString "n1"]> ∅).

(** A result whose "tools" member is not an array. *)
Definition noToolsArrayResult : gmap string val :=
  <["tools" := VString "none"]> (<["nextCursor" := VString "n1"]> ∅).

(** A client request with a string id. *)
Definition clientToolsList : json :=
  JObject (<["jsonrpc" := JString "2.0"]>
          (<["id" := JString "abc"]>
          (<["method" := JString "tools/list"]> ∅))).


From Stdlib Require DecimalString DecimalZ DecimalPos.

(** ** Configuration of proxy tools (proxy_server.go) *)

(** [ToolArg]: [Default] is an [interface{}], nil when the configuration
    gives none. *)
Record ToolArg : Type := {
  arg_Name : string;
  arg_Description : string;
  arg_Type : string;
  arg_Required : bool;
  arg_Default : val;
  arg_Enum : list val;
}.

(** [McpProxyToolConfig]; [tool_SecurityID] is
    [RequestTemplate.Security.ID]. *)
Record McpProxyToolConfig : Type := {
  tool_Name : string;
  tool_Description : string;
  tool_Args : list ToolArg;
  tool_SecurityID : string;
}.

(** [ValidateSecurityScheme(scheme)]. *)
Definition ValidateSecurityScheme (scheme : SecurityScheme) : option GoError :=
  if String.eqb (scheme_ID scheme) "" then
    Some (Errorf "security scheme ID is required" [])
  else if negb (String.eqb (scheme_Type scheme) "apiKey")
          && negb (String.eqb (scheme_Type scheme) "http") then
    Some (Errorf "invalid security scheme type: %s" [scheme_Type scheme])
  else
    match
      if String.eqb (scheme_Type scheme) "apiKey" then
        if String.eqb (scheme_Name scheme) "" then
          Some (Errorf "security scheme name is required for apiKey type" [])
        else if negb (String.eqb (scheme_In scheme) "header")
                && negb (String.eqb (scheme_In scheme) "query")
                && negb (String.eqb (scheme_In scheme) "cookie") then
          Some (Errorf "invalid security scheme location: %s" [scheme_In scheme])
        else None
      else None
    with
    | Some err => Some err
    | None =>
        if String.eqb (scheme_Type scheme) "http" then
          if String.eqb (scheme_Scheme scheme) "" then
            Some (Errorf "security scheme scheme is required for http type" [])
          else None
        else None
    end.

(** The slice [validTypes] of [ValidateToolConfig]. *)
Definition validTypes : list string :=
  ["string"; "number"; "integer"; "boolean"; "array"; "object"].

(** The loop of [ValidateToolConfig] over [config.Args]; [argNames] is the
    map of the names seen so far. *)
Fixpoint validateArgs (args : list ToolArg) (argNames : gmap string bool)
    : option GoError :=
  match args with
  | [] => None
  | arg :: rest =>
      if String.eqb (arg_Name arg) "" then
        Some (Errorf "argument name is required" [])
      else if default false (argNames !! arg_Name arg) then
        Some (Errorf "duplicate argument name: %s" [arg_Name arg])
      else if String.eqb (arg_Description arg) "" then
        Some (Errorf "argument description is required for %s" [arg_Name arg])
      else if negb (existsb (String.eqb (arg_Type arg)) validTypes) then
        Some (Errorf "invalid argument type %s for %s" [arg_Type arg; arg_Name arg])
      else validateArgs rest (<[arg_Name arg := true]> argNames)
  end.

(** [ValidateToolConfig(config)]. *)
Definition ValidateToolConfig (config : McpProxyToolConfig) : option GoError :=
  if String.eqb (tool_Name config) "" then
    Some (Errorf "tool name is required" [])
  else if String.eqb (tool_Description config) "" then
    Some (Errorf "tool description is required" [])
  else validateArgs (tool_Args config) ∅.

(** A [[]string] held in an [interface{}], carried by the value that
    [json.Marshal] renders alike: the nil slice is rendered as [null], any
    other slice as the array of its strings. *)
Definition strings_val (l : option (list string)) : val :=
  match l with
  | None => VNil
  | Some l => VArray (VString <$> l)
  end.

(** [append(required, name)] on a slice that may be nil. *)
Definition append_string (required : option (list string)) (name : string)
    : option (list string) :=
  Some (default [] required ++ [name])%list.

(** The map [argSchema] that [InputSchema] builds for one argument. *)
Definition argSchema (arg : ToolArg) : gmap string val :=
  let argSchema : gmap string val :=
    <["type" := VString (arg_Type arg)]>
    (<["description" := VString (arg_Description arg)]> ∅) in
  let argSchema :=
    match arg_Default arg with
    | VNil => argSchema
    | d => <["default" := d]> argSchema
    end in
  if (0 <? List.length (arg_Enum arg))%nat
  then <["enum" := VArray (arg_Enum arg)]> argSchema
  else argSchema.

(** The loop of [InputSchema] over [t.toolConfig.Args]: the map
    [properties] and the slice [required] after it. *)
Definition schemaLoop (args : list ToolArg)
    : gmap string val * option (list string) :=
  fold_left
    (λ (acc : gmap string val * option (list string)) arg,
       (<[arg_Name arg := VMap (argSchema arg)]> (fst acc),
        if arg_Required arg then append_string (snd acc) (arg_Name arg) else snd acc))
    args (∅, None).

(** [t.InputSchema()] of a proxy tool with configuration [toolConfig]. *)
Definition InputSchema (toolConfig : McpProxyToolConfig) : gmap string val :=
  let schema : gmap string val :=
    <["type" := VString "object"]>
    (<["properties" := VMap ∅]>
    (<["required" := strings_val (Some [])]> ∅)) in
  let '(properties, required) := schemaLoop (tool_Args toolConfig) in
  <["required" := strings_val required]>
  (<["properties" := VMap properties]> schema).

(** The names of the required arguments, in the order of the
    configuration. *)
Definition requiredNames (args : list ToolArg) : list string :=
  arg_Name <$> filter (λ arg, arg_Required arg = true) args.

(** The tool configuration of the repository's test of [AddProxyTool]. *)
Definition testToolConfig : McpProxyToolConfig :=
  {| tool_Name := "test-tool";
     tool_Description := "Test tool for proxy";
     tool_Args := [ {| arg_Name := "input"; arg_Description := "Test input";
                       arg_Type := "string"; arg_Required := true;
                       arg_Default := VNil; arg_Enum := [] |} ];
     tool_SecurityID := "" |}.

(** ** Inputs for the authentication examples *)

(** A scheme that the validation accepts and that carries an API key in a
    cookie, a server that knows it, and a request that brings a
    credential. *)
Definition cookieKeyScheme : SecurityScheme :=
  {| scheme_ID := "CookieKey"; scheme_Type := "apiKey"; scheme_In := "cookie";
     scheme_Name := "session"; scheme_Scheme := "";
     scheme_DefaultCredential := "" |}.

Definition cookieKeyServer : McpProxyServer :=
  {| server_Name := "cookie-auth"; securitySchemes := {["CookieKey" := cookieKeyScheme]} |}.

Definition cookieKeyContext : ProxyAuthContext :=
  {| pac_Headers := [("Content-Type", "application/json")];
     pac_ParsedURL := None;
     pac_RequestBody := "";
     pac_PassthroughCredential := "client-key" |}.

(** A client request that brings its own key for [headerKeyScheme]. *)
Definition clientKeyContext : ProxyAuthContext :=
  {| pac_Headers := [("Content-Type", "application/json"); ("X-API-Key", "client-key")];
     pac_ParsedURL := None;
     pac_RequestBody := "";
     pac_PassthroughCredential := "" |}.

(** ** Runs of the protocol handler *)

(** The effects that send a frame to the client. *)
Definition is_reply (e : Effect) : bool :=
  match e with
  | EResponseError _ _ _ | EResponseSuccess _ _ => true
  | _ => false
  end.

(** The frames with which the handler ends a request: a success, or an
    error that carries the code of an internal error. *)
Definition final_frame (e : Effect) : Prop :=
  match e with
  | EResponseSuccess _ _ => True
  | EResponseError _ code _ => code = ErrInternalError
  | _ => False
  end.

(** An effect that is no error reply with another code than that of an
    internal error. *)
Definition error_is_internal (e : Effect) : Prop :=
  match e with
  | EResponseError _ code _ => code = ErrInternalError
  | _ => True
  end.

(** The calls of [proxywasm.ResumeHttpRequest]. *)
Definition is_resume (e : Effect) : bool :=
  match e with
  | EResume => true
  | _ => false
  end.

(** The body and the callback of an outbound call. *)
Definition callOf (e : Effect) : option (json * Callback) :=
  match e with
  | EPost _ _ body _ cb | ERouteCall _ _ _ body cb => Some (body, cb)
  | _ => None
  end.

(** The bodies of the requests that a trace sends to the backend, in
    order. *)
Definition requestBodies (trace : list Effect) : list json :=
  fst <$> omap callOf trace.

(** How many backend answers a callback is away from the reply to the
    client, at most: the answer to initialize is followed by the
    notification and the tool request. *)
Definition stepsLeft (cb : Callback) : nat :=
  match cb with
  | CbInitialize _ => 3
  | CbInitialized => 2
  | CbToolsList | CbToolsCall _ => 1
  end.

Definition absent_or_string (v : option CtxVal) : bool :=
  match v with
  | None | Some (CString _) => true
  | Some _ => false
  end.

(** The request context before a request is forwarded: what the handler
    will read as a string is one, when it is there at all. *)
Definition ctx_fresh (c : gmap string CtxVal) : bool :=
  absent_or_string (c !! "mcp_proxy_cursor")
  && absent_or_string (c !! CtxMcpProxySessionID)
  && absent_or_string (c !! "mcp_proxy_allow_tools_header").

(** The shape of the request context between [ForwardToolsList] or
    [ForwardToolsCall] and the reply: an operation is stored, with its
    dynamic type, together with the tool name and arguments when it is
    [tools/call]; the cursor, the session id and the allow-list header are
    strings when they are stored. *)
Definition ctx_ready (c : gmap string CtxVal) : bool :=
  absent_or_string (c !! "mcp_proxy_cursor")
  && absent_or_string (c !! CtxMcpProxySessionID)
  && absent_or_string (c !! "mcp_proxy_allow_tools_header")
  && match c !! CtxMcpProxyOperation with
     | Some (COperation op) =>
         if String.eqb op OpToolsCall then
           match c !! CtxMcpProxyToolName, c !! CtxMcpProxyToolArgs with
           | Some (CString _), Some (CArguments _) => true
           | _, _ => false
           end
         else true
     | _ => false
     end.

(** The request that the context holds for the time after the handshake,
    with the callback that will receive its answer. *)
Definition pendingRequest (c : gmap string CtxVal) : option (json * Callback) :=
  match c !! CtxMcpProxyOperation with
  | Some (COperation op) =>
      if String.eqb op OpToolsList then
        match c !! "mcp_proxy_cursor" with
        | None => Some (Marshal (VMap (createToolsListRequest None)), CbToolsList)
        | Some (CString cursor) =>
            Some (Marshal (VMap (createToolsListRequest (Some cursor))), CbToolsList)
        | Some _ => None
        end
      else if String.eqb op OpToolsCall then
        match c !! CtxMcpProxyToolName, c !! CtxMcpProxyToolArgs with
        | Some (CString toolName), Some (CArguments arguments) =>
            Some (Marshal (VMap (createToolsCallRequest toolName arguments)),
                  CbToolsCall toolName)
        | _, _ => None
        end
      else None
  | _ => None
  end.

(** The request a callback sends when it sends one. *)
Definition nextCall (cb : Callback) (c : gmap string CtxVal) : option (json * Callback) :=
  match cb with
  | CbInitialize _ => Some (Marshal (VMap initializedNotification), CbInitialized)
  | CbInitialized => pendingRequest c
  | CbToolsList | CbToolsCall _ => None
  end.

(** The requests that can follow the answer that a callback waits for. *)
Definition requestsAfter (cb : Callback) (c : gmap string CtxVal) : list json :=
  match nextCall cb c with
  | None => []
  | Some (body, cb') =>
      body :: match nextCall cb' c with
              | None => []
              | Some (body', _) => [body']
              end
  end.

(** The end of a trace: the deferred resumption, when there is one. *)
Definition ends (resumed : bool) : list Effect :=
  if resumed then [EResume] else [].

(** A trace in which nothing follows the reply to the client but the
    resumption. *)
Definition reply_last (trace : list Effect) : Prop :=
  List.filter is_reply trace = [] ∨
  ∃ before e resumed,
    trace = (before ++ e :: ends resumed)%list ∧ is_reply e = true ∧
    List.filter is_reply before = [].

Section Runs.
Context `{Env}.

(** A trace that answers the client: log lines, the reply, the end. *)
Definition reply_shape (resumed : bool) (trace : list Effect) : Prop :=
  ∃ pre e,
    trace = (pre ++ e :: ends resumed)%list ∧ Forall is_log pre ∧ final_frame e.

(** A trace that sends a request: log lines, the call, nothing more when
    the host accepts the call and a log line and a reply when it refuses,
    the end. *)
Definition call_shape (resumed : bool) (body : json) (cb' : Callback)
    (trace : list Effect) : Prop :=
  ∃ pre call tail,
    trace = (pre ++ call :: tail ++ ends resumed)%list ∧ Forall is_log pre ∧
    callOf call = Some (body, cb') ∧
    match registered call with
    | Some _ => tail = []
    | None => ∃ l e, tail = [l; e] ∧ is_log l ∧ final_frame e
    end.

(** The host accepts every outbound call. *)
Definition host_accepts : Prop :=
  (∀ url headers body timeout, client_Post url headers body timeout = None) ∧
  (∀ method url headers body, ctx_RouteCall method url headers body = None).

(** The run of a forwarded request: the entry point ([ForwardToolsList]
    or [ForwardToolsCall]), then the backend responses, handed to the
    callbacks that the accepted calls registered; the result is the error
    that the entry point returned, the last state and all effects in
    order. *)
Definition forwardRun (entry : M (option GoError)) (responses : list BackendResponse)
    (st : State) : option (option GoError * State * list Effect) :=
  match entry st with
  | None => None
  | Some (err, st1, trace) =>
      match serve responses (omap registered trace) st1 with
      | None => None
      | Some (st2, trace') => Some (err, st2, (trace ++ trace')%list)
      end
  end.

(** The state in which the "tools/list" handler of
    [CreateMcpProxyMethodHandlers] forwards a request whose context held
    nothing before: the allow-list, the server and the allow-list header
    are stored, the protocol handler is fresh. *)
Definition toolsListState (server : McpProxyServer) (allowTools : gset string)
    (mcpServerURL : string) (configTimeout : Z) (allowToolsHeaderStr : string) : State :=
  {| ctx := <["mcp_proxy_allow_tools" := CAllowTools allowTools]>
            (<["mcp_proxy_server" := CServer server]>
            (<["mcp_proxy_allow_tools_header" := CString allowToolsHeaderStr]> ∅));
     handler := NewMcpProtocolHandler mcpServerURL configTimeout |}.

(** The run of one proxied "tools/call" request over StreamableHTTP on a
    request context that holds nothing yet: [ForwardToolsCall] on a fresh
    handler for the configured URL and timeout, as [McpProxyTool.Call]
    builds it, then the backend responses; the result is the error that
    [Call] returns and the list of frames the client receives. *)
Definition proxyToolsCall (id : json) (mcpServerURL : string) (configTimeout : Z)
    (authInfo : option ProxyAuthInfo) (toolName : string) (arguments : gmap string val)
    (responses : list BackendResponse) : option (option GoError * list json) :=
  match forwardRun (ForwardToolsCall toolName arguments authInfo) responses
          {| ctx := ∅; handler := NewMcpProtocolHandler mcpServerURL configTimeout |} with
  | None => None
  | Some (err, _, trace) => Some (err, clientFrames id trace)
  end.

End Runs.

(** ** Numbers that survive the decoding *)


(** ** The session manager (proxy_tool.go, [McpSessionManagerImpl]) *)

(** Instants of the clock and durations are counted in nanoseconds.  A
    [time.Duration] is an [int64], and [t.Sub(u)] saturates at its
    bounds. *)
Definition minDuration : Z := - 2 ^ 63.
Definition maxDuration : Z := 2 ^ 63 - 1.

Definition Sub (t u : Z) : Z := Z.max minDuration (Z.min maxDuration (t - u)).

(** [McpSession]. *)
Record McpSession : Type := {
  session_ID : string;
  session_BackendURL : string;
  session_CreatedAt : Z;
  session_LastUsed : Z;
}.

(** [fmt.Sprintf("mcp-session-%d", nanos)]. *)
Definition sessionIDOf (nanos : Z) : string :=
  "mcp-session-" ++ DecimalString.NilZero.string_of_int (Z.to_int nanos).

(** [m.CreateSession(backendURL)] on the map [m.sessions]; [unixNano],
    [createdAt] and [lastUsed] are the three readings of [time.Now()], in
    the order of the calls.  The result is the map afterwards and the id
    returned (the error returned is always nil; the log line is left
    out). *)
Definition CreateSession (sessions : gmap string McpSession) (backendURL : string)
    (unixNano createdAt lastUsed : Z) : gmap string McpSession * string :=
  let sessionID := sessionIDOf unixNano in
  let session :=
    {| session_ID := sessionID; session_BackendURL := backendURL;
       session_CreatedAt := createdAt; session_LastUsed := lastUsed |} in
  (<[sessionID := session]> sessions, sessionID).

(** [m.GetSession(sessionID)] at the instant [now]: the session is found
    behind a pointer, so the new [LastUsed] is in the map as well. *)
Definition GetSession (sessions : gmap string McpSession) (sessionID : string) (now : Z)
    : gmap string McpSession * option McpSession :=
  match sessions !! sessionID with
  | Some session =>
      let session :=
        {| session_ID := session_ID session;
           session_BackendURL := session_BackendURL session;
           session_CreatedAt := session_CreatedAt session;
           session_LastUsed := now |} in
      (<[sessionID := session]> sessions, Some session)
  | None => (sessions, None)
  end.

(** [m.CleanupSession(sessionID)]. *)
Definition CleanupSession (sessions : gmap string McpSession) (sessionID : string)
    : gmap string McpSession :=
  match sessions !! sessionID with
  | Some _ => delete sessionID sessions
  | None => sessions
  end.

(** [m.CleanupExpiredSessions(maxAge)] at the instant [now]: the loop
    ranges over the map and deletes the entry it is at, so that every
    entry is visited once, in an order that is not specified. *)
Definition CleanupExpiredSessions (sessions : gmap string McpSession) (maxAge now : Z)
    : gmap string McpSession :=
  map_fold
    (λ sessionID session (remaining : gmap string McpSession),
       if maxAge <? Sub now (session_LastUsed session)
       then delete sessionID remaining
       else remaining)
    sessions sessions.

(** ** The log package (pkg/log/log.go) *)

(** The methods of the interface [Log] that the package forwards to. *)
Inductive LogMethod : Type :=
| MTrace | MTracef | MDebug | MDebugf | MInfo | MInfof
| MWarn | MWarnf | MError | MErrorf | MCritical | MCriticalf.

(** The four functions for sensitive lines, each with the method it
    forwards to: [UnsafeInfo], [UnsafeInfof], [UnsafeDebug],
    [UnsafeDebugf]. *)
Inductive UnsafeFunction : Type :=
| UnsafeInfo | UnsafeInfof | UnsafeDebug | UnsafeDebugf.

Definition unsafeMethod (f : UnsafeFunction) : LogMethod :=
  match f with
  | UnsafeInfo => MInfo
  | UnsafeInfof => MInfof
  | UnsafeDebug => MDebug
  | UnsafeDebugf => MDebugf
  end.

(** The package variables: [pluginLog], a logger known by a number or the
    nil interface, and [safeLogEnabled]. *)
Record LogVars : Type := {
  pluginLog : option nat;
  safeLogEnabled : bool;
}.

(** The zero values of the package variables. *)
Definition initialLogVars : LogVars :=
  {| pluginLog := None; safeLogEnabled := false |}.

(** A call of a function of the package; the text stands for the message
    or for the format with its operands. *)
Inductive LogCall : Type :=
| CallSetPluginLog (logger : option nat)
| CallSetSafeLogEnabled (enabled : bool)
| CallLog (method : LogMethod) (text : string)
| CallUnsafe (function : UnsafeFunction) (text : string).

(** A line as a logger receives it. *)
Record LogLine : Type := {
  line_logger : nat;
  line_method : LogMethod;
  line_text : string;
}.

(** [pluginLog.<method>(text)]: a method call on the nil interface
    panics. *)
Definition forward (vars : LogVars) (method : LogMethod) (text : string)
    : option (LogVars * list LogLine) :=
  match pluginLog vars with
  | Some logger =>
      Some (vars, [ {| line_logger := logger; line_method := method; line_text := text |} ])
  | None => None
  end.

(** One call: the variables afterwards and the lines handed to the
    logger, or the panic. *)
Definition logCall (vars : LogVars) (call : LogCall) : option (LogVars * list LogLine) :=
  match call with
  | CallSetPluginLog logger =>
      Some ({| pluginLog := logger; safeLogEnabled := safeLogEnabled vars |}, [])
  | CallSetSafeLogEnabled enabled =>
      Some ({| pluginLog := pluginLog vars; safeLogEnabled := enabled |}, [])
  | CallLog method text => forward vars method text
  | CallUnsafe function text =>
      if negb (safeLogEnabled vars)
      then forward vars (unsafeMethod function) text
      else Some (vars, [])
  end.

(** A sequence of calls. *)
Fixpoint logCalls (vars : LogVars) (calls : list LogCall)
    : option (LogVars * list LogLine) :=
  match calls with
  | [] => Some (vars, [])
  | call :: calls' =>
      match logCall vars call with
      | None => None
      | Some (vars', lines) =>
          match logCalls vars' calls' with
          | None => None
          | Some (vars'', lines') => Some (vars'', (lines ++ lines')%list)
          end
      end
  end.

(** The lines of the calls that are not for sensitive text. *)
Definition plainLines (logger : nat) (calls : list LogCall) : list LogLine :=
  omap (λ call,
          match call with
          | CallLog method text =>
              Some {| line_logger := logger; line_method := method; line_text := text |}
          | _ => None
          end) calls.

(** The calls that neither set a variable nor log unconditionally. *)
Definition is_unsafe_call (call : LogCall) : bool :=
  match call with
  | CallUnsafe _ _ => true
  | _ => false
  end.

(** The calls that leave the package variables alone. *)
Definition is_logging_call (call : LogCall) : bool :=
  match call with
  | CallLog _ _ | CallUnsafe _ _ => true
  | _ => false
  end.

(** ** The end-to-end test of tools/call (TestMcpProxyServerToolsCall) *)

(** The request of the client, with id 3. *)
Definition testToolsCallRequest : json :=
  JObject (<["jsonrpc" := JString "2.0"]>
          (<["id" := JNumber 3]>
          (<["method" := JString "tools/call"]>
          (<["params" := JObject (<["name" := JString "get_product"]>
                                 (<["arguments" := JObject {["product_id" := JString "12345"]}]>
                                  ∅))]> ∅)))).

(** The three answers of the backend: to initialize (id 1), to the
    notification, and to the tools/call request (id 2); the text of the
    result is cut to its first line. *)
Definition testInitializeResponse : BackendResponse :=
  {| resp_status := 200;
     resp_headers := [("content-type", "application/json");
                      ("mcp-session-id", "test-session-456")];
     resp_body :=
       Some (JObject (<["jsonrpc" := JString "2.0"]>
                     (<["id" := JNumber 1]>
                     (<["result" := JObject (
                          <["protocolVersion" := JString "2025-03-26"]>
                          (<["capabilities" := JObject {["tools" := JObject ∅]}]>
                          (<["serverInfo" := JObject (
                               <["name" := JString "BackendMCPServer"]>
                               (<["version" := JString "1.0.0"]> ∅))]> ∅)))]> ∅)))) |}.

Definition testNotificationResponse : BackendResponse :=
  {| resp_status := 200;
     resp_headers := [("content-type", "application/json");
                      ("mcp-session-id", "test-session-456")];
     resp_body := Some (JObject {["jsonrpc" := JString "2.0"]}) |}.

Definition testToolsCallResult : gmap string json :=
  <["content" := JArray [JObject (<["type" := JString "text"]>
                                 (<["text" := JString "Product ID: 12345"]> ∅))]]>
  (<["isError" := JBool false]> ∅).

Definition testToolsCallResponse : BackendResponse :=
  {| resp_status := 200;
     resp_headers := [("content-type", "application/json")];
     resp_body :=
       Some (JObject (<["jsonrpc" := JString "2.0"]>
                     (<["id" := JNumber 2]>
                     (<["result" := JObject testToolsCallResult]> ∅)))) |}.

(** * Properties *)

(** ** Strings *)

Lemma Split_nonempty sep s : Split sep s ≠ [].
Proof. destruct s as [|a s]; simpl; [done|]. destruct (Ascii.eqb a sep); [done|]. by destruct (Split sep s). Qed.

Lemma Join_cons sep p q rest :
  Join sep (p :: q :: rest) = (p ++ String sep (Join sep (q :: rest)))%string.
Proof. done. Qed.

(** Splitting loses nothing: joining the pieces with the separator gives the
    string back. *)
Lemma Join_Split sep s : Join sep (Split sep s) = s.
Proof.
  induction s as [|a s IH]; simpl; [done|].
  pose proof (Split_nonempty sep s) as Hs.
  destruct (Split sep s) as [|q rest] eqn:E; [done|].
  destruct (Ascii.eqb_spec a sep) as [->|Hne].
  - rewrite Join_cons, IH. done.
  - destruct rest as [|r rest].
    + simpl in *. by rewrite IH.
    + rewrite Join_cons in IH. rewrite Join_cons, <-IH. done.
Qed.

(** No piece contains the separator. *)
Lemma Split_no_sep sep s : Forall (λ p, contains_byte sep p = false) (Split sep s).
Proof.
  induction s as [|a s IH]; simpl.
  - by constructor.
  - destruct (Ascii.eqb_spec a sep) as [->|Hne].
    + by constructor.
    + destruct (Split sep s) as [|q rest]; [constructor; [|done]|].
      * simpl. by apply Ascii.eqb_neq in Hne as ->.
      * inversion IH; subst. constructor; [|done].
        simpl. by apply Ascii.eqb_neq in Hne as ->.
Qed.

(** ** The allow-list filter *)

Section AllowToolsFacts.
Context `{Env}.

Lemma elem_of_allowToolsFromHeader_aux (pieces : list string) (acc : gset string) name :
  name ∈ fold_left
    (λ (acc : gset string) (tool : string),
       let trimmedTool := TrimSpace tool in
       if String.eqb trimmedTool "" then acc else {[trimmedTool]} ∪ acc)
    pieces acc
  ↔ name ∈ acc ∨ (name ≠ "" ∧ ∃ piece, piece ∈ pieces ∧ TrimSpace piece = name).
Proof.
  revert acc. induction pieces as [|p pieces IH]; intros acc; simpl.
  - split; [by left|]. intros [?|(_ & ? & []%elem_of_nil & _)]; done.
  - rewrite IH. destruct (String.eqb_spec (TrimSpace p) "") as [Hp|Hp].
    + split.
      * intros [?|(? & q & ? & ?)]; [by left|right]. split; [done|].
        exists q. split; [by right|done].
      * intros [?|(? & q & [->|?]%elem_of_cons & ?)]; [by left|congruence|].
        right. split; [done|]. by exists q.
    + rewrite elem_of_union, elem_of_singleton. split.
      * intros [[->|?]|(? & q & ? & ?)].
        -- right. split; [done|]. exists p. split; [by left|done].
        -- by left.
        -- right. split; [done|]. exists q. split; [by right|done].
      * intros [?|(? & q & [->|?]%elem_of_cons & ?)].
        -- left. by right.
        -- left. by left.
        -- right. split; [done|]. by exists q.
Qed.

(** The header set: the non-empty trimmed pieces of the header value. *)
Lemma elem_of_allowToolsFromHeader headerStr name :
  name ∈ allowToolsFromHeader headerStr
  ↔ name ≠ "" ∧ ∃ piece, piece ∈ Split "," headerStr ∧ TrimSpace piece = name.
Proof.
  unfold allowToolsFromHeader. rewrite elem_of_allowToolsFromHeader_aux.
  split; [intros [[]%not_elem_of_empty|?]; done | by right].
Qed.

Lemma gset_size_zero (s : gset string) : (size s =? 0)%nat = true ↔ s = ∅.
Proof. rewrite Nat.eqb_eq, size_empty_iff. apply leibniz_equiv_iff. Qed.

Lemma gset_size_pos (s : gset string) : (0 <? size s)%nat = true ↔ s ≠ ∅.
Proof.
  rewrite Nat.ltb_lt, <-gset_size_zero, Nat.eqb_eq. lia.
Qed.

(** The loop body keeps exactly the tools that the claim describes. *)
Lemma tool_kept_spec cfg hdr tool :
  tool_kept cfg hdr tool = true ↔ in_every_nonempty_set cfg hdr tool.
Proof.
  unfold tool_kept, in_every_nonempty_set. split.
  - destruct tool as [| | | | |?|toolMap]; try done.
    destruct (toolMap !! "name") as [[| | | |name| |]|] eqn:Hn; try done.
    intros Hk. exists toolMap, name. split; [done|]. split; [done|].
    destruct (0 <? size cfg)%nat eqn:Hc; destruct (0 <? size hdr)%nat eqn:Hh;
      simpl in Hk;
      repeat match type of Hk with
      | context [bool_decide ?P] => destruct (bool_decide_reflect P); simpl in Hk
      end; try done;
      (split; intros Hne;
        [ try done; apply gset_size_pos in Hne; congruence
        | try done; apply gset_size_pos in Hne; congruence ]).
  - intros (toolMap & name & -> & -> & Hc & Hh).
    destruct (0 <? size cfg)%nat eqn:Ec; simpl.
    + apply gset_size_pos in Ec. rewrite bool_decide_true by auto. simpl.
      destruct (0 <? size hdr)%nat eqn:Eh; simpl; [|done].
      apply gset_size_pos in Eh. by rewrite bool_decide_true by auto.
    + destruct (0 <? size hdr)%nat eqn:Eh; simpl; [|done].
      apply gset_size_pos in Eh. by rewrite bool_decide_true by auto.
Qed.

Lemma filteredTools_aux cfg hdr toolsArray acc :
  fold_left
    (λ acc tool, if tool_kept cfg hdr tool then (acc ++ [tool])%list else acc)
    toolsArray acc
  = (acc ++ filter (λ t, tool_kept cfg hdr t = true) toolsArray)%list.
Proof.
  revert acc. induction toolsArray as [|t l IH]; intros acc; simpl.
  - by rewrite app_nil_r.
  - rewrite IH, filter_cons. destruct (tool_kept cfg hdr t) eqn:E.
    + rewrite decide_True by done. by rewrite <-app_assoc.
    + rewrite decide_False by congruence. done.
Qed.

(** The [append] loop is a filter: order and multiplicity are those of the
    input array. *)
Lemma filteredTools_filter cfg hdr toolsArray :
  filteredTools cfg hdr toolsArray
  = filter (λ t, tool_kept cfg hdr t = true) toolsArray.
Proof. unfold filteredTools. by rewrite filteredTools_aux. Qed.

(** The copy loop copies. *)
Lemma copy_map_id (resultMap : gmap string val) : copy_map resultMap = resultMap.
Proof.
  unfold copy_map.
  apply (map_fold_weak_ind (λ r m, r = m)); [done|].
  intros i x m r _ ->. done.
Qed.

End AllowToolsFacts.

Section AllowToolsClaims.
Context `{Env}.

(** The test of the claim's reading decides it. *)
Lemma retained_spec (cfg hdr : gset string) (tool : val) :
  retained cfg hdr tool = true ↔ in_every_nonempty_set cfg hdr tool.
Proof.
  unfold retained, in_every_nonempty_set. split.
  - destruct tool as [| | | | |?|toolMap]; try done.
    destruct (toolMap !! "name") as [[| | | |name| |]|] eqn:Hn; try done.
    intros Hk%bool_decide_eq_true. by exists toolMap, name.
  - intros (toolMap & name & -> & -> & Hk). by apply bool_decide_eq_true.
Qed.

(** The tools that the loop appends are the sublist of the tools array
    that passes the test, each as often as it occurs there. *)
Lemma filter_retained (cfg hdr : gset string) (toolsArray : list val) :
  filter (λ t, tool_kept cfg hdr t = true) toolsArray
  = List.filter (retained cfg hdr) toolsArray.
Proof.
  induction toolsArray as [|tool rest IH]; [done|].
  rewrite filter_cons. simpl. destruct (retained cfg hdr tool) eqn:Er.
  - apply retained_spec, tool_kept_spec in Er. by rewrite decide_True, IH by done.
  - rewrite decide_False; [done|].
    intros Hk%tool_kept_spec%retained_spec. congruence.
Qed.

(** C2. With the static config set that is stored in the context under
    "mcp_proxy_allow_tools" (the empty set when nothing is stored) and the
    header allow-set parsed from the stored header value (split on commas,
    each piece trimmed, empty pieces dropped): when both sets are empty the
    filter returns its input; otherwise, on a result with a tools array, it
    returns the input with the key "tools" replaced by the sublist of the
    tools array that holds exactly the tools whose name is in every
    non-empty allow-set, in their original order and each as often as it
    occurs, every other key being left as it was. *)
Theorem allow_list_filter_correct (ctx : gmap string CtxVal)
    (resultMap : gmap string val) (configured : option (gset string))
    (headerStr : string) (toolsArray : list val) :
  ctx !! "mcp_proxy_allow_tools" = CAllowTools <$> configured →
  ctx !! "mcp_proxy_allow_tools_header" = Some (CString headerStr) →
  resultMap !! "tools" = Some (VArray toolsArray) →
  let cfg := default ∅ configured in
  let hdr := allowToolsFromHeader headerStr in
  (Join "," (Split "," headerStr) = headerStr ∧
   ∀ name, name ∈ hdr ↔
     name ≠ "" ∧ ∃ piece, piece ∈ Split "," headerStr ∧ TrimSpace piece = name) ∧
  (cfg = ∅ ∧ hdr = ∅ → applyAllowToolsFilter ctx resultMap = Some resultMap) ∧
  (¬ (cfg = ∅ ∧ hdr = ∅) →
   ∃ kept,
     applyAllowToolsFilter ctx resultMap
       = Some (<["tools" := VArray kept]> resultMap) ∧
     kept = List.filter (retained cfg hdr) toolsArray ∧
     (∀ tool, retained cfg hdr tool = true ↔ in_every_nonempty_set cfg hdr tool) ∧
     kept `sublist_of` toolsArray ∧
     (∀ tool, tool ∈ kept ↔ tool ∈ toolsArray ∧ in_every_nonempty_set cfg hdr tool) ∧
     (∀ k, k ≠ "tools" →
        (<["tools" := VArray kept]> resultMap) !! k = resultMap !! k)).
Proof.
  intros Hc Hh Ht cfg hdr.
  assert (allowToolsFromContext ctx = cfg) as Hcfg.
  { unfold allowToolsFromContext. rewrite Hc. by destruct configured. }
  split; [|split].
  - split; [apply Join_Split | apply elem_of_allowToolsFromHeader].
  - intros [Hc' He]. unfold applyAllowToolsFilter. rewrite Hh, Hcfg.
    fold hdr. rewrite Hc', He. done.
  - intros Hne. unfold applyAllowToolsFilter. rewrite Hh, Ht, Hcfg. fold hdr.
    destruct ((size cfg =? 0)%nat && (size hdr =? 0)%nat) eqn:E.
    { apply andb_true_iff in E as [?%gset_size_zero ?%gset_size_zero]. tauto. }
    exists (filteredTools cfg hdr toolsArray). rewrite copy_map_id.
    split; [done|]. rewrite filteredTools_filter.
    split; [apply filter_retained|]. split; [apply retained_spec|].
    split; [apply sublist_filter|]. split.
    + intros tool. rewrite list_elem_of_filter, tool_kept_spec. tauto.
    + intros k Hk. by rewrite lookup_insert_ne.
Qed.

(** C10. When the result has no "tools" key, or its value is not an array,
    the filter returns the result map itself, whatever the allow-sets
    are. *)
Theorem allow_list_filter_no_tools_array (ctx : gmap string CtxVal)
    (resultMap : gmap string val) (headerStr : string) :
  ctx !! "mcp_proxy_allow_tools_header" = Some (CString headerStr) →
  (resultMap !! "tools" = None ∨
   ∃ v, resultMap !! "tools" = Some v ∧ ∀ toolsArray, v ≠ VArray toolsArray) →
  applyAllowToolsFilter ctx resultMap = Some resultMap.
Proof.
  intros Hh Ht. unfold applyAllowToolsFilter. rewrite Hh.
  destruct (_ && _); [done|].
  destruct Ht as [->|(v & -> & Hv)]; [done|].
  destruct v; try done. by destruct (Hv l).
Qed.

End AllowToolsClaims.

(** ** Documents and values *)

Lemma json_size_elem (l : list json) (x : json) :
  x ∈ l → (json_size x < json_size (JArray l))%nat.
Proof.
  simpl. induction 1 as [x l|x y l _ IH]; simpl; lia.
Qed.

Lemma json_size_entry (m : gmap string json) (k : string) (x : json) :
  m !! k = Some x → (json_size x < json_size (JObject m))%nat.
Proof.
  intros Hk. simpl.
  rewrite (map_fold_delete_L _ _ k x m); [lia| |done].
  intros; lia.
Qed.

(** Induction over documents: arrays and objects from their members. *)
Lemma json_ind' (P : json → Prop) :
  P JNull → (∀ b, P (JBool b)) → (∀ n, P (JNumber n)) → (∀ s, P (JString s)) →
  (∀ l, Forall P l → P (JArray l)) →
  (∀ m, map_Forall (λ _, P) m → P (JObject m)) →
  ∀ j, P j.
Proof.
  intros Hnull Hbool Hnum Hstr Harr Hobj j.
  induction (Nat.lt_wf_0_projected json_size j) as [j _ IH].
  destruct j as [| | | |l|m]; auto.
  - apply Harr, Forall_forall. intros x Hx. by apply IH, json_size_elem.
  - apply Hobj. intros k x Hk. by eapply IH, json_size_entry.
Qed.

(** Encoding a decoded document gives the document back. *)
Lemma Marshal_Unmarshal (j : json) : Marshal (Unmarshal j) = j.
Proof.
  induction j as [| | | |l IH|m IH] using json_ind'; simpl; try done.
  - f_equal. induction IH as [|x l Hx _ IHl]; simpl; [done|]. by rewrite Hx, IHl.
  - f_equal. apply map_eq. intros k. rewrite !lookup_fmap.
    destruct (m !! k) as [x|] eqn:Hk; simpl; [|done].
    f_equal. by eapply IH.
Qed.

(** Hence the round trip of [wrapBackendError], encode then decode, is the
    identity on every value that was decoded from a document. *)
Lemma Unmarshal_Marshal_decoded (j : json) :
  Unmarshal (Marshal (Unmarshal j)) = Unmarshal j.
Proof. by rewrite Marshal_Unmarshal. Qed.


Lemma Unmarshal_map_roundtrip (m : gmap string json) :
  Unmarshal_map (Some (Marshal (VMap (Unmarshal <$> m)))) = inr (Unmarshal <$> m).
Proof.
  change (VMap (Unmarshal <$> m)) with (Unmarshal (JObject m)).
  by rewrite Marshal_Unmarshal.
Qed.

(** ** The protocol handler *)

(** Unfolding of the handler monad. *)
Ltac unfold_M :=
  unfold mbind, mret, M_mbind, M_mret, M_bind, M_ret, log, emit,
    OnMCPResponseError, OnMCPResponseSuccess, GetContext, SetContext,
    get_handler, set_sessionID, panic in *.

Lemma iface_eq_int_decoded (j : json) (c : Z) : iface_eq_int (Unmarshal j) c = false.
Proof. by destruct j. Qed.

Section HandlerFacts.
Context `{Env}.

(** Whatever the backend puts under "error" in a 200 answer to initialize,
    the reply is the generic internal error: the decoded code is a
    [float64] and never equals the [int] constant. *)
Lemma initialize_error_is_internal (authInfo : option ProxyAuthInfo)
    (hdrs : list (string * string)) (response : gmap string json) (errorObj : json)
    (st : State) :
  response !! "error" = Some errorObj →
  onInitializeResponse authInfo 200 hdrs (Some (JObject response)) st
  = Some (tt, st,
          [ELog LError "Backend initialization error: %v";
           EResponseError (Errorf "backend initialization failed" [])
             ErrInternalError "mcp-proxy:initialize:backend_error"]).
Proof.
  intros He. unfold onInitializeResponse. simpl.
  rewrite lookup_fmap, He. simpl.
  assert (match Unmarshal errorObj with
          | VMap errorMap =>
              match errorMap !! "code" with
              | Some code => iface_eq_int code (-32602)
              | None => false
              end
          | _ => false
          end = false) as ->.
  { destruct errorObj as [| | | | |m]; try done. simpl.
    rewrite lookup_fmap. destruct (m !! "code"); simpl; [|done].
    apply iface_eq_int_decoded. }
  by unfold_M.
Qed.

End HandlerFacts.

(** C5 (evaluation of the code at the failing input). A 200 answer to
    initialize whose body carries [error.code = -32602] is answered to the
    client with the internal error -32603 and the text "backend
    initialization failed", not with -32602. *)
Theorem initialize_version_error_reported_internal `{Env}
    (authInfo : option ProxyAuthInfo) (st : State) (id : json) :
  ∃ trace,
    onInitializeResponse authInfo 200 [] (Some versionErrorResponse) st
      = Some (tt, st, trace) ∧
    clientFrames id trace = [buildError id (-32603) "backend initialization failed"].
Proof.
  eexists. split.
  - unfold versionErrorResponse. by eapply initialize_error_is_internal.
  - done.
Qed.

(** ** Authentication of the proxy server *)

(** With a credential at hand, a scheme of type apiKey located in the query
    leaves headers and URL as they were and reports no error. *)
Lemma ApplyAuthentication_query_noop (s : McpProxyServer) (ctx : ProxyAuthContext)
    (schemeID : string) (scheme : SecurityScheme) :
  GetSecurityScheme s schemeID = Some scheme →
  scheme_Type scheme = "apiKey" → scheme_In scheme = "query" →
  negb (String.eqb (pac_PassthroughCredential ctx) "")
    || negb (String.eqb (scheme_DefaultCredential scheme) "") = true →
  ApplyAuthentication s ctx schemeID = (None, ctx).
Proof.
  intros Hs Ht Hi Hc. unfold ApplyAuthentication. rewrite Hs, Ht, Hi. simpl.
  destruct (String.eqb (pac_PassthroughCredential ctx) "") eqn:Hp;
    destruct (String.eqb (scheme_DefaultCredential scheme) "") eqn:Hd;
    simpl in *; rewrite ?Hp, ?Hd; done.
Qed.

(** C9 (evaluation of the code at the failing input). For the scheme
    "QueryKey" (apiKey, in query, parameter "api_key", default credential
    "secret") [ApplyAuthentication] succeeds and returns the context it was
    given: the query string of the URL is still empty. *)
Theorem apiKey_in_query_not_applied :
  ApplyAuthentication queryKeyServer queryKeyContext "QueryKey" = (None, queryKeyContext) ∧
  url_RawQuery <$> pac_ParsedURL (snd (ApplyAuthentication queryKeyServer queryKeyContext "QueryKey"))
    = Some "".
Proof. split; vm_compute; reflexivity. Qed.

Section BackendIds.
Context `{Env}.




End BackendIds.

Lemma clientFrames_id `{Env} (id : json) (trace : list Effect) (frame : json) :
  frame ∈ clientFrames id trace → frameMember "id" frame = Some id.
Proof.
  unfold clientFrames. rewrite list_elem_of_omap. intros (e & _ & He).
  destruct e; simpl in He; try done; by inversion He.
Qed.



Section ToolsCall.
Context `{Env}.



End ToolsCall.



Section Execution.
Context `{Env}.

(** Authentication never fails the request: it yields a URL and headers,
    leaves the state alone and at most logs. *)
Lemma authenticate_total (authInfo : option ProxyAuthInfo) (errFmt okFmt : string)
    (headers : list (string * string)) (st : State) :
  ∃ url headers' pre,
    authenticate authInfo errFmt okFmt headers st = Some ((url, headers'), st, pre) ∧
    Forall is_log pre.
Proof.
  unfold authenticate. unfold_M.
  destruct authInfo as [a|]; simpl; [|by eauto 6].
  destruct (negb (String.eqb (SecuritySchemeID a) "")); [|by eauto 6].
  destruct (applyProxyAuthentication _ _ _ _ _) as [err|[url hs]]; simpl.
  - eexists _, _, _. split; [done|]. by repeat constructor.
  - eexists _, _, _. split; [done|]. by repeat constructor.
Qed.

Lemma authenticateFromContext_total (errFmt okFmt : string)
    (headers : list (string * string)) (st : State) :
  ∃ url headers' pre,
    authenticateFromContext errFmt okFmt headers st = Some ((url, headers'), st, pre) ∧
    Forall is_log pre.
Proof.
  unfold authenticateFromContext. unfold mbind, M_mbind, M_bind, GetContext.
  assert (∀ a, ∃ url headers' pre,
            match authenticate a errFmt okFmt headers st with
            | Some (b, st2, tr2) => Some (b, st2, ([] ++ tr2)%list)
            | None => None
            end = Some ((url, headers'), st, pre) ∧ Forall is_log pre) as Ha.
  { intros a. destruct (authenticate_total a errFmt okFmt headers st)
      as (url & hs & pre & -> & Hpre). by eauto 6. }
  destruct (ctx st !! "mcp_proxy_auth_info") as [[]|]; apply Ha.
Qed.

(** [executeToolsList] with a well-typed cursor slot issues the
    [tools/list] request, after log lines only. *)
Lemma executeToolsList_calls (cursor : option string) (st : State) :
  ctx st !! "mcp_proxy_cursor" = CString <$> cursor →
  ∃ url headers pre,
    executeToolsList st
    = Some (ctx_RouteCall "POST" url headers (Marshal (VMap (createToolsListRequest cursor))),
            st,
            (pre ++ [ERouteCall "POST" url headers
                       (Marshal (VMap (createToolsListRequest cursor))) CbToolsList])%list) ∧
    Forall is_log pre.
Proof.
  intros Hc. unfold executeToolsList.
  destruct (authenticateFromContext_total
              "Failed to apply authentication for tools/list request: %v"
              "Using modified URL for tools/list request: %s"
              (requestHeaders (handler st)) st) as (url & hs & pre & Ha & Hpre).
  exists url, hs, pre. split; [|done].
  unfold mbind, M_mbind, M_bind, GetContext, get_handler, M_ret, emit, panic.
  rewrite Hc. destruct cursor as [c|]; simpl; rewrite Ha; simpl; done.
Qed.

(** [executeToolsCall] with the tool name and arguments in the context
    issues the [tools/call] request, after log lines only. *)
Lemma executeToolsCall_calls (toolName : string) (arguments : gmap string val)
    (st : State) :
  ctx st !! CtxMcpProxyToolName = Some (CString toolName) →
  ctx st !! CtxMcpProxyToolArgs = Some (CArguments arguments) →
  ∃ url headers pre,
    executeToolsCall st
    = Some (ctx_RouteCall "POST" url headers
              (Marshal (VMap (createToolsCallRequest toolName arguments))),
            st,
            (pre ++ [ERouteCall "POST" url headers
                       (Marshal (VMap (createToolsCallRequest toolName arguments)))
                       (CbToolsCall toolName)])%list) ∧
    Forall is_log pre.
Proof.
  intros Hn Ha'. unfold executeToolsCall.
  destruct (authenticateFromContext_total
              "Failed to apply authentication for proxy tool call: %v"
              "Using modified URL for tools/call request: %s"
              (requestHeaders (handler st)) st) as (url & hs & pre & Ha & Hpre).
  exists url, hs, pre. split; [|done].
  unfold mbind, M_mbind, M_bind, GetContext, get_handler, M_ret, emit, panic.
  rewrite Hn, Ha'. simpl. rewrite Ha. simpl. done.
Qed.

End Execution.

Section Notification.
Context `{Env}.

(** C8. When the backend answers the initialized notification with a
    status outside 2xx, the callback logs a warning, marks the
    initialization as complete in the request context, and then issues the
    pending [tools/list] or [tools/call] request: between the warning and
    that request there are log lines only, and no reply goes to the client
    unless the host refuses the request itself. *)
Theorem initialized_failure_does_not_abort (statusCode : Z)
    (hdrs : list (string * string)) (body : option json) (st : State) :
  statusCode < 200 ∨ 300 ≤ statusCode →
  let st1 := {| ctx := <[CtxMcpProxyInitialized := CBool true]> (ctx st);
                handler := handler st |} in
  let after (err : option GoError) (fmt debugInfo : string) : list Effect :=
    (match err with
     | Some err => [ELog LError fmt; EResponseError err ErrInternalError debugInfo]
     | None => []
     end ++ [EResume])%list in
  ctx st1 !! CtxMcpProxyInitialized = Some (CBool true) ∧
  (∀ cursor,
     ctx st !! CtxMcpProxyOperation = Some (COperation OpToolsList) →
     ctx st !! "mcp_proxy_cursor" = CString <$> cursor →
     ∃ url headers pre,
       let request := Marshal (VMap (createToolsListRequest cursor)) in
       onInitializedResponse statusCode hdrs body st
       = Some (tt, st1,
               (ELog LWarn "Initialized notification failed with status %d: %s"
                :: pre ++ ERouteCall "POST" url headers request CbToolsList
                :: after (ctx_RouteCall "POST" url headers request)
                     "Failed to execute tools/list: %v"
                     "mcp-proxy:tools/list:execution_error")%list) ∧
       Forall is_log pre) ∧
  (∀ toolName arguments,
     ctx st !! CtxMcpProxyOperation = Some (COperation OpToolsCall) →
     ctx st !! CtxMcpProxyToolName = Some (CString toolName) →
     ctx st !! CtxMcpProxyToolArgs = Some (CArguments arguments) →
     ∃ url headers pre,
       let request := Marshal (VMap (createToolsCallRequest toolName arguments)) in
       onInitializedResponse statusCode hdrs body st
       = Some (tt, st1,
               (ELog LWarn "Initialized notification failed with status %d: %s"
                :: pre ++ ERouteCall "POST" url headers request (CbToolsCall toolName)
                :: after (ctx_RouteCall "POST" url headers request)
                     "Failed to execute tools/call: %v"
                     "mcp-proxy:tools/call:execution_error")%list) ∧
       Forall is_log pre).
Proof.
  intros Hs st1 after.
  assert (negb (statusCode =? 200) = true) as Hne.
  { apply negb_true_iff, Z.eqb_neq. lia. }
  split; [by apply lookup_insert_eq|]. split.
  - intros cursor Hop Hc.
    destruct (executeToolsList_calls cursor st1) as (url & hs & pre & He & Hpre).
    { simpl. by rewrite lookup_insert_ne. }
    exists url, hs, pre. split; [|done].
    unfold onInitializedResponse. rewrite Hne.
    unfold mbind, M_mbind, M_bind, log, emit, SetContext, GetContext,
      OnMCPResponseError, M_ret.
    simpl. rewrite lookup_insert_ne, Hop by done. simpl.
    fold st1. rewrite He. unfold after.
    destruct (ctx_RouteCall _ _ _ _); simpl; by rewrite <-?app_assoc.
  - intros toolName arguments Hop Hn Ha.
    destruct (executeToolsCall_calls toolName arguments st1)
      as (url & hs & pre & He & Hpre).
    { simpl. by rewrite lookup_insert_ne. }
    { simpl. by rewrite lookup_insert_ne. }
    exists url, hs, pre. split; [|done].
    unfold onInitializedResponse. rewrite Hne.
    unfold mbind, M_mbind, M_bind, log, emit, SetContext, GetContext,
      OnMCPResponseError, M_ret.
    simpl. rewrite lookup_insert_ne, Hop by done. simpl.
    fold st1. rewrite He. unfold after.
    destruct (ctx_RouteCall _ _ _ _); simpl; by rewrite <-?app_assoc.
Qed.

End Notification.

(** The witness of C8: a 500 answer to the notification while a
    [tools/list] without cursor is pending. *)
Lemma initialized_failure_does_not_abort_witness :
  (500 < 200 ∨ 300 ≤ 500) ∧
  let st1 := {| ctx := <[CtxMcpProxyInitialized := CBool true]> (ctx pendingListState);
                handler := handler pendingListState |} in
  let after (err : option GoError) (fmt debugInfo : string) : list Effect :=
    (match err with
     | Some err => [ELog LError fmt; EResponseError err ErrInternalError debugInfo]
     | None => []
     end ++ [EResume])%list in
  ctx st1 !! CtxMcpProxyInitialized = Some (CBool true) ∧
  (∀ cursor,
     ctx pendingListState !! CtxMcpProxyOperation = Some (COperation OpToolsList) →
     ctx pendingListState !! "mcp_proxy_cursor" = CString <$> cursor →
     ∃ url headers pre,
       let request := Marshal (VMap (createToolsListRequest cursor)) in
       @onInitializedResponse exampleEnv 500 [] None pendingListState
       = Some (tt, st1,
               (ELog LWarn "Initialized notification failed with status %d: %s"
                :: pre ++ ERouteCall "POST" url headers request CbToolsList
                :: after (@ctx_RouteCall exampleEnv "POST" url headers request)
                     "Failed to execute tools/list: %v"
                     "mcp-proxy:tools/list:execution_error")%list) ∧
       Forall is_log pre) ∧
  (∀ toolName arguments,
     ctx pendingListState !! CtxMcpProxyOperation = Some (COperation OpToolsCall) →
     ctx pendingListState !! CtxMcpProxyToolName = Some (CString toolName) →
     ctx pendingListState !! CtxMcpProxyToolArgs = Some (CArguments arguments) →
     ∃ url headers pre,
       let request := Marshal (VMap (createToolsCallRequest toolName arguments)) in
       @onInitializedResponse exampleEnv 500 [] None pendingListState
       = Some (tt, st1,
               (ELog LWarn "Initialized notification failed with status %d: %s"
                :: pre ++ ERouteCall "POST" url headers request (CbToolsCall toolName)
                :: after (@ctx_RouteCall exampleEnv "POST" url headers request)
                     "Failed to execute tools/call: %v"
                     "mcp-proxy:tools/call:execution_error")%list) ∧
       Forall is_log pre).
Proof.
  split; [right; lia|].
  apply (@initialized_failure_does_not_abort exampleEnv 500 [] None pendingListState).
  right; lia.
Defined.

(** The run behind that witness: the warning, then the [tools/list] request
    to the backend, then the resumption of the client request. *)
Example initialized_failure_run :
  @onInitializedResponse exampleEnv 500 [] None pendingListState
  = Some (tt,
          {| ctx := <[CtxMcpProxyInitialized := CBool true]> (ctx pendingListState);
             handler := handler pendingListState |},
          [ELog LWarn "Initialized notification failed with status %d: %s";
           ERouteCall "POST" exampleBackendURL [("Content-Type", "application/json")]
             (Marshal (VMap (createToolsListRequest None))) CbToolsList;
           EResume]).
Proof. vm_compute. reflexivity. Qed.

(** ** Credential selection *)

Lemma headerValue_updateHeader (name credential : string) (headers : list (string * string)) :
  headerValue name (addOrUpdateHeader name credential headers) = Some credential.
Proof.
  unfold addOrUpdateHeader.
  induction headers as [|[n v] rest IH]; simpl.
  - by rewrite String.eqb_refl.
  - destruct (String.eqb n name) eqn:E; simpl.
    + by rewrite String.eqb_refl.
    + destruct (updateHeader name credential rest) as [rest' found]; simpl in *.
      destruct found; simpl; by rewrite E.
Qed.



Section Credentials.
Context `{Env}.


End Credentials.

(** ** The SSE event parser *)

Lemma append_cons (c : ascii) (s t : string) :
  (String c s ++ t)%string = String c (s ++ t).
Proof. reflexivity. Qed.

Lemma append_nil_l (t : string) : ("" ++ t)%string = t.
Proof. reflexivity. Qed.

Lemma string_length_append (s t : string) :
  String.length (s ++ t) = (String.length s + String.length t)%nat.
Proof.
  induction s as [|c s IH]; [done|].
  rewrite append_cons. simpl. by rewrite IH.
Qed.

Lemma string_append_nil_r (s : string) : (s ++ "")%string = s.
Proof. induction s as [|c s IH]; [done|]. by rewrite append_cons, IH. Qed.

Lemma string_append_assoc (s t u : string) : ((s ++ t) ++ u = s ++ (t ++ u))%string.
Proof. induction s as [|c s IH]; [done|]. by rewrite !append_cons, IH. Qed.

(** Lexing into lines loses no byte. *)
Lemma lexLines_lossless (s : string) :
  (concatStrings (map snd (fst (lexLines s))) ++ snd (lexLines s))%string = s.
Proof.
  assert (∀ n s, (String.length s ≤ n)%nat →
            (concatStrings (map snd (fst (lexLines s))) ++ snd (lexLines s))%string = s)
    as Hn; [|by apply (Hn (String.length s))].
  clear s. induction n as [|n IH]; intros [|c rest] Hl; simpl in *; try done; try lia.
  destruct (Ascii.eqb_spec c LF) as [->|_].
  { specialize (IH rest ltac:(lia)). destruct (lexLines rest) as [ls tail].
    simpl in *. by rewrite !append_cons, append_nil_l, IH. }
  destruct (Ascii.eqb_spec c CR) as [->|_].
  { destruct rest as [|c2 rest2]; [done|].
    destruct (Ascii.eqb_spec c2 LF) as [->|_].
    - simpl in Hl. specialize (IH rest2 ltac:(lia)).
      destruct (lexLines rest2) as [ls tail]. simpl in *.
      by rewrite !append_cons, append_nil_l, IH.
    - specialize (IH (String c2 rest2) ltac:(simpl in *; lia)).
      destruct (lexLines (String c2 rest2)) as [ls tail]. simpl in *.
      by rewrite !append_cons, append_nil_l, IH. }
  specialize (IH rest ltac:(lia)). destruct (lexLines rest) as [[|[l raw] ls'] tail];
    simpl in *; rewrite ?append_cons, ?append_nil_l in *; by rewrite <-IH.
Qed.

Lemma concatStrings_app (l1 l2 : list string) :
  concatStrings (l1 ++ l2) = (concatStrings l1 ++ concatStrings l2)%string.
Proof.
  induction l1 as [|x l1 IH]; simpl; [done|].
  by rewrite IH, string_append_assoc.
Qed.

(** The lines of the open block are lines of the input. *)
Lemma groupBlocks_open_length (ls opened : list (string * string)) :
  (String.length (concatStrings (map snd (snd (groupBlocks ls opened))))
   ≤ String.length (concatStrings (map snd (rev opened)))
     + String.length (concatStrings (map snd ls)))%nat.
Proof.
  revert opened. induction ls as [|[l raw] rest IH]; intros opened; simpl.
  - lia.
  - destruct (String.eqb l ""); simpl.
    + specialize (IH []). destruct (groupBlocks rest []) as [blocks stillOpen].
      simpl in *. rewrite string_length_append. lia.
    + specialize (IH ((l, raw) :: opened)). simpl in IH.
      rewrite map_app, concatStrings_app, !string_length_append in IH. simpl in IH.
      rewrite string_append_nil_r in IH. rewrite string_length_append. lia.
Qed.

(** What the parser leaves in the buffer is never longer than what it was
    given. *)
Lemma parseEvents_remaining_length (s : string) :
  (String.length (snd (parseEvents s)) ≤ String.length s)%nat.
Proof.
  unfold parseEvents. pose proof (lexLines_lossless s) as Hs.
  destruct (lexLines s) as [ls tail]. simpl in Hs.
  pose proof (groupBlocks_open_length ls []) as Hg.
  destruct (groupBlocks ls []) as [blocks stillOpen]. simpl in *.
  apply (f_equal String.length) in Hs. rewrite string_length_append in Hs.
  rewrite string_length_append. lia.
Qed.




(** ** The SSE protocol state machine *)

Section SseFacts.
Context `{Env}.

Lemma failWith_final (rc : RequestContext) (message : string) :
  final (jsonRpcId rc) (failWith rc message).1 (failWith rc message).2.
Proof. split; [done|]. split; [done|]. eexists. split; [done|]. done. Qed.

Lemma dispatchEvent_step (rc : RequestContext) (ev : SseEvent) :
  isActive (sseState rc) = true →
  jsonRpcId (dispatchEvent rc ev).1 = jsonRpcId rc ∧
  ((quiet (dispatchEvent rc ev).1 (dispatchEvent rc ev).2 ∧
    sseBuffer (dispatchEvent rc ev).1 = sseBuffer rc)
   ∨ final (jsonRpcId rc) (dispatchEvent rc ev).1 (dispatchEvent rc ev).2).
Proof.
  intros Ha. unfold dispatchEvent.
  destruct (sseState rc) eqn:Es; try done;
    repeat case_match; simpl;
    try (split; [done|]; left; split; [split|]; simpl; rewrite ?Es; done);
    try (split; [done|]; right; apply failWith_final);
    try (split; [done|]; right; split; [done|]; split; [done|];
         eexists; split; done).
Qed.

Lemma dispatchAll_step (events : list SseEvent) (rc : RequestContext) :
  isActive (sseState rc) = true →
  jsonRpcId (dispatchAll rc events).1 = jsonRpcId rc ∧
  ((quiet (dispatchAll rc events).1 (dispatchAll rc events).2 ∧
    sseBuffer (dispatchAll rc events).1 = sseBuffer rc)
   ∨ final (jsonRpcId rc) (dispatchAll rc events).1 (dispatchAll rc events).2).
Proof.
  revert rc. induction events as [|ev rest IH]; intros rc Ha; simpl.
  - split; [done|]. left. by split.
  - rewrite Ha. destruct (dispatchEvent_step rc ev Ha) as [Hid Hstep].
    destruct (dispatchEvent rc ev) as [rc1 out1]. simpl in *.
    destruct Hstep as [[[Ha1 Ho1] Hb1]|(Ht1 & Hb1 & frame & Ho1 & Hf1)].
    + destruct (IH rc1 Ha1) as [Hid2 Hstep2].
      destruct (dispatchAll rc1 rest) as [rc2 out2]. simpl in *.
      split; [congruence|].
      destruct Hstep2 as [[[Ha2 Ho2] Hb2]|(Ht2 & Hb2 & frame & Ho2 & Hf2)].
      * left. split; [split; [done|]|congruence].
        unfold injections in *. by rewrite omap_app, Ho1, Ho2.
      * right. split; [done|]. split; [done|]. exists frame.
        unfold injections in *. rewrite omap_app, Ho1, Ho2. split; [done|].
        congruence.
    + destruct rest as [|ev2 rest]; simpl.
      * split; [done|]. right. split; [done|]. split; [done|]. exists frame.
        by rewrite app_nil_r.
      * rewrite Ht1. simpl. split; [done|]. right. split; [done|]. split; [done|].
        exists frame. by rewrite app_nil_r.
Qed.

(** The streaming hook: quiet with a buffer within the cap, or final. *)
Lemma onHttpStreamingResponseBody_step (rc : RequestContext) (data : string) :
  isActive (sseState rc) = true →
  jsonRpcId (onHttpStreamingResponseBody rc data).1 = jsonRpcId rc ∧
  ((quiet (onHttpStreamingResponseBody rc data).1 (onHttpStreamingResponseBody rc data).2 ∧
    Z.of_nat (String.length (sseBuffer (onHttpStreamingResponseBody rc data).1))
      ≤ MaxSSEBufferSize)
   ∨ final (jsonRpcId rc) (onHttpStreamingResponseBody rc data).1
       (onHttpStreamingResponseBody rc data).2).
Proof.
  intros Ha. unfold onHttpStreamingResponseBody. rewrite Ha.
  destruct (parseEvents (sseBuffer rc ++ data)) as [events remaining].
  destruct (dispatchAll_step events (withBuffer rc remaining) Ha) as [Hid Hstep].
  destruct (dispatchAll (withBuffer rc remaining) events) as [rc1 out]. simpl in *.
  destruct Hstep as [[[Ha1 Ho1] Hb1]|(Ht1 & Hb1 & frame & Ho1 & Hf1)].
  - rewrite Ha1. destruct (Z.ltb_spec MaxSSEBufferSize (Z.of_nat (String.length (sseBuffer rc1)))).
    + simpl. split; [done|]. right. split; [done|]. split; [done|].
      eexists. unfold injections in *. rewrite omap_app, Ho1. simpl.
      split; [done|]. simpl. by rewrite Hid.
    + simpl. split; [done|]. left. by split.
  - rewrite Ht1. simpl. split; [done|]. right. split; [done|]. split; [done|]. by exists frame.
Qed.

Lemma onSidecallDone_step (rc : RequestContext) (statusCode : Z) :
  isActive (sseState rc) = true →
  jsonRpcId (onSidecallDone rc statusCode).1 = jsonRpcId rc ∧
  ((quiet (onSidecallDone rc statusCode).1 (onSidecallDone rc statusCode).2 ∧
    sseBuffer (onSidecallDone rc statusCode).1 = sseBuffer rc)
   ∨ final (jsonRpcId rc) (onSidecallDone rc statusCode).1 (onSidecallDone rc statusCode).2).
Proof.
  intros Ha. unfold onSidecallDone.
  destruct (sseState rc) eqn:Es; try done;
    repeat case_match; simpl;
    try (split; [done|]; left; split; [split|]; simpl; rewrite ?Es; done);
    try (split; [done|]; right; apply failWith_final).
Qed.

(** A machine that is not running does nothing. *)
Lemma sseStep_inactive (rc : RequestContext) (i : SseInput) :
  isActive (sseState rc) = false → sseStep rc i = (rc, []).
Proof.
  intros Ha. destruct i as [data|statusCode]; simpl.
  - unfold onHttpStreamingResponseBody. by rewrite Ha.
  - unfold onSidecallDone. by destruct (sseState rc).
Qed.

Lemma sseRun_inactive (inputs : list SseInput) (rc : RequestContext) :
  isActive (sseState rc) = false → sseRun rc inputs = (rc, []).
Proof.
  intros Ha. induction inputs as [|i rest IH]; simpl; [done|].
  by rewrite sseStep_inactive, IH.
Qed.


(** Along a run that starts with a running machine and a buffer within
    the cap: the client id is kept, the buffer stays within the cap, and
    either the machine still runs and nothing was injected, or it is
    terminal and exactly one frame, with the client id, was injected. *)
Lemma sseRun_invariant (inputs : list SseInput) (rc : RequestContext) :
  isActive (sseState rc) = true →
  Z.of_nat (String.length (sseBuffer rc)) ≤ MaxSSEBufferSize →
  jsonRpcId (sseRun rc inputs).1 = jsonRpcId rc ∧
  Z.of_nat (String.length (sseBuffer (sseRun rc inputs).1)) ≤ MaxSSEBufferSize ∧
  (quiet (sseRun rc inputs).1 (sseRun rc inputs).2
   ∨ final (jsonRpcId rc) (sseRun rc inputs).1 (sseRun rc inputs).2).
Proof.
  revert rc. induction inputs as [|i rest IH]; intros rc Ha Hb; simpl.
  - split; [done|]. split; [done|]. left. by split.
  - assert (jsonRpcId (sseStep rc i).1 = jsonRpcId rc ∧
            ((quiet (sseStep rc i).1 (sseStep rc i).2 ∧
              Z.of_nat (String.length (sseBuffer (sseStep rc i).1)) ≤ MaxSSEBufferSize)
             ∨ final (jsonRpcId rc) (sseStep rc i).1 (sseStep rc i).2)) as [Hid Hstep].
    { destruct i as [data|statusCode]; simpl.
      - by apply onHttpStreamingResponseBody_step.
      - destruct (onSidecallDone_step rc statusCode Ha) as [? [[? Hbuf]|?]];
          split; try done; [left|by right]. split; [done|]. by rewrite Hbuf. }
    destruct (sseStep rc i) as [rc1 out1]. simpl in *.
    destruct Hstep as [[[Ha1 Ho1] Hb1]|(Ht1 & Hb1 & frame & Ho1 & Hf1)].
    + destruct (IH rc1 Ha1 Hb1) as (Hid2 & Hb2 & Hstep2).
      destruct (sseRun rc1 rest) as [rc2 out2]. simpl in *.
      split; [congruence|]. split; [done|].
      destruct Hstep2 as [[Ha2 Ho2]|(Ht2 & Hbe & frame & Ho2 & Hf2)].
      * left. split; [done|]. unfold injections in *. by rewrite omap_app, Ho1, Ho2.
      * right. split; [done|]. split; [done|]. exists frame.
        unfold injections in *. rewrite omap_app, Ho1, Ho2. split; [done|]. congruence.
    + rewrite (sseRun_inactive rest rc1 Ht1). simpl.
      split; [done|]. split; [rewrite Hb1; simpl; unfold MaxSSEBufferSize; lia|].
      right. split; [done|]. split; [done|]. exists frame. by rewrite app_nil_r.
Qed.

End SseFacts.

Section SseBufferCap.
Context `{Env}.


End SseBufferCap.


(** ** Witnesses of the allow-list theorems *)

(** The witness of C2: backend tools A, B, C, configured set {A, B}, header
    value "A,C"; the tool A alone is retained. *)
Lemma allow_list_filter_correct_witness :
  (allowListContext !! "mcp_proxy_allow_tools" = Some (CAllowTools {["A"; "B"]}) ∧
   allowListContext !! "mcp_proxy_allow_tools_header" = Some (CString "A,C") ∧
   threeToolsResult !! "tools" = Some (VArray threeTools)) ∧
  let cfg : gset string := {["A"; "B"]} in
  let hdr := @allowToolsFromHeader exampleEnv "A,C" in
  (Join "," (Split "," "A,C") = "A,C" ∧
   ∀ name, name ∈ hdr ↔
     name ≠ "" ∧ ∃ piece, piece ∈ Split "," "A,C" ∧ @TrimSpace exampleEnv piece = name) ∧
  (cfg = ∅ ∧ hdr = ∅ →
   @applyAllowToolsFilter exampleEnv allowListContext threeToolsResult = Some threeToolsResult) ∧
  (¬ (cfg = ∅ ∧ hdr = ∅) →
   ∃ kept,
     @applyAllowToolsFilter exampleEnv allowListContext threeToolsResult
       = Some (<["tools" := VArray kept]> threeToolsResult) ∧
     kept = List.filter (retained cfg hdr) threeTools ∧
     (∀ tool, retained cfg hdr tool = true ↔ in_every_nonempty_set cfg hdr tool) ∧
     kept `sublist_of` threeTools ∧
     (∀ tool, tool ∈ kept ↔ tool ∈ threeTools ∧ in_every_nonempty_set cfg hdr tool) ∧
     (∀ k, k ≠ "tools" →
        (<["tools" := VArray kept]> threeToolsResult) !! k = threeToolsResult !! k)).
Proof.
  assert (allowListContext !! "mcp_proxy_allow_tools"
          = CAllowTools <$> Some ({["A"; "B"]} : gset string)) as Hc
    by (vm_compute; reflexivity).
  assert (allowListContext !! "mcp_proxy_allow_tools_header" = Some (CString "A,C")) as Hh
    by (vm_compute; reflexivity).
  assert (threeToolsResult !! "tools" = Some (VArray threeTools)) as Ht
    by (vm_compute; reflexivity).
  split; [by repeat split|].
  exact (@allow_list_filter_correct exampleEnv allowListContext threeToolsResult
           (Some {["A"; "B"]}) "A,C" threeTools Hc Hh Ht).
Defined.

(** The configured set is the stored one: on the same result and header
    value, another stored set retains other tools. *)
Example allow_list_follows_the_stored_set :
  List.filter (retained {["A"; "B"]} (@allowToolsFromHeader exampleEnv "A,C")) threeTools
    = [namedTool "A"] ∧
  @applyAllowToolsFilter exampleEnv
    (<["mcp_proxy_allow_tools" := CAllowTools {["C"]}]> allowListContext) threeToolsResult
  = Some (<["tools" := VArray [namedTool "C"]]> threeToolsResult).
Proof. split; vm_compute; reflexivity. Qed.

(** On that input the filter keeps the tool A alone. *)
Example allow_list_intersection :
  @applyAllowToolsFilter exampleEnv allowListContext threeToolsResult
  = Some (<["tools" := VArray [namedTool "A"]]> threeToolsResult).
Proof. vm_compute. reflexivity. Qed.

(** The witness of C10: the member "tools" is a string. *)
Lemma allow_list_filter_no_tools_array_witness :
  (allowListContext !! "mcp_proxy_allow_tools_header" = Some (CString "A,C") ∧
   (noToolsArrayResult !! "tools" = None ∨
    ∃ v, noToolsArrayResult !! "tools" = Some v ∧ ∀ toolsArray, v ≠ VArray toolsArray)) ∧
  @applyAllowToolsFilter exampleEnv allowListContext noToolsArrayResult
    = Some noToolsArrayResult.
Proof.
  assert (noToolsArrayResult !! "tools" = None ∨
          ∃ v, noToolsArrayResult !! "tools" = Some v ∧ ∀ toolsArray, v ≠ VArray toolsArray)
    as Hno.
  { right. exists (VString "none"). split; [vm_compute; reflexivity|discriminate]. }
  split; [split; [vm_compute; reflexivity|exact Hno]|].
  apply (@allow_list_filter_no_tools_array exampleEnv allowListContext noToolsArrayResult "A,C");
    [vm_compute; reflexivity|exact Hno].
Defined.


(** The default credential of that test ends up in the header of the
    scheme. *)
Example default_credential_applied :
  headerValue "X-Service-Key"
    (pac_Headers (snd (ApplyAuthentication defaultKeyServer defaultKeyContext "DefaultAuth")))
  = Some "default-service-key".
Proof. vm_compute. reflexivity. Qed.

(** ** Preservation of the client id *)

Section ClientId.
Context `{Env}.

Lemma sse_injections_id (id : json) (method : string) (toolRequest : json)
    (store : gmap string CtxVal) (origin : string) (inputs : list SseInput) :
  Forall (λ frame, frameMember "id" frame = Some id)
    (injections (sseRun (newRequestContext id method toolRequest store origin) inputs).2).
Proof.
  assert (Z.of_nat (String.length
                      (sseBuffer (newRequestContext id method toolRequest store origin)))
          ≤ MaxSSEBufferSize) as Hb by (unfold MaxSSEBufferSize; simpl; lia).
  destruct (sseRun_invariant inputs (newRequestContext id method toolRequest store origin)
              eq_refl Hb)
    as (_ & _ & [[_ ->]|(_ & _ & frame & -> & Hf)]).
  - constructor.
  - constructor; [exact Hf|constructor].
Qed.

End ClientId.

(** The ids of the specification: 7, "abc" and 0 come back as they were
    sent, and a notification is acknowledged without a frame. *)
Example ids_of_the_specification :
  let request (id : option json) :=
    Some (JObject (match id with
                   | Some i => <["id" := i]>
                   | None => λ m, m
                   end (<["jsonrpc" := JString "2.0"]>
                        (<["method" := JString "prompts/list"]> ∅)))) in
  dispatchClientFrame (request (Some (JNumber 7)))
    = DLocal (buildError (JNumber 7) ErrMethodNotFound "Method not found") ∧
  dispatchClientFrame (request (Some (JString "abc")))
    = DLocal (buildError (JString "abc") ErrMethodNotFound "Method not found") ∧
  dispatchClientFrame (request (Some (JNumber 0)))
    = DLocal (buildError (JNumber 0) ErrMethodNotFound "Method not found") ∧
  dispatchClientFrame (request None) = DAck.
Proof. repeat split; vm_compute; reflexivity. Qed.

(** ** Validation of the configuration *)

(** X1. [ValidateSecurityScheme] accepts exactly the schemes with an id that
    are either of type apiKey, named, and located in a header, the query or
    a cookie, or of type http with a scheme. *)
Lemma ValidateSecurityScheme_accepts (scheme : SecurityScheme) :
  ValidateSecurityScheme scheme = None ↔
  scheme_ID scheme ≠ "" ∧
  ((scheme_Type scheme = "apiKey" ∧ scheme_Name scheme ≠ "" ∧
    (scheme_In scheme = "header" ∨ scheme_In scheme = "query" ∨
     scheme_In scheme = "cookie")) ∨
   (scheme_Type scheme = "http" ∧ scheme_Scheme scheme ≠ "")).
Proof.
  unfold ValidateSecurityScheme.
  destruct (String.eqb_spec (scheme_ID scheme) "") as [Hid|Hid].
  { split; [done|]. by intros [? _]. }
  destruct (String.eqb_spec (scheme_Type scheme) "apiKey") as [Ha|Ha]; simpl.
  - destruct (String.eqb_spec (scheme_Name scheme) "") as [Hn|Hn].
    { split; [done|]. intros [_ [(_ & ? & _)|[Hh _]]]; [done|]. by rewrite Ha in Hh. }
    destruct (String.eqb_spec (scheme_In scheme) "header") as [Hh|Hh]; simpl.
    { rewrite Ha. simpl. split; [|done]. intros _. split; [done|]. left. tauto. }
    destruct (String.eqb_spec (scheme_In scheme) "query") as [Hq|Hq]; simpl.
    { rewrite Ha. simpl. split; [|done]. intros _. split; [done|]. left. tauto. }
    destruct (String.eqb_spec (scheme_In scheme) "cookie") as [Hc|Hc]; simpl.
    { rewrite Ha. simpl. split; [|done]. intros _. split; [done|]. left. tauto. }
    split; [done|]. intros [_ [(_ & _ & [?|[?|?]])|[Hh' _]]]; try done.
    by rewrite Ha in Hh'.
  - destruct (String.eqb_spec (scheme_Type scheme) "http") as [Ht|Ht]; simpl.
    + destruct (String.eqb_spec (scheme_Scheme scheme) "") as [Hs|Hs].
      * split; [done|]. intros [_ [(? & _)|[_ ?]]]; done.
      * split; [|done]. intros _. split; [done|]. right. done.
    + split; [done|]. intros [_ [(? & _)|[? _]]]; done.
Qed.

Lemma existsb_validTypes (t : string) :
  existsb (String.eqb t) validTypes = true ↔ t ∈ validTypes.
Proof.
  rewrite existsb_exists. split.
  - intros (x & Hx & ->%String.eqb_eq). by apply list_elem_of_In.
  - intros Hx. exists t. split; [by apply list_elem_of_In|apply String.eqb_refl].
Qed.

(** The loop accepts the arguments when their names are non-empty, new and
    pairwise different, their descriptions non-empty and their types among
    the six. *)
Lemma validateArgs_accepts (args : list ToolArg) (argNames : gmap string bool) :
  validateArgs args argNames = None ↔
  Forall (λ arg, arg_Name arg ≠ "" ∧ arg_Description arg ≠ "" ∧
                 arg_Type arg ∈ validTypes ∧
                 default false (argNames !! arg_Name arg) = false) args ∧
  NoDup (arg_Name <$> args).
Proof.
  revert argNames. induction args as [|arg rest IH]; intros argNames.
  { split; [intros _; split; constructor|done]. }
  cbn [validateArgs]. rewrite fmap_cons, Forall_cons, NoDup_cons.
  destruct (String.eqb_spec (arg_Name arg) "") as [Hn|Hn].
  { split; [done|]. by intros [[[? _] _] _]. }
  destruct (default false (argNames !! arg_Name arg)) eqn:Hseen.
  { split; [done|]. by intros [[(_ & _ & _ & ?) _] _]. }
  destruct (String.eqb_spec (arg_Description arg) "") as [Hd|Hd].
  { split; [done|]. by intros [[(_ & ? & _) _] _]. }
  destruct (existsb (String.eqb (arg_Type arg)) validTypes) eqn:Ht; cbn [negb].
  2: { split; [done|]. intros [[(_ & _ & Hin & _) _] _].
       apply existsb_validTypes in Hin. congruence. }
  apply existsb_validTypes in Ht. rewrite IH. clear IH.
  assert (Forall (λ a, arg_Name a ≠ "" ∧ arg_Description a ≠ "" ∧
                       arg_Type a ∈ validTypes ∧
                       default false (<[arg_Name arg:=true]> argNames !! arg_Name a) = false) rest
          ↔ Forall (λ a, arg_Name a ≠ "" ∧ arg_Description a ≠ "" ∧
                         arg_Type a ∈ validTypes ∧
                         default false (argNames !! arg_Name a) = false) rest
            ∧ arg_Name arg ∉ arg_Name <$> rest) as ->.
  { rewrite !Forall_forall, list_elem_of_fmap. split.
    - intros Hall. split.
      + intros a Ha. destruct (Hall a Ha) as (? & ? & ? & Hl).
        repeat split; try done.
        destruct (decide (arg_Name arg = arg_Name a)) as [e|ne].
        * by rewrite e, lookup_insert_eq in Hl.
        * by rewrite lookup_insert_ne in Hl.
      + intros (a & Heq & Ha). destruct (Hall a Ha) as (_ & _ & _ & Hl).
        by rewrite <- Heq, lookup_insert_eq in Hl.
    - intros [Hall Hnew] a Ha. destruct (Hall a Ha) as (? & ? & ? & Hl).
      repeat split; try done. rewrite lookup_insert_ne; [done|].
      intros Heq. apply Hnew. by exists a. }
  tauto.
Qed.

(** X2. [ValidateToolConfig] accepts exactly the configurations with a name
    and a description whose arguments have non-empty, pairwise different
    names, non-empty descriptions and one of the six types. *)
Lemma ValidateToolConfig_accepts (config : McpProxyToolConfig) :
  ValidateToolConfig config = None ↔
  tool_Name config ≠ "" ∧ tool_Description config ≠ "" ∧
  NoDup (arg_Name <$> tool_Args config) ∧
  Forall (λ arg, arg_Name arg ≠ "" ∧ arg_Description arg ≠ "" ∧
                 arg_Type arg ∈ validTypes) (tool_Args config).
Proof.
  unfold ValidateToolConfig.
  destruct (String.eqb_spec (tool_Name config) "") as [Hn|Hn].
  { split; [done|]. by intros [? _]. }
  destruct (String.eqb_spec (tool_Description config) "") as [Hd|Hd].
  { split; [done|]. by intros (_ & ? & _). }
  rewrite validateArgs_accepts. split.
  - intros [Hall Hnd]. repeat split; try done.
    eapply Forall_impl; [exact Hall|]. simpl. tauto.
  - intros (_ & _ & Hnd & Hall). split; [|done].
    eapply Forall_impl; [exact Hall|]. simpl. intros a (? & ? & ?).
    by rewrite lookup_empty.
Qed.

(** ** The input schema of a proxy tool *)

(** The loop of [InputSchema] from any intermediate state: a name maps to
    the schema of the last argument that bears it, and the required names
    are appended in order. *)
Lemma schemaLoop_fold (args : list ToolArg) (properties : gmap string val)
    (required : option (list string)) (name : string) :
  let acc :=
    fold_left
      (λ (acc : gmap string val * option (list string)) arg,
         (<[arg_Name arg := VMap (argSchema arg)]> (fst acc),
          if arg_Required arg then append_string (snd acc) (arg_Name arg) else snd acc))
      args (properties, required) in
  fst acc !! name
  = match last (filter (λ arg, arg_Name arg = name) args) with
    | Some arg => Some (VMap (argSchema arg))
    | None => properties !! name
    end ∧
  snd acc
  = match requiredNames args with
    | [] => required
    | names => Some (default [] required ++ names)%list
    end.
Proof.
  revert properties required. induction args as [|arg rest IH]; intros properties required.
  { done. }
  cbn [fold_left fst snd]. destruct (IH (<[arg_Name arg := VMap (argSchema arg)]> properties)
    (if arg_Required arg then append_string required (arg_Name arg) else required))
    as [IHp IHr]. clear IH. cbv zeta. split.
  - rewrite IHp. rewrite filter_cons.
    destruct (decide (arg_Name arg = name)) as [e|ne].
    + rewrite last_cons. destruct (last (filter _ rest)); [done|].
      by rewrite e, lookup_insert_eq.
    + destruct (last (filter _ rest)); [done|]. by rewrite lookup_insert_ne.
  - rewrite IHr. unfold requiredNames. destruct (arg_Required arg) eqn:Er.
    + rewrite filter_cons_True by done. rewrite fmap_cons.
      destruct (arg_Name <$> filter _ rest) as [|n l]; simpl; [done|].
      by rewrite <- app_assoc.
    + rewrite filter_cons_False by (by rewrite Er). done.
Qed.

Lemma last_filter_NoDup (args : list ToolArg) (arg : ToolArg) :
  NoDup (arg_Name <$> args) → arg ∈ args →
  last (filter (λ a, arg_Name a = arg_Name arg) args) = Some arg.
Proof.
  induction args as [|a rest IH]; intros Hnd Hin; [by apply elem_of_nil in Hin|].
  rewrite fmap_cons in Hnd. apply NoDup_cons in Hnd as [Hnew Hnd].
  rewrite filter_cons. apply elem_of_cons in Hin as [->|Hin].
  - rewrite decide_True by done.
    assert (filter (λ a0, arg_Name a0 = arg_Name a) rest = []) as ->; [|done].
    destruct (filter _ rest) as [|b l] eqn:El; [done|].
    assert (b ∈ filter (λ a0, arg_Name a0 = arg_Name a) rest) as Hb.
    { rewrite El. apply elem_of_cons. by left. }
    apply list_elem_of_filter in Hb as [Heq Hb]. destruct Hnew.
    apply list_elem_of_fmap. by exists b.
  - rewrite decide_False.
    + by apply IH.
    + intros Heq. apply Hnew. apply list_elem_of_fmap. by exists arg.
Qed.

(** X3. The schema of a tool whose configuration [ValidateToolConfig]
    accepts: its type is "object", its properties hold under every argument
    name the schema of that argument and nothing under any other name, and
    its required member lists the names of the required arguments in the
    order of the configuration. *)
Theorem InputSchema_of_validated_config (config : McpProxyToolConfig) :
  ValidateToolConfig config = None →
  InputSchema config !! "type" = Some (VString "object") ∧
  (∃ properties : gmap string val,
     InputSchema config !! "properties" = Some (VMap properties) ∧
     (∀ arg, arg ∈ tool_Args config →
             properties !! arg_Name arg = Some (VMap (argSchema arg))) ∧
     (∀ name, is_Some (properties !! name) ↔ name ∈ arg_Name <$> tool_Args config)) ∧
  InputSchema config !! "required"
  = Some (strings_val (match requiredNames (tool_Args config) with
                       | [] => None
                       | names => Some names
                       end)).
Proof.
  intros Hv. unfold ValidateToolConfig in Hv.
  destruct (String.eqb (tool_Name config) ""); [done|].
  destruct (String.eqb (tool_Description config) ""); [done|].
  apply validateArgs_accepts in Hv as [_ Hnd].
  unfold InputSchema, schemaLoop.
  pose proof (schemaLoop_fold (tool_Args config) ∅ None) as Hloop. cbv zeta in Hloop.
  destruct (fold_left _ (tool_Args config) (∅, None)) as [properties required].
  simpl in Hloop. split; [done|]. split.
  - exists properties. split; [done|]. split.
    + intros arg Hin. destruct (Hloop (arg_Name arg)) as [-> _].
      by rewrite (last_filter_NoDup _ _ Hnd Hin).
    + intros name. destruct (Hloop name) as [-> _]. rewrite list_elem_of_fmap. split.
      * destruct (last (filter _ (tool_Args config))) as [arg|] eqn:El.
        -- intros _. apply last_Some_elem_of in El.
           apply list_elem_of_filter in El as [Heq Ha]. by exists arg.
        -- rewrite lookup_empty. by intros [? ?].
      * intros (arg & -> & Hin). by rewrite (last_filter_NoDup _ _ Hnd Hin).
  - destruct (Hloop "") as [_ ->]. rewrite lookup_insert_eq.
    by destruct (requiredNames (tool_Args config)).
Qed.

Lemma InputSchema_of_validated_config_witness :
  ValidateToolConfig testToolConfig = None ∧
  InputSchema testToolConfig !! "required" = Some (VArray [VString "input"]).
Proof.
  split; [reflexivity|].
  exact (proj2 (proj2 (InputSchema_of_validated_config testToolConfig eq_refl))).
Defined.

(** X4. For every configuration, validated or not: a name that several
    arguments bear keeps the schema of the last of them, and the required
    member is rendered as JSON [null] when no argument is required (the
    empty slice of the literal is overwritten by the nil slice), as the
    array of the required names otherwise. *)
Theorem InputSchema_last_wins_and_required_null (config : McpProxyToolConfig) :
  (∃ properties : gmap string val,
     InputSchema config !! "properties" = Some (VMap properties) ∧
     ∀ name, properties !! name
             = (λ arg, VMap (argSchema arg))
                 <$> last (filter (λ arg, arg_Name arg = name) (tool_Args config))) ∧
  (Marshal <$> InputSchema config) !! "required"
  = Some (match requiredNames (tool_Args config) with
          | [] => JNull
          | names => JArray (JString <$> names)
          end).
Proof.
  unfold InputSchema, schemaLoop.
  pose proof (schemaLoop_fold (tool_Args config) ∅ None) as Hloop. cbv zeta in Hloop.
  destruct (fold_left _ (tool_Args config) (∅, None)) as [properties required].
  simpl in Hloop. split.
  - exists properties. split; [done|]. intros name. destruct (Hloop name) as [-> _].
    by destruct (last (filter _ (tool_Args config))).
  - destruct (Hloop "") as [_ ->]. rewrite lookup_fmap, lookup_insert_eq.
    destruct (requiredNames (tool_Args config)) as [|n l]; [done|].
    simpl. f_equal. f_equal. f_equal.
    rewrite <- list_fmap_compose. done.
Qed.

(** ** Headers and credentials *)

Lemma updateHeader_found (name credential : string) (headers : list (string * string)) :
  snd (updateHeader name credential headers)
  = match headerValue name headers with Some _ => true | None => false end.
Proof.
  induction headers as [|[n v] rest IH]; simpl; [done|].
  destruct (String.eqb n name); simpl; [done|].
  by destruct (updateHeader name credential rest) as [rest' found].
Qed.

(** Writing a header leaves the headers of every other name as they
    were. *)
Lemma headerValue_addOrUpdateHeader_ne (name name' credential : string)
    (headers : list (string * string)) :
  name' ≠ name →
  headerValue name' (addOrUpdateHeader name credential headers) = headerValue name' headers.
Proof.
  intros Hne. unfold addOrUpdateHeader.
  assert (String.eqb name name' = false) as Hnn by (apply String.eqb_neq; congruence).
  induction headers as [|[n v] rest IH]; simpl.
  - by rewrite Hnn.
  - destruct (String.eqb n name) eqn:E; simpl.
    + apply String.eqb_eq in E. subst n. by rewrite Hnn.
    + destruct (updateHeader name credential rest) as [rest' found]; simpl in *.
      destruct found; simpl; destruct (String.eqb n name'); done.
Qed.

(** Writing the value that the first header of the name already has
    changes nothing. *)
Lemma addOrUpdateHeader_same (name credential : string) (headers : list (string * string)) :
  headerValue name headers = Some credential →
  addOrUpdateHeader name credential headers = headers.
Proof.
  unfold addOrUpdateHeader. induction headers as [|[n v] rest IH]; simpl; [done|].
  destruct (String.eqb n name) eqn:E; simpl.
  - apply String.eqb_eq in E. by intros [= ->]; subst.
  - intros Hv. specialize (IH Hv).
    destruct (updateHeader name credential rest) as [rest' found] eqn:Eu.
    pose proof (updateHeader_found name credential rest) as Hf.
    rewrite Eu, Hv in Hf. simpl in Hf. subst found. by rewrite IH.
Qed.

Lemma length_addOrUpdateHeader (name credential : string) (headers : list (string * string)) :
  List.length (addOrUpdateHeader name credential headers)
  = match headerValue name headers with
    | Some _ => List.length headers
    | None => S (List.length headers)
    end.
Proof.
  unfold addOrUpdateHeader. induction headers as [|[n v] rest IH]; simpl; [done|].
  destruct (String.eqb n name) eqn:E; simpl; [done|].
  destruct (updateHeader name credential rest) as [rest' found] eqn:Eu.
  pose proof (updateHeader_found name credential rest) as Hf.
  rewrite Eu in Hf. simpl in Hf.
  destruct (headerValue name rest); subst found; simpl in *.
  - by rewrite IH.
  - rewrite length_app in *. simpl in *. lia.
Qed.

Lemma pac_with_headers_id (ctx : ProxyAuthContext) :
  pac_with_headers ctx (pac_Headers ctx) = ctx.
Proof. by destruct ctx. Qed.

(** X5. [ExtractCredentials] fails exactly when the scheme is unknown and
    then changes nothing; it never touches headers, URL or body; the
    passthrough credential becomes the value of the first request header
    that bears the scheme's name (type apiKey, whatever its location) or
    the name "Authorization" (type http), and stays what it was when there
    is no such header or the scheme has another type. *)
Theorem ExtractCredentials_frame (s : McpProxyServer) (ctx : ProxyAuthContext)
    (schemeID : string) :
  let r := ExtractCredentials s ctx schemeID in
  (fst r = None ↔ is_Some (GetSecurityScheme s schemeID)) ∧
  (fst r ≠ None → snd r = ctx) ∧
  pac_Headers (snd r) = pac_Headers ctx ∧
  pac_ParsedURL (snd r) = pac_ParsedURL ctx ∧
  pac_RequestBody (snd r) = pac_RequestBody ctx ∧
  (∀ scheme, GetSecurityScheme s schemeID = Some scheme →
     pac_PassthroughCredential (snd r)
     = default (pac_PassthroughCredential ctx)
         (if String.eqb (scheme_Type scheme) "apiKey"
          then headerValue (scheme_Name scheme) (pac_Headers ctx)
          else if String.eqb (scheme_Type scheme) "http"
          then headerValue "Authorization" (pac_Headers ctx)
          else None)).
Proof.
  unfold ExtractCredentials. destruct (GetSecurityScheme s schemeID) as [scheme|]; simpl.
  2: { split; [split; [done|by intros [? ?]]|]. done. }
  destruct (String.eqb (scheme_Type scheme) "apiKey") eqn:Ea;
    [destruct (headerValue (scheme_Name scheme) (pac_Headers ctx)) eqn:Ev
    |destruct (String.eqb (scheme_Type scheme) "http") eqn:Eh;
     [destruct (headerValue "Authorization" (pac_Headers ctx)) eqn:Ev|]];
    simpl; (split; [split; [eauto|done]|]); (split; [done|]);
    repeat split; try done; intros ? [= <-]; rewrite ?Ea, ?Eh, ?Ev; done.
Qed.

(** X6. A credential that the client sent in the header of the scheme is
    forwarded as it came: after [ExtractCredentials] has read it,
    [ApplyAuthentication] succeeds and leaves the header list exactly as
    the client sent it; the default credential of the scheme is not
    used. *)
Theorem extracted_credential_forwarded_unchanged (s : McpProxyServer)
    (ctx : ProxyAuthContext) (schemeID : string) (scheme : SecurityScheme)
    (name credential : string) :
  GetSecurityScheme s schemeID = Some scheme →
  (scheme_Type scheme = "apiKey" ∧ scheme_In scheme = "header" ∧ name = scheme_Name scheme) ∨
  (scheme_Type scheme = "http" ∧ name = "Authorization") →
  headerValue name (pac_Headers ctx) = Some credential →
  credential ≠ "" →
  let extracted := snd (ExtractCredentials s ctx schemeID) in
  pac_PassthroughCredential extracted = credential ∧
  ApplyAuthentication s extracted schemeID = (None, extracted) ∧
  pac_Headers (snd (ApplyAuthentication s extracted schemeID)) = pac_Headers ctx.
Proof.
  intros Hs Hk Hv Hc. apply String.eqb_neq in Hc.
  assert (snd (ExtractCredentials s ctx schemeID)
          = {| pac_Headers := pac_Headers ctx; pac_ParsedURL := pac_ParsedURL ctx;
               pac_RequestBody := pac_RequestBody ctx;
               pac_PassthroughCredential := credential |}) as ->.
  { unfold ExtractCredentials. rewrite Hs.
    destruct Hk as [(Ht & _ & ->)|[Ht ->]]; rewrite Ht; simpl; by rewrite Hv. }
  cbv zeta. split; [done|].
  assert (ApplyAuthentication s
            {| pac_Headers := pac_Headers ctx; pac_ParsedURL := pac_ParsedURL ctx;
               pac_RequestBody := pac_RequestBody ctx;
               pac_PassthroughCredential := credential |} schemeID
          = (None, {| pac_Headers := pac_Headers ctx; pac_ParsedURL := pac_ParsedURL ctx;
                      pac_RequestBody := pac_RequestBody ctx;
                      pac_PassthroughCredential := credential |})) as ->; [|done].
  unfold ApplyAuthentication. rewrite Hs. simpl. rewrite Hc. simpl. rewrite Hc.
  destruct Hk as [(Ht & Hi & ->)|[Ht ->]]; rewrite Ht; simpl.
  - rewrite Hi. simpl. unfold pac_with_headers. simpl.
    by rewrite addOrUpdateHeader_same.
  - unfold pac_with_headers. simpl. by rewrite addOrUpdateHeader_same.
Qed.

Lemma extracted_credential_forwarded_unchanged_witness :
  GetSecurityScheme headerKeyServer "BackendApiKey" = Some headerKeyScheme ∧
  headerValue "X-API-Key" (pac_Headers clientKeyContext) = Some "client-key" ∧
  pac_Headers (snd (ApplyAuthentication headerKeyServer
                      (snd (ExtractCredentials headerKeyServer clientKeyContext "BackendApiKey"))
                      "BackendApiKey"))
  = pac_Headers clientKeyContext.
Proof.
  split; [reflexivity|]. split; [reflexivity|].
  refine (proj2 (proj2 (extracted_credential_forwarded_unchanged headerKeyServer
            clientKeyContext "BackendApiKey" headerKeyScheme "X-API-Key" "client-key"
            eq_refl _ eq_refl _))).
  - left. repeat split.
  - discriminate.
Defined.

(** The credential [ApplyAuthentication] writes and the header it writes
    it to, when it writes one. *)
Lemma ApplyAuthentication_cases (s : McpProxyServer) (ctx : ProxyAuthContext)
    (schemeID : string) :
  (∃ err, ApplyAuthentication s ctx schemeID = (Some err, ctx)) ∨
  ApplyAuthentication s ctx schemeID = (None, ctx) ∨
  ∃ scheme name credential,
    GetSecurityScheme s schemeID = Some scheme ∧
    (name = scheme_Name scheme ∨ name = "Authorization") ∧
    ApplyAuthentication s ctx schemeID
    = (None, pac_with_headers ctx (addOrUpdateHeader name credential (pac_Headers ctx))) ∧
    ∀ headers,
      ApplyAuthentication s (pac_with_headers ctx headers) schemeID
      = (None, pac_with_headers ctx (addOrUpdateHeader name credential headers)).
Proof.
  unfold ApplyAuthentication.
  destruct (GetSecurityScheme s schemeID) as [scheme|] eqn:Hs; [|left; eauto].
  simpl.
  destruct (String.eqb (if String.eqb (pac_PassthroughCredential ctx) ""
                           && negb (String.eqb (scheme_DefaultCredential scheme) "")
                        then scheme_DefaultCredential scheme
                        else pac_PassthroughCredential ctx) "") eqn:Ec; [left; eauto|].
  destruct (String.eqb (scheme_Type scheme) "apiKey") eqn:Ea.
  - destruct (String.eqb (scheme_In scheme) "header") eqn:Eh.
    + right. right. eexists scheme, (scheme_Name scheme), _.
      split; [done|]. split; [by left|]. split; [done|].
      intros headers. simpl. done.
    + right. left. by destruct (String.eqb (scheme_In scheme) "query").
  - destruct (String.eqb (scheme_Type scheme) "http") eqn:Et.
    + right. right. eexists scheme, "Authorization", _.
      split; [done|]. split; [by right|]. split; [done|].
      intros headers. simpl. done.
    + right. by left.
Qed.

(** X7. [ApplyAuthentication] is idempotent: applied to the context it
    left behind, it returns the same error and changes nothing more. *)
Theorem ApplyAuthentication_idempotent (s : McpProxyServer) (ctx : ProxyAuthContext)
    (schemeID : string) :
  ApplyAuthentication s (snd (ApplyAuthentication s ctx schemeID)) schemeID
  = (fst (ApplyAuthentication s ctx schemeID), snd (ApplyAuthentication s ctx schemeID)).
Proof.
  destruct (ApplyAuthentication_cases s ctx schemeID)
    as [[err He]|[He|(scheme & name & credential & Hs & _ & He & Hall)]].
  - by rewrite He; simpl; rewrite He.
  - by rewrite He; simpl; rewrite He.
  - rewrite He. simpl. rewrite Hall. do 2 f_equal.
    apply addOrUpdateHeader_same, headerValue_updateHeader.
Qed.

(** X8. What [ApplyAuthentication] leaves alone: URL, body and passthrough
    credential always; the whole context when it returns an error; the
    first header of every name other than the scheme's own and
    "Authorization"; and it appends at most one header, never removing
    one. *)
Theorem ApplyAuthentication_frame (s : McpProxyServer) (ctx : ProxyAuthContext)
    (schemeID : string) :
  let r := ApplyAuthentication s ctx schemeID in
  pac_ParsedURL (snd r) = pac_ParsedURL ctx ∧
  pac_RequestBody (snd r) = pac_RequestBody ctx ∧
  pac_PassthroughCredential (snd r) = pac_PassthroughCredential ctx ∧
  (fst r ≠ None → snd r = ctx) ∧
  (∀ scheme name,
     GetSecurityScheme s schemeID = Some scheme →
     name ≠ scheme_Name scheme → name ≠ "Authorization" →
     headerValue name (pac_Headers (snd r)) = headerValue name (pac_Headers ctx)) ∧
  (List.length (pac_Headers ctx) ≤ List.length (pac_Headers (snd r))
   ≤ S (List.length (pac_Headers ctx)))%nat.
Proof.
  destruct (ApplyAuthentication_cases s ctx schemeID)
    as [[err He]|[He|(scheme & name & credential & Hs & Hn & He & _)]];
    cbv zeta; rewrite He; simpl.
  - repeat split; try done. all: lia.
  - repeat split; try done. all: lia.
  - repeat split; try done.
    + intros scheme' name' Hs' Hne Hna. rewrite Hs in Hs'. injection Hs' as <-.
      apply headerValue_addOrUpdateHeader_ne. by destruct Hn as [->| ->].
    + rewrite length_addOrUpdateHeader. destruct (headerValue _ _); lia.
    + rewrite length_addOrUpdateHeader. destruct (headerValue _ _); lia.
Qed.

(** X9. A scheme that [ValidateSecurityScheme] accepts never makes
    [ApplyAuthentication] fail when a credential is at hand; yet for the
    schemes of type apiKey that it accepts with a location other than the
    header (the query, a cookie) nothing is written: the context comes
    back as it was. *)
Theorem validated_scheme_outside_header_not_applied (s : McpProxyServer)
    (ctx : ProxyAuthContext) (scheme : SecurityScheme) :
  ValidateSecurityScheme scheme = None →
  GetSecurityScheme s (scheme_ID scheme) = Some scheme →
  pac_PassthroughCredential ctx ≠ "" ∨ scheme_DefaultCredential scheme ≠ "" →
  fst (ApplyAuthentication s ctx (scheme_ID scheme)) = None ∧
  (scheme_Type scheme = "apiKey" → scheme_In scheme ≠ "header" →
   (scheme_In scheme = "query" ∨ scheme_In scheme = "cookie") ∧
   ApplyAuthentication s ctx (scheme_ID scheme) = (None, ctx)).
Proof.
  intros Hv Hs Hc. unfold ApplyAuthentication. rewrite Hs. simpl.
  assert (String.eqb (if String.eqb (pac_PassthroughCredential ctx) ""
                         && negb (String.eqb (scheme_DefaultCredential scheme) "")
                      then scheme_DefaultCredential scheme
                      else pac_PassthroughCredential ctx) "" = false) as ->.
  { destruct (String.eqb_spec (pac_PassthroughCredential ctx) "") as [Hp|Hp];
      destruct (String.eqb_spec (scheme_DefaultCredential scheme) "") as [Hd|Hd];
      simpl; apply String.eqb_neq; try done. by destruct Hc. }
  split.
  - by repeat case_match.
  - intros Ht Hi. unfold ValidateSecurityScheme in Hv. rewrite Ht in Hv. simpl in Hv.
    apply String.eqb_neq in Hi. rewrite Ht, Hi in *. simpl in *.
    destruct (String.eqb (scheme_ID scheme) ""); [done|].
    destruct (String.eqb (scheme_Name scheme) ""); [done|].
    destruct (String.eqb_spec (scheme_In scheme) "query") as [Hq|Hq]; [by split; [left|]|].
    destruct (String.eqb_spec (scheme_In scheme) "cookie") as [Hk|Hk]; [by split; [right|]|].
    done.
Qed.

Lemma validated_scheme_outside_header_not_applied_witness :
  ValidateSecurityScheme cookieKeyScheme = None ∧
  ApplyAuthentication cookieKeyServer cookieKeyContext "CookieKey" = (None, cookieKeyContext).
Proof.
  split; [reflexivity|].
  refine (proj2 (proj2 (validated_scheme_outside_header_not_applied cookieKeyServer
            cookieKeyContext cookieKeyScheme eq_refl eq_refl _) eq_refl _)).
  - left. discriminate.
  - discriminate.
Defined.

(** ** Runs of the protocol handler *)

Section RunFacts.
Context `{Env}.

Lemma logs_summary (pre : list Effect) :
  Forall is_log pre →
  omap callOf pre = [] ∧ omap registered pre = [] ∧
  List.filter is_reply pre = [] ∧ List.filter is_resume pre = [].
Proof.
  induction 1 as [|e pre He _ (IH1 & IH2 & IH3 & IH4)]; [done|].
  by destruct e.
Qed.

Lemma ends_summary (resumed : bool) :
  omap callOf (ends resumed) = [] ∧ omap registered (ends resumed) = [] ∧
  List.filter is_reply (ends resumed) = [] ∧
  List.filter is_resume (ends resumed) = ends resumed.
Proof. by destruct resumed. Qed.

Lemma callOf_registered (e : Effect) (body : json) (cb : Callback) :
  callOf e = Some (body, cb) →
  is_reply e = false ∧ is_resume e = false ∧
  (registered e = Some cb ∨ registered e = None).
Proof.
  destruct e; try done; simpl; intros [= <- <-]; repeat split; try done.
  - destruct (client_Post _ _ _ _); auto.
  - destruct (ctx_RouteCall _ _ _ _); auto.
Qed.

Lemma reply_not_call (e : Effect) :
  is_reply e = true → callOf e = None ∧ registered e = None ∧ is_resume e = false.
Proof. by destruct e. Qed.

Lemma final_frame_reply (e : Effect) :
  final_frame e → is_reply e = true ∧ error_is_internal e.
Proof. by destruct e. Qed.

(** What a trace that answers the client amounts to. *)
Lemma reply_shape_facts (resumed : bool) (trace : list Effect) :
  reply_shape resumed trace →
  omap callOf trace = [] ∧ omap registered trace = [] ∧
  List.length (List.filter is_reply trace) = 1%nat ∧
  List.filter is_resume trace = ends resumed.
Proof.
  intros (pre & e & -> & (Hc & Hr & Hf & Hs)%logs_summary & [He _]%final_frame_reply).
  destruct (reply_not_call e He) as (Hec & Her & Hes).
  destruct (ends_summary resumed) as (Hc' & Hr' & Hf' & Hs').
  change (pre ++ e :: ends resumed)%list with (pre ++ [e] ++ ends resumed)%list.
  rewrite !omap_app, !List.filter_app, Hc, Hr, Hf, Hs, Hc', Hr', Hf', Hs'. simpl.
  rewrite Hec, Her, He, Hes. done.
Qed.

(** What a trace that sends a request amounts to. *)
Lemma call_shape_facts (resumed : bool) (body : json) (cb' : Callback)
    (trace : list Effect) :
  call_shape resumed body cb' trace →
  omap callOf trace = [(body, cb')] ∧
  List.filter is_resume trace = ends resumed ∧
  ((omap registered trace = [cb'] ∧ List.filter is_reply trace = []) ∨
   (omap registered trace = [] ∧ List.length (List.filter is_reply trace) = 1%nat)).
Proof.
  intros (pre & call & tail & -> & (Hc & Hr & Hf & Hs)%logs_summary & Hcall & Htail).
  destruct (callOf_registered call body cb' Hcall) as (Hcr & Hcs & Hreg).
  destruct (ends_summary resumed) as (Hc' & Hr' & Hf' & Hs').
  change (pre ++ call :: tail ++ ends resumed)%list
    with (pre ++ [call] ++ tail ++ ends resumed)%list.
  rewrite !omap_app, !List.filter_app, Hc, Hr, Hf, Hs, Hc', Hr', Hf', Hs'.
  destruct (registered call) as [cb''|] eqn:Hrc.
  - subst tail. simpl. rewrite Hcall, Hrc, Hcr, Hcs.
    destruct Hreg as [[= ->]|?]; [|done]. split; [done|]. split; [done|]. by left.
  - destruct Htail as (l & e & -> & Hl & [He _]%final_frame_reply).
    destruct (reply_not_call e He) as (Hec & Her & Hes).
    destruct l; try done. simpl. rewrite Hcall, Hrc, Hcr, Hcs, Hec, Her, He, Hes. simpl.
    split; [done|]. split; [done|]. by right.
Qed.

Lemma serve_no_pending (responses : list BackendResponse) (st : State) :
  serve responses [] st = Some (st, []).
Proof. by destruct responses. Qed.

(** [sendMcpRequest] posts the body once, after log lines only, and leaves
    the state alone. *)
Lemma sendMcpRequest_posts (body : json) (authInfo : option ProxyAuthInfo)
    (callback : Callback) (st : State) :
  ∃ url headers pre,
    sendMcpRequest body authInfo callback st
    = Some (client_Post url headers body (effectiveTimeout (handler st)), st,
            (pre ++ [EPost url headers body (effectiveTimeout (handler st)) callback])%list) ∧
    Forall is_log pre.
Proof.
  unfold sendMcpRequest.
  destruct (authenticate_total authInfo
              "Failed to apply authentication for MCP request: %v"
              "Using modified URL for MCP request: %s"
              (requestHeaders (handler st)) st) as (url & hs & pre & Ha & Hpre).
  exists url, hs, pre. split; [|done].
  unfold mbind, M_mbind, M_bind, get_handler, M_ret, emit.
  rewrite Ha. simpl. done.
Qed.

(** Every run of [wrapBackendError] ends with one reply, after log lines
    only. *)
Lemma wrapBackendError_replies (body : option json) (st : State) :
  ∃ pre e,
    wrapBackendError body st = Some (tt, st, (pre ++ [e])%list) ∧
    Forall is_log pre ∧ final_frame e.
Proof.
  unfold wrapBackendError.
  destruct (Unmarshal_map body) as [err|response].
  { eexists [_], _. unfold_M. simpl. split; [done|]. by repeat constructor. }
  destruct (Unmarshal_map (Some (Marshal (VMap (addSourceAttribution response)))))
    as [err|wrapped].
  { eexists [_], _. unfold_M. simpl. split; [done|]. by repeat constructor. }
  destruct (wrapped !! "result") as [[]|]; eexists [], _; unfold_M; simpl; done.
Qed.

Lemma onToolsCallResponse_replies (toolName : string) (statusCode : Z)
    (hdrs : list (string * string)) (body : option json) (st : State) :
  ∃ pre e,
    onToolsCallResponse toolName statusCode hdrs body st = Some (tt, st, (pre ++ [e])%list) ∧
    Forall is_log pre ∧ final_frame e.
Proof.
  unfold onToolsCallResponse. destruct (negb (statusCode =? 200)).
  { eexists [_], _. unfold_M. simpl. split; [done|]. by repeat constructor. }
  match goal with |- context [if ?b then _ else _] => destruct b end.
  - destruct (wrapBackendError_replies body st) as (pre & e & Hw & Hpre & He).
    exists (ELog LWarn "Backend reported tool call error for %s" :: pre), e.
    unfold mbind, M_mbind, M_bind, log, emit. rewrite Hw. simpl.
    split; [done|]. split; [|done]. by constructor.
  - destruct (Unmarshal_map body) as [err|response].
    { eexists [_], _. unfold_M. simpl. split; [done|]. by repeat constructor. }
    destruct (response !! "result") as [[]|]; eexists [], _; unfold_M; simpl; done.
Qed.

Lemma applyAllowToolsFilter_total (c : gmap string CtxVal) (resultMap : gmap string val) :
  absent_or_string (c !! "mcp_proxy_allow_tools_header") = true →
  is_Some (applyAllowToolsFilter c resultMap).
Proof.
  intros Ht. unfold applyAllowToolsFilter.
  destruct (c !! "mcp_proxy_allow_tools_header") as [[]|]; try done.
  - destruct (_ && _); [by eauto|]. destruct (resultMap !! "tools") as [[]|]; eauto.
  - destruct (_ && _); [by eauto|]. destruct (resultMap !! "tools") as [[]|]; eauto.
Qed.

Lemma onToolsListResponse_replies (statusCode : Z) (hdrs : list (string * string))
    (body : option json) (st : State) :
  absent_or_string (ctx st !! "mcp_proxy_allow_tools_header") = true →
  ∃ pre e,
    onToolsListResponse statusCode hdrs body st = Some (tt, st, (pre ++ [e])%list) ∧
    Forall is_log pre ∧ final_frame e.
Proof.
  intros Ht. unfold onToolsListResponse. destruct (negb (statusCode =? 200)).
  { eexists [_], _. unfold_M. simpl. split; [done|]. by repeat constructor. }
  destruct (Unmarshal_map body) as [err|response].
  { eexists [_], _. unfold_M. simpl. split; [done|]. by repeat constructor. }
  destruct (response !! "result") as [[| | | | | |resultMap]|];
    try (eexists [], _; unfold_M; simpl; done).
  destruct (applyAllowToolsFilter_total (ctx st) resultMap Ht) as [filtered ->].
  eexists [], _; unfold_M; simpl; done.
Qed.

End RunFacts.

Section CallbackSteps.
Context `{Env}.

Lemma ctx_fresh_insert (c : gmap string CtxVal) (key : string) (v : CtxVal) :
  (key = "mcp_proxy_cursor" ∨ key = CtxMcpProxySessionID ∨
   key = "mcp_proxy_allow_tools_header" → ∃ s, v = CString s) →
  ctx_fresh c = true → ctx_fresh (<[key := v]> c) = true.
Proof.
  intros Hs. unfold ctx_fresh. rewrite !andb_true_iff. intros [[Hc Hi] Hh].
  assert (∀ k, absent_or_string (c !! k) = true →
               (key = k → ∃ s, v = CString s) →
               absent_or_string (<[key := v]> c !! k) = true) as Hk.
  { intros k Hck Hv. destruct (decide (key = k)) as [e|ne].
    - destruct (Hv e) as [s ->]. by rewrite e, lookup_insert_eq.
    - by rewrite lookup_insert_ne. }
  repeat split; apply Hk; auto.
Qed.

Lemma ctx_ready_insert (c : gmap string CtxVal) (key : string) (v : CtxVal) :
  key ≠ CtxMcpProxyOperation → key ≠ CtxMcpProxyToolName →
  key ≠ CtxMcpProxyToolArgs →
  (key = "mcp_proxy_cursor" ∨ key = CtxMcpProxySessionID ∨
   key = "mcp_proxy_allow_tools_header" → ∃ s, v = CString s) →
  ctx_ready c = true → ctx_ready (<[key := v]> c) = true.
Proof.
  intros H3 H4 H5 Hs. unfold ctx_ready.
  rewrite (lookup_insert_ne c key CtxMcpProxyOperation) by done.
  rewrite (lookup_insert_ne c key CtxMcpProxyToolName) by done.
  rewrite (lookup_insert_ne c key CtxMcpProxyToolArgs) by done.
  rewrite !andb_true_iff. intros [Hf Ho]. split; [|done].
  rewrite <- !andb_true_iff. apply (ctx_fresh_insert c key v Hs).
  unfold ctx_fresh. by rewrite !andb_true_iff.
Qed.

(** The facts that [ctx_ready] holds about a context. *)
Lemma ctx_ready_inv (c : gmap string CtxVal) :
  ctx_ready c = true →
  (∃ cursor, c !! "mcp_proxy_cursor" = CString <$> cursor) ∧
  absent_or_string (c !! CtxMcpProxySessionID) = true ∧
  absent_or_string (c !! "mcp_proxy_allow_tools_header") = true ∧
  ∃ op, c !! CtxMcpProxyOperation = Some (COperation op) ∧
        (op = OpToolsCall →
         ∃ toolName arguments,
           c !! CtxMcpProxyToolName = Some (CString toolName) ∧
           c !! CtxMcpProxyToolArgs = Some (CArguments arguments)).
Proof.
  unfold ctx_ready.
  intros (((Hc & Hs)%andb_true_iff & Hh)%andb_true_iff & Ho)%andb_true_iff.
  split; [|split; [done|split; [done|]]].
  - destruct (c !! "mcp_proxy_cursor") as [[]|]; try done.
    + by eexists (Some _).
    + by exists None.
  - destruct (c !! CtxMcpProxyOperation) as [[| |op| | | |]|]; try done.
    exists op. split; [done|]. intros ->. simpl in Ho.
    destruct (c !! CtxMcpProxyToolName) as [[]|]; try done.
    destruct (c !! CtxMcpProxyToolArgs) as [[]|]; try done. eauto.
Qed.

(** The request that is pending depends on four keys of the context. *)
Lemma pendingRequest_frame (c c' : gmap string CtxVal) :
  (∀ k, k ≠ CtxMcpProxyInitialized → k ≠ CtxMcpProxySessionID → c' !! k = c !! k) →
  pendingRequest c' = pendingRequest c.
Proof.
  intros Hk. unfold pendingRequest.
  rewrite (Hk CtxMcpProxyOperation), (Hk "mcp_proxy_cursor"),
    (Hk CtxMcpProxyToolName), (Hk CtxMcpProxyToolArgs) by done.
  done.
Qed.

Lemma requestsAfter_frame (cb : Callback) (c c' : gmap string CtxVal) :
  (∀ k, k ≠ CtxMcpProxyInitialized → k ≠ CtxMcpProxySessionID → c' !! k = c !! k) →
  requestsAfter cb c' = requestsAfter cb c.
Proof.
  intros Hk. unfold requestsAfter, nextCall.
  rewrite (pendingRequest_frame c c' Hk). done.
Qed.

(** The callback of the notification: from a ready context it marks the
    initialization as complete and either sends the pending request or
    answers the client; the resumption of the client request is its last
    effect. *)
Lemma onInitializedResponse_step (statusCode : Z) (hdrs : list (string * string))
    (body : option json) (st : State) :
  ctx_ready (ctx st) = true →
  ∃ trace,
    onInitializedResponse statusCode hdrs body st
    = Some (tt, {| ctx := <[CtxMcpProxyInitialized := CBool true]> (ctx st);
                   handler := handler st |}, trace) ∧
    (reply_shape true trace ∨
     ∃ request cb', pendingRequest (ctx st) = Some (request, cb') ∧
                    call_shape true request cb' trace).
Proof.
  intros Hr. destruct (ctx_ready_inv _ Hr) as ((cursor & Hc) & _ & _ & op & Hop & Hcall).
  set (st1 := {| ctx := <[CtxMcpProxyInitialized := CBool true]> (ctx st);
                 handler := handler st |}).
  assert (∃ l, (if negb (statusCode =? 200)
                then log LWarn "Initialized notification failed with status %d: %s"
                else log LDebug "MCP initialization completed successfully") st
               = Some (tt, st, [l]) ∧ is_log l) as (l & Hl & Hll).
  { destruct (negb (statusCode =? 200)); eexists; split; done. }
  unfold onInitializedResponse.
  unfold mbind, M_mbind, M_bind. rewrite Hl.
  unfold SetContext, GetContext. simpl. fold st1.
  rewrite lookup_insert_ne, Hop by done.
  unfold pendingRequest. rewrite Hop.
  destruct (String.eqb op OpToolsList) eqn:El.
  - destruct (executeToolsList_calls cursor st1) as (url & hs & pre & He & Hpre).
    { simpl. by rewrite lookup_insert_ne. }
    rewrite He. unfold log, emit, OnMCPResponseError, M_ret.
    set (request := Marshal (VMap (createToolsListRequest cursor))).
    exists ((l :: pre) ++ ERouteCall "POST" url hs request CbToolsList ::
              match ctx_RouteCall "POST" url hs request with
              | Some err => [ELog LError "Failed to execute tools/list: %v";
                             EResponseError err ErrInternalError
                               "mcp-proxy:tools/list:execution_error"]
              | None => []
              end ++ ends true)%list.
    split.
    + destruct (ctx_RouteCall "POST" url hs request); simpl; by rewrite <- ?app_assoc.
    + right. exists request, CbToolsList. split.
      { rewrite Hc. by destruct cursor. }
      eexists (l :: pre), _, _. split; [done|]. split; [by constructor|]. split; [done|].
      simpl. destruct (ctx_RouteCall "POST" url hs request); [|done].
      by eexists _, _.
  - destruct (String.eqb op OpToolsCall) eqn:Ec.
    + apply String.eqb_eq in Ec. destruct (Hcall Ec) as (toolName & arguments & Hn & Ha).
      destruct (executeToolsCall_calls toolName arguments st1)
        as (url & hs & pre & He & Hpre).
      { simpl. by rewrite lookup_insert_ne. }
      { simpl. by rewrite lookup_insert_ne. }
      rewrite He. unfold log, emit, OnMCPResponseError, M_ret.
      set (request := Marshal (VMap (createToolsCallRequest toolName arguments))).
      exists ((l :: pre) ++ ERouteCall "POST" url hs request (CbToolsCall toolName) ::
                match ctx_RouteCall "POST" url hs request with
                | Some err => [ELog LError "Failed to execute tools/call: %v";
                               EResponseError err ErrInternalError
                                 "mcp-proxy:tools/call:execution_error"]
                | None => []
                end ++ ends true)%list.
      split.
      * destruct (ctx_RouteCall "POST" url hs request); simpl; by rewrite <- ?app_assoc.
      * right. exists request, (CbToolsCall toolName). split; [by rewrite Hn, Ha|].
        eexists (l :: pre), _, _. split; [done|]. split; [by constructor|]. split; [done|].
        simpl. destruct (ctx_RouteCall "POST" url hs request); [|done].
        by eexists _, _.
    + unfold log, emit, OnMCPResponseError. simpl. eexists. split; [done|]. left.
      eexists [l; ELog LWarn "Unknown MCP proxy operation: %v"], _.
      split; [done|]. split; [by repeat constructor|done].
Qed.

(** The comparison of the error code of an initialize response with the
    constant -32602 fails on every decoded body. *)
Lemma version_check_decoded (body : option json) (response : gmap string val)
    (errorObj : val) :
  Unmarshal_map body = inr response → response !! "error" = Some errorObj →
  match errorObj with
  | VMap errorMap =>
      match errorMap !! "code" with
      | Some code => iface_eq_int code (-32602)
      | None => false
      end
  | _ => false
  end = false.
Proof.
  intros Hbody Herr.
  assert (∃ j, errorObj = Unmarshal j) as [j ->].
  { destruct body as [[| | | | |m]|]; try done; injection Hbody as <-.
    - by rewrite lookup_empty in Herr.
    - rewrite lookup_fmap in Herr. destruct (m !! "error") as [j|]; [|done].
      injection Herr as <-. by exists j. }
  destruct j as [| | | | |m]; try done. simpl.
  rewrite lookup_fmap. destruct (m !! "code"); simpl; [|done].
  apply iface_eq_int_decoded.
Qed.

(** [sendInitializedNotification] posts the notification; the client
    hears of it only when the host refuses the call. *)
Lemma sendInitializedNotification_step (authInfo : option ProxyAuthInfo) (st : State) :
  ∃ trace,
    sendInitializedNotification authInfo st = Some (tt, st, trace) ∧
    call_shape false (Marshal (VMap initializedNotification)) CbInitialized trace.
Proof.
  unfold sendInitializedNotification.
  destruct (sendMcpRequest_posts (Marshal (VMap initializedNotification)) authInfo
              CbInitialized st) as (url & hs & pre & Hs & Hpre).
  unfold mbind, M_mbind, M_bind. rewrite Hs.
  unfold log, emit, OnMCPResponseError, M_ret.
  set (request := Marshal (VMap initializedNotification)).
  set (t := effectiveTimeout (handler st)).
  exists (pre ++ EPost url hs request t CbInitialized ::
            match client_Post url hs request t with
            | Some err =>
                [ELog LError "Failed to send initialized notification: %v";
                 EResponseError err ErrInternalError
                   "mcp-proxy:notifications/initialized:send_error"]
            | None => []
            end ++ ends false)%list.
  split.
  - destruct (client_Post url hs request t); simpl; by rewrite <- ?app_assoc, ?app_nil_r.
  - eexists pre, _, _. split; [done|]. split; [done|]. split; [done|].
    simpl. destruct (client_Post url hs request t); [|done]. by eexists _, _.
Qed.

Lemma call_shape_logs (resumed : bool) (request : json) (cb' : Callback)
    (logs trace : list Effect) :
  Forall is_log logs → call_shape resumed request cb' trace →
  call_shape resumed request cb' (logs ++ trace).
Proof.
  intros Hlogs (pre & call & tail & -> & Hpre & Hcall & Htail).
  exists (logs ++ pre)%list, call, tail. rewrite <- app_assoc.
  split; [done|]. split; [by apply Forall_app|]. done.
Qed.

(** The callback of initialize: from a ready context it either answers the
    client or stores the session id, when the backend gave one, and posts
    the notification. *)
Lemma onInitializeResponse_step (authInfo : option ProxyAuthInfo) (statusCode : Z)
    (hdrs : list (string * string)) (body : option json) (st : State) :
  ctx_ready (ctx st) = true →
  ∃ st' trace,
    onInitializeResponse authInfo statusCode hdrs body st = Some (tt, st', trace) ∧
    ctx_ready (ctx st') = true ∧
    (∀ k, k ≠ CtxMcpProxySessionID → ctx st' !! k = ctx st !! k) ∧
    (reply_shape false trace ∨
     call_shape false (Marshal (VMap initializedNotification)) CbInitialized trace).
Proof.
  intros Hr. unfold onInitializeResponse.
  assert (∀ l e, is_log l → final_frame e →
            ctx_ready (ctx st) = true ∧
            (∀ k, k ≠ CtxMcpProxySessionID → ctx st !! k = ctx st !! k) ∧
            (reply_shape false [l; e] ∨
             call_shape false (Marshal (VMap initializedNotification)) CbInitialized [l; e]))
    as Hreply.
  { intros l e Hl He. split; [done|]. split; [done|]. left.
    exists [l], e. split; [done|]. split; [by repeat constructor|done]. }
  destruct (negb (statusCode =? 200)).
  { eexists st, [_; _]. split; [by unfold_M|]. by apply Hreply. }
  destruct (Unmarshal_map body) as [err|response] eqn:Hbody.
  { eexists st, [_; _]. split; [by unfold_M|]. by apply Hreply. }
  destruct (response !! "error") as [errorObj|] eqn:Herr.
  { rewrite (version_check_decoded body response errorObj Hbody Herr).
    eexists st, [_; _]. split; [by unfold_M|]. by apply Hreply. }
  assert (∃ st2 logs,
            match findSessionID hdrs with
            | Some sid =>
                set_sessionID sid ;;
                SetContext CtxMcpProxySessionID (CString sid) ;;
                log LInfo "Received MCP session ID: %s"
            | None => M_ret tt
            end st = Some (tt, st2, logs) ∧
            ctx_ready (ctx st2) = true ∧
            (∀ k, k ≠ CtxMcpProxySessionID → ctx st2 !! k = ctx st !! k) ∧
            Forall is_log logs) as (st2 & logs & Hm & Hr2 & Hk & Hlogs).
  { destruct (findSessionID hdrs) as [sid|].
    - eexists _, [_]. unfold_M. simpl. split; [done|]. split; [|split].
      + apply ctx_ready_insert; eauto; done.
      + intros k Hne. simpl. by rewrite lookup_insert_ne.
      + by repeat constructor.
    - eexists st, []. by unfold_M. }
  destruct (sendInitializedNotification_step authInfo st2) as (trace & Hn & Hshape).
  unfold mbind, M_mbind, M_bind in *. rewrite Hm, Hn.
  eexists st2, _. split; [done|]. split; [done|]. split; [done|].
  right. by apply call_shape_logs.
Qed.

(** Every callback, run on a ready context, returns; it keeps the context
    ready and the pending request in place, resumes the client request
    exactly when it is the callback of the notification, and either
    answers the client or sends the request that comes next. *)
Lemma runCallback_step (cb : Callback) (statusCode : Z) (hdrs : list (string * string))
    (body : option json) (st : State) :
  ctx_ready (ctx st) = true →
  ∃ st' trace,
    runCallback cb statusCode hdrs body st = Some (tt, st', trace) ∧
    ctx_ready (ctx st') = true ∧
    (∀ k, k ≠ CtxMcpProxyInitialized → k ≠ CtxMcpProxySessionID →
          ctx st' !! k = ctx st !! k) ∧
    let resumed := match cb with CbInitialized => true | _ => false end in
    (reply_shape resumed trace ∨
     ∃ request cb', nextCall cb (ctx st) = Some (request, cb') ∧
                    call_shape resumed request cb' trace).
Proof.
  intros Hr. destruct cb as [authInfo| | |toolName]; simpl.
  - destruct (onInitializeResponse_step authInfo statusCode hdrs body st Hr)
      as (st' & trace & Hrun & Hr' & Hk & Hshape).
    exists st', trace. split; [done|]. split; [done|]. split; [by auto|].
    destruct Hshape as [?|?]; [by left|right; eauto].
  - destruct (onInitializedResponse_step statusCode hdrs body st Hr) as (trace & Hrun & Hshape).
    eexists _, trace. split; [done|]. split; [|split; [|done]].
    + simpl. apply ctx_ready_insert; try done. by intros [?|[?|?]].
    + intros k Hk _. simpl. by rewrite lookup_insert_ne.
  - destruct (ctx_ready_inv _ Hr) as (_ & _ & Hh & _).
    destruct (onToolsListResponse_replies statusCode hdrs body st Hh)
      as (pre & e & Hrun & Hpre & He).
    exists st, (pre ++ [e])%list. split; [done|]. split; [done|]. split; [done|].
    left. by exists pre, e.
  - destruct (onToolsCallResponse_replies toolName statusCode hdrs body st)
      as (pre & e & Hrun & Hpre & He).
    exists st, (pre ++ [e])%list. split; [done|]. split; [done|]. split; [done|].
    left. by exists pre, e.
Qed.

End CallbackSteps.

Section ServeRuns.
Context `{Env}.

Lemma requestBodies_app (t1 t2 : list Effect) :
  requestBodies (t1 ++ t2) = (requestBodies t1 ++ requestBodies t2)%list.
Proof. unfold requestBodies. by rewrite omap_app, fmap_app. Qed.

(** The request a callback sends is one step nearer to the reply. *)
Lemma nextCall_steps (cb cb' : Callback) (c : gmap string CtxVal) (request : json) :
  nextCall cb c = Some (request, cb') →
  stepsLeft cb = S (stepsLeft cb') ∧
  requestsAfter cb c = request :: requestsAfter cb' c ∧
  match cb with
  | CbInitialize _ => cb' = CbInitialized
  | _ => stepsLeft cb' = 1%nat
  end.
Proof.
  assert (∀ request' cb'', pendingRequest c = Some (request', cb'') →
            stepsLeft cb'' = 1%nat ∧ nextCall cb'' c = None) as Hp.
  { unfold pendingRequest. intros request' cb''.
    repeat case_match; try done; by intros [= <- <-]. }
  unfold requestsAfter. destruct cb as [authInfo| | |toolName]; simpl; try done.
  - intros [= <- <-]. simpl. split; [done|]. split; [|done].
    destruct (pendingRequest c) as [[request' cb'']|]; [|done].
    destruct (Hp _ _ eq_refl) as [_ ->]. done.
  - intros Ep. rewrite Ep. destruct (Hp _ _ Ep) as [-> ->]. done.
Qed.

(** The backend responses, served to a callback that waits on a ready
    context: the run returns; the client is answered at most once, and once
    when there are as many responses as the callback has steps left; the
    client request is resumed at most once, and only by the callback of
    the notification; the requests sent are the first of those that follow
    the callback. *)
Lemma serve_run (responses : list BackendResponse) (cb : Callback) (st : State) :
  ctx_ready (ctx st) = true →
  ∃ st' trace,
    serve responses [cb] st = Some (st', trace) ∧
    (List.length (List.filter is_reply trace) ≤ 1)%nat ∧
    ((stepsLeft cb ≤ List.length responses)%nat →
     List.length (List.filter is_reply trace) = 1%nat) ∧
    (List.length (List.filter is_resume trace) ≤ 1)%nat ∧
    ((0 < List.length (List.filter is_resume trace))%nat →
     (2 ≤ stepsLeft cb ≤ List.length responses + 1)%nat) ∧
    requestBodies trace `prefix_of` requestsAfter cb (ctx st).
Proof.
  revert cb st. induction responses as [|r responses IH]; intros cb st Hr.
  { exists st, []. simpl. split; [done|]. split; [lia|]. split; [by destruct cb; simpl; lia|].
    split; [lia|]. split; [lia|]. apply prefix_nil. }
  destruct (runCallback_step cb (resp_status r) (resp_headers r) (resp_body r) st Hr)
    as (st1 & trace1 & Hrun & Hr1 & Hk & Hshape).
  cbn [serve]. rewrite Hrun. cbv zeta in Hshape.
  assert (List.length (ends match cb with CbInitialized => true | _ => false end)
          = match cb with CbInitialized => 1%nat | _ => 0%nat end) as Hends
    by (by destruct cb).
  destruct Hshape as [Hshape|(request & cb' & Hnext & Hshape)].
  - apply reply_shape_facts in Hshape as (Hc & Hreg & Hf & Hs).
    rewrite Hreg. simpl. rewrite serve_no_pending.
    exists st1, (trace1 ++ [])%list. rewrite app_nil_r. split; [done|].
    split; [lia|]. split; [done|]. rewrite Hs, Hends. split; [|split].
    + destruct cb; simpl; lia.
    + destruct cb; simpl; lia.
    + unfold requestBodies. rewrite Hc. apply prefix_nil.
  - apply call_shape_facts in Hshape as (Hc & Hs & Hcase).
    destruct (nextCall_steps cb cb' (ctx st) request Hnext) as (Hsteps & Hafter & Hcb').
    assert (requestBodies trace1 = [request]) as Hb by (unfold requestBodies; by rewrite Hc).
    destruct Hcase as [[Hreg Hf]|[Hreg Hf]]; rewrite Hreg; simpl.
    + destruct (IH cb' st1 Hr1)
        as (st2 & trace2 & Hserve & Hle & Hlive & Hres & Hwhen & Hpre).
      rewrite Hserve. exists st2, (trace1 ++ trace2)%list. split; [done|].
      rewrite !List.filter_app, !length_app, Hf, Hs, Hends, requestBodies_app, Hb, Hafter.
      simpl. split; [done|]. split; [intros ?; apply Hlive; lia|].
      split; [|split].
      * destruct cb; simpl in *; lia.
      * destruct cb; simpl in *; lia.
      * apply prefix_cons. by rewrite <- (requestsAfter_frame cb' (ctx st) (ctx st1)).
    + rewrite serve_no_pending. exists st1, (trace1 ++ [])%list. rewrite app_nil_r.
      split; [done|]. split; [lia|]. split; [done|]. rewrite Hs, Hends. split; [|split].
      * destruct cb; simpl; lia.
      * destruct cb; simpl in *; lia.
      * rewrite Hb, Hafter. apply prefix_cons, prefix_nil.
Qed.

End ServeRuns.

Section Entries.
Context `{Env}.

(** [Initialize] on a context that is not marked initialized posts the
    initialize request, after log lines only. *)
Lemma Initialize_sends (authInfo : option ProxyAuthInfo) (st : State) :
  ctx st !! CtxMcpProxyInitialized = None →
  ∃ err pre call,
    Initialize authInfo st = Some (err, st, (pre ++ [call])%list) ∧
    Forall is_log pre ∧
    callOf call = Some (Marshal (VMap createInitializeRequest), CbInitialize authInfo) ∧
    registered call = match err with
                      | None => Some (CbInitialize authInfo)
                      | Some _ => None
                      end.
Proof.
  intros Hi. unfold Initialize.
  destruct (sendMcpRequest_posts (Marshal (VMap createInitializeRequest)) authInfo
              (CbInitialize authInfo) st) as (url & hs & pre & Hs & Hpre).
  unfold mbind, M_mbind, M_bind, log, emit, GetContext. rewrite Hi.
  rewrite Hs. eexists _, (_ :: pre), _. split; [done|]. split; [by constructor|].
  split; [done|]. simpl. by destruct (client_Post _ _ _ _).
Qed.

(** [ForwardToolsList] on a fresh context stores the operation and the
    cursor and sends one request, after log lines only: the tools/list
    request itself when the context is marked initialized, the initialize
    request otherwise; the error it returns is the host's refusal of that
    call. *)
Lemma ForwardToolsList_entry (cursor : option string) (authInfo : option ProxyAuthInfo)
    (st : State) :
  ctx_fresh (ctx st) = true →
  ∃ err st' pre call request cb,
    ForwardToolsList cursor authInfo st = Some (err, st', (pre ++ [call])%list) ∧
    Forall is_log pre ∧
    callOf call = Some (request, cb) ∧
    registered call = match err with None => Some cb | Some _ => None end ∧
    ctx_ready (ctx st') = true ∧
    pendingRequest (ctx st')
    = Some (Marshal (VMap (createToolsListRequest
                             match cursor with
                             | Some c => Some c
                             | None =>
                                 match ctx st !! "mcp_proxy_cursor" with
                                 | Some (CString c) => Some c
                                 | _ => None
                                 end
                             end)), CbToolsList) ∧
    match ctx st !! CtxMcpProxyInitialized with
    | Some _ => pendingRequest (ctx st') = Some (request, cb)
    | None => request = Marshal (VMap createInitializeRequest) ∧ cb = CbInitialize authInfo
    end.
Proof.
  intros Hf.
  set (c1 := <[CtxMcpProxyOperation := COperation OpToolsList]> (ctx st)).
  set (c2 := match cursor with
             | Some c => <["mcp_proxy_cursor" := CString c]> c1
             | None => c1
             end).
  set (c3 := match authInfo with
             | Some a => <["mcp_proxy_auth_info" := CAuthInfo a]> c2
             | None => c2
             end).
  set (st1 := {| ctx := c3; handler := handler st |}).
  set (cursor' := match cursor with
                  | Some c => Some c
                  | None =>
                      match ctx st !! "mcp_proxy_cursor" with
                      | Some (CString c) => Some c
                      | _ => None
                      end
                  end).
  assert (ForwardToolsList cursor authInfo st
          = match (match ctx st !! CtxMcpProxyInitialized with
                   | Some _ => executeToolsList st1
                   | None => Initialize authInfo st1
                   end) with
            | None => None
            | Some (err, st2, trace) =>
                Some (err, st2, ELog LDebug "Forwarding tools/list request to %s" :: trace)
            end) as ->.
  { unfold ForwardToolsList, mbind, M_mbind, M_bind, log, emit, SetContext, GetContext, M_ret.
    subst st1 c3 c2 c1. destruct cursor, authInfo; simpl;
      rewrite ?lookup_insert_ne by done;
      destruct (ctx st !! CtxMcpProxyInitialized);
      repeat match goal with
             | |- context [match ?x with _ => _ end] =>
                 lazymatch x with
                 | executeToolsList _ => destruct x as [[[? ?] ?]|]
                 | Initialize _ _ => destruct x as [[[? ?] ?]|]
                 end
             end; simpl; rewrite ?app_nil_r; done. }
  assert (ctx_fresh c3 = true) as Hf3.
  { subst c3 c2 c1. destruct cursor, authInfo;
      repeat (apply ctx_fresh_insert; [intros [?|[?|?]]; try done; eauto|]); done. }
  assert (c3 !! CtxMcpProxyOperation = Some (COperation OpToolsList)) as Hop.
  { subst c3 c2 c1. destruct cursor, authInfo;
      rewrite ?lookup_insert_ne by done; by rewrite lookup_insert_eq. }
  assert (c3 !! "mcp_proxy_cursor" = CString <$> cursor') as Hcur.
  { subst c3 c2 c1 cursor'. unfold ctx_fresh in Hf.
    destruct cursor, authInfo; rewrite ?lookup_insert_ne by done;
      rewrite ?lookup_insert_eq; try done;
      by destruct (ctx st !! "mcp_proxy_cursor") as [[]|]. }
  assert (ctx_ready c3 = true) as Hr3.
  { unfold ctx_ready. rewrite Hop. simpl. unfold ctx_fresh in Hf3. by rewrite Hf3. }
  assert (pendingRequest c3
          = Some (Marshal (VMap (createToolsListRequest cursor')), CbToolsList)) as Hp.
  { unfold pendingRequest. rewrite Hop, Hcur. simpl. by destruct cursor'. }
  destruct (ctx st !! CtxMcpProxyInitialized) as [v|] eqn:Hi.
  - destruct (executeToolsList_calls cursor' st1 Hcur) as (url & hs & pre & -> & Hpre).
    eexists _, st1, (_ :: pre), _, _, _. split; [done|]. split; [by constructor|].
    split; [done|]. split; [simpl; by destruct (ctx_RouteCall _ _ _ _)|].
    split; [done|]. split; done.
  - destruct (Initialize_sends authInfo st1) as (err & pre & call & -> & Hpre & Hcall & Hreg).
    { subst st1 c3 c2 c1. simpl. destruct cursor, authInfo;
        by rewrite ?lookup_insert_ne by done. }
    eexists err, st1, (_ :: pre), call, _, _. split; [done|]. split; [by constructor|].
    split; [done|]. split; [done|]. split; [done|]. split; done.
Qed.

(** [ForwardToolsCall] on a fresh context stores the operation, the tool
    name and the arguments and sends one request, after log lines only:
    the tools/call request itself when the context is marked initialized,
    the initialize request otherwise. *)
Lemma ForwardToolsCall_entry (toolName : string) (arguments : gmap string val)
    (authInfo : option ProxyAuthInfo) (st : State) :
  ctx_fresh (ctx st) = true →
  ∃ err st' pre call request cb,
    ForwardToolsCall toolName arguments authInfo st = Some (err, st', (pre ++ [call])%list) ∧
    Forall is_log pre ∧
    callOf call = Some (request, cb) ∧
    registered call = match err with None => Some cb | Some _ => None end ∧
    ctx_ready (ctx st') = true ∧
    pendingRequest (ctx st')
    = Some (Marshal (VMap (createToolsCallRequest toolName arguments)),
            CbToolsCall toolName) ∧
    match ctx st !! CtxMcpProxyInitialized with
    | Some _ => pendingRequest (ctx st') = Some (request, cb)
    | None => request = Marshal (VMap createInitializeRequest) ∧ cb = CbInitialize authInfo
    end.
Proof.
  intros Hf.
  set (c1 := <[CtxMcpProxyToolArgs := CArguments arguments]>
             (<[CtxMcpProxyToolName := CString toolName]>
             (<[CtxMcpProxyOperation := COperation OpToolsCall]> (ctx st)))).
  set (c2 := match authInfo with
             | Some a => <["mcp_proxy_auth_info" := CAuthInfo a]> c1
             | None => c1
             end).
  set (st1 := {| ctx := c2; handler := handler st |}).
  assert (ForwardToolsCall toolName arguments authInfo st
          = match (match ctx st !! CtxMcpProxyInitialized with
                   | Some _ => executeToolsCall st1
                   | None => Initialize authInfo st1
                   end) with
            | None => None
            | Some (err, st2, trace) =>
                Some (err, st2,
                      ELog LDebug "Forwarding tools/call request for tool %s to %s" :: trace)
            end) as ->.
  { unfold ForwardToolsCall, mbind, M_mbind, M_bind, log, emit, SetContext, GetContext, M_ret.
    subst st1 c2 c1. destruct authInfo; simpl;
      rewrite ?lookup_insert_ne by done;
      destruct (ctx st !! CtxMcpProxyInitialized);
      repeat match goal with
             | |- context [match ?x with _ => _ end] =>
                 lazymatch x with
                 | executeToolsCall _ => destruct x as [[[? ?] ?]|]
                 | Initialize _ _ => destruct x as [[[? ?] ?]|]
                 end
             end; simpl; rewrite ?app_nil_r; done. }
  assert (ctx_fresh c2 = true) as Hf2.
  { subst c2 c1. destruct authInfo;
      repeat (apply ctx_fresh_insert; [intros [?|[?|?]]; try done; eauto|]); done. }
  assert (c2 !! CtxMcpProxyOperation = Some (COperation OpToolsCall)) as Hop.
  { subst c2 c1. destruct authInfo;
      rewrite ?lookup_insert_ne by done; by rewrite lookup_insert_eq. }
  assert (c2 !! CtxMcpProxyToolName = Some (CString toolName)) as Hname.
  { subst c2 c1. destruct authInfo;
      rewrite ?lookup_insert_ne by done; by rewrite lookup_insert_eq. }
  assert (c2 !! CtxMcpProxyToolArgs = Some (CArguments arguments)) as Hargs.
  { subst c2 c1. destruct authInfo;
      rewrite ?lookup_insert_ne by done; by rewrite lookup_insert_eq. }
  assert (ctx_ready c2 = true) as Hr2.
  { unfold ctx_ready. rewrite Hop, Hname, Hargs. simpl. unfold ctx_fresh in Hf2.
    by rewrite Hf2. }
  assert (pendingRequest c2
          = Some (Marshal (VMap (createToolsCallRequest toolName arguments)),
                  CbToolsCall toolName)) as Hp.
  { unfold pendingRequest. by rewrite Hop, Hname, Hargs. }
  destruct (ctx st !! CtxMcpProxyInitialized) as [v|] eqn:Hi.
  - destruct (executeToolsCall_calls toolName arguments st1 Hname Hargs)
      as (url & hs & pre & -> & Hpre).
    eexists _, st1, (_ :: pre), _, _, _. split; [done|]. split; [by constructor|].
    split; [done|]. split; [simpl; by destruct (ctx_RouteCall _ _ _ _)|].
    split; [done|]. split; done.
  - destruct (Initialize_sends authInfo st1) as (err & pre & call & -> & Hpre & Hcall & Hreg).
    { subst st1 c2 c1. simpl. destruct authInfo; by rewrite ?lookup_insert_ne by done. }
    eexists err, st1, (_ :: pre), call, _, _. split; [done|]. split; [by constructor|].
    split; [done|]. split; [done|]. split; [done|]. split; done.
Qed.

End Entries.

Section ForwardedRuns.
Context `{Env}.

Lemma length_clientFrames (id : json) (trace : list Effect) :
  List.length (clientFrames id trace) = List.length (List.filter is_reply trace).
Proof.
  unfold clientFrames. induction trace as [|e trace IH]; [done|].
  change (omap (clientReply id) trace) with (list_omap _ _ (clientReply id) trace) in IH.
  destruct e; simpl; lia.
Qed.

Lemma resume_counted (trace : list Effect) :
  EResume ∈ trace → (0 < List.length (List.filter is_resume trace))%nat.
Proof.
  induction trace as [|e trace IH]; [by intros ?%elem_of_nil|].
  intros [<-|Hin]%elem_of_cons; simpl; [lia|].
  destruct (is_resume e); simpl; [lia|by apply IH].
Qed.

(** A run whose entry point sent one request after log lines, on a context
    that is ready afterwards. *)
Lemma forwardRun_facts (entry : M (option GoError)) (responses : list BackendResponse)
    (st st1 : State) (err : option GoError) (pre : list Effect) (call : Effect)
    (request : json) (cb : Callback) :
  entry st = Some (err, st1, (pre ++ [call])%list) →
  Forall is_log pre → callOf call = Some (request, cb) →
  registered call = match err with None => Some cb | Some _ => None end →
  ctx_ready (ctx st1) = true →
  ∃ st2 trace,
    forwardRun entry responses st = Some (err, st2, trace) ∧
    (List.length (List.filter is_reply trace) ≤ 1)%nat ∧
    (err ≠ None → List.filter is_reply trace = []) ∧
    (err = None → (stepsLeft cb ≤ List.length responses)%nat →
     List.length (List.filter is_reply trace) = 1%nat) ∧
    (List.length (List.filter is_resume trace) ≤ 1)%nat ∧
    ((0 < List.length (List.filter is_resume trace))%nat →
     err = None ∧ (2 ≤ stepsLeft cb ≤ List.length responses + 1)%nat) ∧
    ∃ rest, requestBodies trace = request :: rest ∧
            rest `prefix_of` requestsAfter cb (ctx st1) ∧
            (err ≠ None → rest = []).
Proof.
  intros Hentry (Hc & Hreg & Hf & Hs)%logs_summary Hcall Hrc Hr.
  destruct (callOf_registered call request cb Hcall) as (Hcr & Hcs & _).
  unfold forwardRun. rewrite Hentry, omap_app, Hreg. simpl. rewrite Hrc.
  assert (requestBodies (pre ++ [call]) = [request]) as Hb.
  { unfold requestBodies. rewrite omap_app, Hc. simpl. by rewrite Hcall. }
  assert (List.filter is_reply (pre ++ [call]) = []) as Hf0.
  { rewrite List.filter_app, Hf. simpl. by rewrite Hcr. }
  assert (List.filter is_resume (pre ++ [call]) = []) as Hs0.
  { rewrite List.filter_app, Hs. simpl. by rewrite Hcs. }
  destruct err as [err|].
  - rewrite serve_no_pending. eexists st1, _. split; [done|].
    rewrite app_nil_r, Hf0, Hs0, Hb. simpl.
    split; [lia|]. split; [done|]. split; [done|]. split; [lia|]. split; [lia|].
    exists []. split; [done|]. split; [apply prefix_nil|done].
  - destruct (serve_run responses cb st1 Hr)
      as (st2 & trace2 & -> & Hle & Hlive & Hres & Hwhen & Hpre).
    eexists st2, _. split; [done|].
    rewrite !List.filter_app, Hf, Hs, requestBodies_app, Hb. simpl.
    rewrite Hcr, Hcs. simpl.
    split; [done|]. split; [done|]. split; [by auto|]. split; [done|]. split; [by auto|].
    exists (requestBodies trace2). split; [done|]. split; done.
Qed.

Lemma ctx_fresh_empty : ctx_fresh ∅ = true.
Proof. unfold ctx_fresh. by rewrite !lookup_empty. Qed.

(** The context in which the "tools/list" handler forwards the request. *)
Lemma toolsListState_fresh (server : McpProxyServer) (allowTools : gset string)
    (mcpServerURL : string) (configTimeout : Z) (allowToolsHeaderStr : string) :
  let st := toolsListState server allowTools mcpServerURL configTimeout allowToolsHeaderStr in
  ctx_fresh (ctx st) = true ∧
  ctx st !! CtxMcpProxyInitialized = None ∧
  ctx st !! "mcp_proxy_cursor" = None.
Proof.
  cbv zeta. unfold toolsListState. cbn [ctx]. split; [|split].
  - repeat (apply ctx_fresh_insert; [intros [?|[?|?]]; try done; eauto|]). done.
  - by rewrite !lookup_insert_ne by done.
  - by rewrite !lookup_insert_ne by done.
Qed.

(** The frames of a proxied "tools/list" are those of the run of
    [ForwardToolsList]. *)
Lemma proxyToolsList_forwardRun (id : json) (server : McpProxyServer)
    (allowTools : gset string) (mcpServerURL : string) (configTimeout : Z)
    (authInfo : option ProxyAuthInfo) (allowToolsHeaderStr : string)
    (cursor : option string) (responses : list BackendResponse) :
  proxyToolsList id server allowTools mcpServerURL configTimeout authInfo
    allowToolsHeaderStr cursor responses
  = match forwardRun (ForwardToolsList cursor authInfo) responses
            (toolsListState server allowTools mcpServerURL configTimeout
               allowToolsHeaderStr) with
    | None => None
    | Some (_, _, trace) => Some (clientFrames id trace)
    end.
Proof.
  unfold proxyToolsList, toolsListMethodHandler, forwardRun, toolsListState.
  destruct (ForwardToolsList cursor authInfo _) as [[[err st] trace]|]; [|done].
  by destruct (serve responses _ st) as [[st' trace']|].
Qed.

(** X10. A proxied "tools/list" request never panics and the client
    receives at most one frame, whatever the backend answers and however
    many answers arrive.  When the host refuses the first call, the error
    goes back to the caller and the handler sends no frame; when it accepts
    and three backend answers arrive, the client receives exactly one
    frame. *)
Theorem proxied_tools_list_answered_once (id : json) (server : McpProxyServer)
    (allowTools : gset string) (mcpServerURL : string) (configTimeout : Z)
    (authInfo : option ProxyAuthInfo) (allowToolsHeaderStr : string)
    (cursor : option string) (responses : list BackendResponse) :
  ∃ err st trace frames,
    toolsListMethodHandler server allowTools mcpServerURL configTimeout authInfo
      allowToolsHeaderStr cursor ∅ = Some (err, st, trace) ∧
    proxyToolsList id server allowTools mcpServerURL configTimeout authInfo
      allowToolsHeaderStr cursor responses = Some frames ∧
    (List.length frames ≤ 1)%nat ∧
    (err ≠ None → frames = []) ∧
    (err = None → (3 ≤ List.length responses)%nat → List.length frames = 1%nat).
Proof.
  destruct (toolsListState_fresh server allowTools mcpServerURL configTimeout
              allowToolsHeaderStr) as (Hf & Hi & _).
  destruct (ForwardToolsList_entry cursor authInfo _ Hf)
    as (err & st1 & pre & call & request & cb & Hentry & Hpre & Hcall & Hreg & Hr & _ & Hcase).
  rewrite Hi in Hcase. destruct Hcase as [-> ->].
  destruct (forwardRun_facts _ responses _ _ _ _ _ _ _ Hentry Hpre Hcall Hreg Hr)
    as (st2 & trace & Hrun & Hle & Hnone & Hlive & _).
  exists err, st1, (pre ++ [call])%list, (clientFrames id trace).
  split; [exact Hentry|]. split; [by rewrite proxyToolsList_forwardRun, Hrun|].
  rewrite length_clientFrames. split; [done|]. split; [|by auto].
  intros Herr. apply nil_length_inv. by rewrite length_clientFrames, (Hnone Herr).
Qed.

(** X11. A proxied "tools/call" request on a context that holds nothing
    yet never panics and the client receives at most one frame; no frame
    when the host refuses the first call and [Call] returns the error,
    exactly one when the host accepts it and three backend answers
    arrive. *)
Theorem proxied_tools_call_answered_once (id : json) (mcpServerURL : string)
    (configTimeout : Z) (authInfo : option ProxyAuthInfo) (toolName : string)
    (arguments : gmap string val) (responses : list BackendResponse) :
  ∃ err frames,
    proxyToolsCall id mcpServerURL configTimeout authInfo toolName arguments responses
    = Some (err, frames) ∧
    (List.length frames ≤ 1)%nat ∧
    (err ≠ None → frames = []) ∧
    (err = None → (3 ≤ List.length responses)%nat → List.length frames = 1%nat).
Proof.
  destruct (ForwardToolsCall_entry toolName arguments authInfo
              {| ctx := ∅; handler := NewMcpProtocolHandler mcpServerURL configTimeout |}
              ctx_fresh_empty)
    as (err & st1 & pre & call & request & cb & Hentry & Hpre & Hcall & Hreg & Hr & _ & Hcase).
  cbn [ctx] in Hcase. rewrite lookup_empty in Hcase. destruct Hcase as [-> ->].
  destruct (forwardRun_facts _ responses _ _ _ _ _ _ _ Hentry Hpre Hcall Hreg Hr)
    as (st2 & trace & Hrun & Hle & Hnone & Hlive & _).
  exists err, (clientFrames id trace). unfold proxyToolsCall. rewrite Hrun.
  split; [done|]. rewrite length_clientFrames. split; [done|]. split; [|by auto].
  intros Herr. apply nil_length_inv. by rewrite length_clientFrames, (Hnone Herr).
Qed.

(** X12. [proxywasm.ResumeHttpRequest] is called at most once in the run
    of a forwarded request, be it tools/list or tools/call, from any fresh
    context; when it is called, the entry point returned no error, the
    context was not marked initialized at the start, and at least two
    backend answers arrived: only the callback of the notification resumes
    the client request. *)
Theorem client_request_resumed_at_most_once (entry : M (option GoError))
    (cursor : option string) (toolName : string) (arguments : gmap string val)
    (authInfo : option ProxyAuthInfo) (responses : list BackendResponse) (st : State) :
  ctx_fresh (ctx st) = true →
  entry = ForwardToolsList cursor authInfo ∨
  entry = ForwardToolsCall toolName arguments authInfo →
  ∃ err st' trace,
    forwardRun entry responses st = Some (err, st', trace) ∧
    (List.length (List.filter is_resume trace) ≤ 1)%nat ∧
    (EResume ∈ trace →
     err = None ∧ ctx st !! CtxMcpProxyInitialized = None ∧
     (2 ≤ List.length responses)%nat).
Proof.
  intros Hf Hentry.
  assert (∃ err st1 pre call request cb,
            entry st = Some (err, st1, (pre ++ [call])%list) ∧
            Forall is_log pre ∧ callOf call = Some (request, cb) ∧
            registered call = match err with None => Some cb | Some _ => None end ∧
            ctx_ready (ctx st1) = true ∧
            match ctx st !! CtxMcpProxyInitialized with
            | Some _ => stepsLeft cb = 1%nat
            | None => stepsLeft cb = 3%nat
            end)
    as (err & st1 & pre & call & request & cb & Hrun & Hpre & Hcall & Hreg & Hr & Hcb).
  { destruct Hentry as [-> | ->].
    - destruct (ForwardToolsList_entry cursor authInfo st Hf)
        as (err & st1 & pre & call & request & cb & ? & ? & ? & ? & ? & Hp & Hcase).
      exists err, st1, pre, call, request, cb. repeat (split; [done|]).
      destruct (ctx st !! CtxMcpProxyInitialized).
      + rewrite Hp in Hcase. by injection Hcase as _ <-.
      + by destruct Hcase as [_ ->].
    - destruct (ForwardToolsCall_entry toolName arguments authInfo st Hf)
        as (err & st1 & pre & call & request & cb & ? & ? & ? & ? & ? & Hp & Hcase).
      exists err, st1, pre, call, request, cb. repeat (split; [done|]).
      destruct (ctx st !! CtxMcpProxyInitialized).
      + rewrite Hp in Hcase. by injection Hcase as _ <-.
      + by destruct Hcase as [_ ->]. }
  destruct (forwardRun_facts _ responses _ _ _ _ _ _ _ Hrun Hpre Hcall Hreg Hr)
    as (st2 & trace & Hfr & _ & _ & _ & Hres & Hwhen & _).
  exists err, st2, trace. split; [done|]. split; [done|].
  intros Hin%resume_counted. destruct (Hwhen Hin) as [-> Hsteps].
  split; [done|]. destruct (ctx st !! CtxMcpProxyInitialized); [lia|]. split; [done|lia].
Qed.

(** X13. The backend of a proxied "tools/call" sees the initialize request
    first and then nothing but the initialized notification and the
    tools/call request with the tool name and the arguments of the client,
    in that order and each at most once; nothing follows a first call that
    the host refused. *)
Theorem tools_call_requests_in_order (mcpServerURL : string) (configTimeout : Z)
    (authInfo : option ProxyAuthInfo) (toolName : string) (arguments : gmap string val)
    (responses : list BackendResponse) :
  ∃ err st trace rest,
    forwardRun (ForwardToolsCall toolName arguments authInfo) responses
      {| ctx := ∅; handler := NewMcpProtocolHandler mcpServerURL configTimeout |}
    = Some (err, st, trace) ∧
    requestBodies trace = Marshal (VMap createInitializeRequest) :: rest ∧
    rest `prefix_of` [Marshal (VMap initializedNotification);
                      Marshal (VMap (createToolsCallRequest toolName arguments))] ∧
    (err ≠ None → rest = []).
Proof.
  destruct (ForwardToolsCall_entry toolName arguments authInfo
              {| ctx := ∅; handler := NewMcpProtocolHandler mcpServerURL configTimeout |}
              ctx_fresh_empty)
    as (err & st1 & pre & call & request & cb & Hentry & Hpre & Hcall & Hreg & Hr & Hp & Hcase).
  cbn [ctx] in Hcase. rewrite lookup_empty in Hcase. destruct Hcase as [-> ->].
  destruct (forwardRun_facts _ responses _ _ _ _ _ _ _ Hentry Hpre Hcall Hreg Hr)
    as (st2 & trace & Hrun & _ & _ & _ & _ & _ & rest & Hb & Hrest & Hnone).
  exists err, st2, trace, rest. split; [done|]. split; [done|]. split; [|done].
  unfold requestsAfter in Hrest. simpl in Hrest. by rewrite Hp in Hrest.
Qed.

(** X14. The backend of a proxied "tools/list" sees the initialize request
    first and then nothing but the initialized notification and the
    tools/list request with the cursor of the client, in that order and
    each at most once; an empty cursor is sent as no cursor. *)
Theorem tools_list_requests_in_order (server : McpProxyServer) (allowTools : gset string)
    (mcpServerURL : string) (configTimeout : Z) (authInfo : option ProxyAuthInfo)
    (allowToolsHeaderStr : string) (cursor : option string)
    (responses : list BackendResponse) :
  ∃ err st trace rest,
    forwardRun (ForwardToolsList cursor authInfo) responses
      (toolsListState server allowTools mcpServerURL configTimeout allowToolsHeaderStr)
    = Some (err, st, trace) ∧
    requestBodies trace = Marshal (VMap createInitializeRequest) :: rest ∧
    rest `prefix_of` [Marshal (VMap initializedNotification);
                      Marshal (VMap (createToolsListRequest cursor))] ∧
    (err ≠ None → rest = []) ∧
    (cursor = Some "" →
     createToolsListRequest cursor !! "params" = Some (VMap ∅)).
Proof.
  destruct (toolsListState_fresh server allowTools mcpServerURL configTimeout
              allowToolsHeaderStr) as (Hf & Hi & Hc).
  destruct (ForwardToolsList_entry cursor authInfo _ Hf)
    as (err & st1 & pre & call & request & cb & Hentry & Hpre & Hcall & Hreg & Hr & Hp & Hcase).
  rewrite Hi in Hcase. rewrite Hc in Hp. destruct Hcase as [-> ->].
  destruct (forwardRun_facts _ responses _ _ _ _ _ _ _ Hentry Hpre Hcall Hreg Hr)
    as (st2 & trace & Hrun & _ & _ & _ & _ & _ & rest & Hb & Hrest & Hnone).
  exists err, st2, trace, rest. split; [done|]. split; [done|]. split; [|split; [done|]].
  - unfold requestsAfter in Hrest. simpl in Hrest. rewrite Hp in Hrest.
    by destruct cursor.
  - by intros ->.
Qed.

End ForwardedRuns.

(** The witness of X12: the handshake of a tools/call request with the two
    first answers of the repository's test; the client request is resumed,
    once, after the second answer. *)
Lemma client_request_resumed_at_most_once_witness :
  ctx_fresh (ctx exampleState) = true ∧
  ∃ err st' trace,
    forwardRun (H := exampleEnv)
      (ForwardToolsCall (H := exampleEnv) "get_product" productArguments None)
      [testInitializeResponse; testNotificationResponse] exampleState
    = Some (err, st', trace) ∧
    EResume ∈ trace ∧
    List.length (List.filter is_resume trace) = 1%nat ∧
    err = None ∧ ctx exampleState !! CtxMcpProxyInitialized = None ∧
    (2 ≤ List.length [testInitializeResponse; testNotificationResponse])%nat.
Proof.
  split; [exact ctx_fresh_empty|].
  destruct (client_request_resumed_at_most_once (H := exampleEnv)
              (ForwardToolsCall (H := exampleEnv) "get_product" productArguments None)
              None "get_product" productArguments None
              [testInitializeResponse; testNotificationResponse]
              exampleState ctx_fresh_empty (or_intror eq_refl))
    as (err & st' & trace & Hrun & Hle & Hwhen).
  assert (List.length (List.filter is_resume trace) = 1%nat) as Hone.
  { vm_compute in Hrun. injection Hrun as _ _ <-. vm_compute. reflexivity. }
  assert (EResume ∈ trace) as Hin.
  { clear -Hone. induction trace as [|e trace IH]; [done|].
    destruct e; simpl in Hone; try (right; by apply IH). by left. }
  exists err, st', trace. split; [exact Hrun|]. split; [exact Hin|].
  split; [exact Hone|]. exact (Hwhen Hin).
Defined.

(** ** Requests *)

Section Requests.
Context `{Env}.

(** X15. Every POST of [sendMcpRequest] carries the [uint32] of the
    configured timeout, with the default in place of zero: the timeout
    sent lies between one millisecond and 2^32 - 1; it is 5000 when the
    configured timeout is a multiple of 2^32, zero among them, and the
    residue of the configured timeout modulo 2^32 otherwise.  So a
    configured timeout between 1 and 2^32 - 1 is used as it is, and a
    negative one of at least -2^31 is not replaced by the default but
    becomes the timeout plus 2^32, at least 2^31 milliseconds. *)
Theorem sendMcpRequest_timeout (body : json) (authInfo : option ProxyAuthInfo)
    (callback : Callback) (st : State) :
  ∃ err url headers pre t,
    sendMcpRequest body authInfo callback st
    = Some (err, st, (pre ++ [EPost url headers body t callback])%list) ∧
    Forall is_log pre ∧
    0 < t < 2 ^ 32 ∧
    (timeout (handler st) mod 2 ^ 32 = 0 → t = 5000) ∧
    (timeout (handler st) mod 2 ^ 32 ≠ 0 → t = timeout (handler st) mod 2 ^ 32) ∧
    (0 < timeout (handler st) < 2 ^ 32 → t = timeout (handler st)) ∧
    (- 2 ^ 31 ≤ timeout (handler st) < 0 →
     t = timeout (handler st) + 2 ^ 32 ∧ 2 ^ 31 ≤ t).
Proof.
  destruct (sendMcpRequest_posts body authInfo callback st) as (url & hs & pre & Hs & Hpre).
  eexists _, url, hs, pre, _. split; [exact Hs|]. split; [done|].
  unfold effectiveTimeout. cbv zeta.
  pose proof (Z.mod_pos_bound (timeout (handler st)) (2 ^ 32) ltac:(lia)) as Hb.
  assert (- 2 ^ 31 ≤ timeout (handler st) < 0 →
          timeout (handler st) mod 2 ^ 32 = timeout (handler st) + 2 ^ 32) as Hneg.
  { intros Hr. symmetry. apply (Z.mod_unique_pos _ _ (-1)); lia. }
  assert (0 < timeout (handler st) < 2 ^ 32 →
          timeout (handler st) mod 2 ^ 32 = timeout (handler st)) as Hpos.
  { intros Hr. apply Z.mod_small. lia. }
  destruct (Z.eqb_spec (timeout (handler st) mod 2 ^ 32) 0) as [Hz|Hz].
  - split; [lia|]. split; [done|]. split; [done|]. split.
    + intros Hr. specialize (Hpos Hr). lia.
    + intros Hr. specialize (Hneg Hr). lia.
  - split; [lia|]. split; [done|]. split; [done|]. split.
    + intros Hr. by apply Hpos.
    + intros Hr. specialize (Hneg Hr). lia.
Qed.


Lemma filter_filter_same {A} (P : A → Prop) `{∀ x, Decision (P x)} (l : list A) :
  filter P (filter P l) = filter P l.
Proof.
  induction l as [|x l IH]; [done|].
  rewrite filter_cons. destruct (decide (P x)) as [HP|HP]; [|done].
  by rewrite filter_cons_True, IH by done.
Qed.

(** X17. The allow-list filter is idempotent: applied to its own result
    on the same context it returns that result; and it panics on no result
    map when the allow-list header stored in the context is a string or
    absent. *)
Theorem allow_list_filter_idempotent (c : gmap string CtxVal)
    (resultMap filtered : gmap string val) :
  applyAllowToolsFilter c resultMap = Some filtered →
  applyAllowToolsFilter c filtered = Some filtered ∧
  ∀ other, is_Some (applyAllowToolsFilter c other).
Proof.
  unfold applyAllowToolsFilter.
  destruct (match c !! "mcp_proxy_allow_tools_header" with
            | None => Some ∅
            | Some (CString headerStr) => Some (allowToolsFromHeader headerStr)
            | Some _ => None
            end) as [allowHeader|]; [|done].
  intros Hf. split.
  - destruct (_ && _); [by injection Hf as <-|].
    destruct (resultMap !! "tools") as [[| | | | |toolsArray|]|] eqn:Et;
      try (injection Hf as <-; by rewrite Et).
    injection Hf as <-. rewrite lookup_insert_eq, !copy_map_id, insert_insert_eq.
    by rewrite !filteredTools_filter, filter_filter_same.
  - intros other. destruct (_ && _); [by eauto|].
    destruct (other !! "tools") as [[]|]; eauto.
Qed.

End Requests.


Lemma allow_list_filter_idempotent_witness :
  applyAllowToolsFilter (H := exampleEnv) allowListContext threeToolsResult
  = Some (<["tools" := VArray [namedTool "A"]]> threeToolsResult) ∧
  applyAllowToolsFilter (H := exampleEnv) allowListContext
    (<["tools" := VArray [namedTool "A"]]> threeToolsResult)
  = Some (<["tools" := VArray [namedTool "A"]]> threeToolsResult).
Proof.
  assert (applyAllowToolsFilter (H := exampleEnv) allowListContext threeToolsResult
          = Some (<["tools" := VArray [namedTool "A"]]> threeToolsResult)) as Hf.
  { vm_compute. reflexivity. }
  split; [exact Hf|].
  exact (proj1 (allow_list_filter_idempotent (H := exampleEnv) allowListContext
                  threeToolsResult _ Hf)).
Defined.

(** ** The last frame of a run *)

Section FinalFrames.
Context `{Env}.

Lemma logs_internal (pre : list Effect) :
  Forall is_log pre → Forall error_is_internal pre.
Proof. intros Hpre. eapply Forall_impl; [exact Hpre|]. by intros []. Qed.

Lemma ends_internal (resumed : bool) : Forall error_is_internal (ends resumed).
Proof. destruct resumed; by repeat constructor. Qed.

Lemma logs_no_reply (pre : list Effect) :
  Forall is_log pre → List.filter is_reply pre = [].
Proof. induction 1 as [|e pre He _ IH]; [done|]. by destruct e. Qed.

Lemma reply_shape_final (resumed : bool) (trace : list Effect) :
  reply_shape resumed trace → Forall error_is_internal trace ∧ reply_last trace.
Proof.
  intros (pre & e & -> & Hpre & He).
  destruct (final_frame_reply e He) as [Hr Hi]. split.
  - apply Forall_app. split; [by apply logs_internal|].
    constructor; [done|apply ends_internal].
  - right. exists pre, e, resumed. split; [done|]. split; [done|].
    by apply logs_no_reply.
Qed.

Lemma call_shape_final (resumed : bool) (body : json) (cb' : Callback)
    (trace : list Effect) :
  call_shape resumed body cb' trace → Forall error_is_internal trace ∧ reply_last trace.
Proof.
  intros (pre & call & tail & -> & Hpre & Hcall & Htail).
  destruct (callOf_registered call body cb' Hcall) as (Hcr & Hcs & _).
  pose proof (logs_summary pre Hpre) as (_ & _ & Hf & _).
  assert (error_is_internal call) as Hci by (by destruct call).
  destruct (registered call).
  - subst tail. split.
    + apply Forall_app. split; [by apply logs_internal|].
      constructor; [done|]. apply ends_internal.
    + left. rewrite List.filter_app, Hf. simpl. rewrite Hcr. by destruct resumed.
  - destruct Htail as (l & e & -> & Hl & He).
    destruct (final_frame_reply e He) as [Hr Hi]. split.
    + apply Forall_app. split; [by apply logs_internal|].
      constructor; [done|]. constructor; [by destruct l|].
      constructor; [done|apply ends_internal].
    + right. exists (pre ++ [call; l])%list, e, resumed.
      split; [by rewrite <- app_assoc|]. split; [done|].
      rewrite List.filter_app, Hf. simpl. rewrite Hcr. by destruct l.
Qed.

Lemma reply_last_app (t1 t2 : list Effect) :
  List.filter is_reply t1 = [] → reply_last t2 → reply_last (t1 ++ t2).
Proof.
  intros Hf [Hn|(before & e & resumed & -> & He & Hb)].
  - left. by rewrite List.filter_app, Hf, Hn.
  - right. exists (t1 ++ before)%list, e, resumed. rewrite <- app_assoc.
    split; [done|]. split; [done|]. by rewrite List.filter_app, Hf, Hb.
Qed.

(** Whatever the backend answers to a callback that waits on a ready
    context: every error reply carries the code of an internal error, and
    nothing follows the reply but the resumption. *)
Lemma serve_final (responses : list BackendResponse) (cb : Callback)
    (st st' : State) (trace : list Effect) :
  ctx_ready (ctx st) = true → serve responses [cb] st = Some (st', trace) →
  Forall error_is_internal trace ∧ reply_last trace.
Proof.
  revert cb st st' trace.
  induction responses as [|r responses IH]; intros cb st st' trace Hr Hserve.
  { injection Hserve as <- <-. split; [constructor|by left]. }
  destruct (runCallback_step cb (resp_status r) (resp_headers r) (resp_body r) st Hr)
    as (st1 & trace1 & Hrun & Hr1 & _ & Hshape).
  cbn [serve] in Hserve. rewrite Hrun in Hserve. cbv zeta in Hshape.
  destruct Hshape as [Hshape|(request & cb' & _ & Hshape)].
  - pose proof (reply_shape_final _ _ Hshape) as [Hi Hl].
    apply reply_shape_facts in Hshape as (_ & Hreg & _ & _).
    rewrite Hreg in Hserve. simpl in Hserve. rewrite serve_no_pending in Hserve.
    injection Hserve as <- <-. by rewrite app_nil_r.
  - pose proof (call_shape_final _ _ _ _ Hshape) as [Hi Hl].
    apply call_shape_facts in Hshape as (_ & _ & [[Hreg Hf]|[Hreg _]]);
      rewrite Hreg in Hserve; simpl in Hserve.
    + destruct (serve responses [cb'] st1) as [[st2 trace2]|] eqn:Hs2; [|done].
      injection Hserve as <- <-. destruct (IH _ _ _ _ Hr1 Hs2) as [Hi2 Hl2].
      split; [by apply Forall_app|by apply reply_last_app].
    + rewrite serve_no_pending in Hserve. injection Hserve as <- <-.
      by rewrite app_nil_r.
Qed.

(** The same for the run of a forwarded request from a fresh context. *)
Lemma forwardRun_final (entry : M (option GoError)) (cursor : option string)
    (toolName : string) (arguments : gmap string val) (authInfo : option ProxyAuthInfo)
    (responses : list BackendResponse) (st : State) :
  ctx_fresh (ctx st) = true →
  entry = ForwardToolsList cursor authInfo ∨
  entry = ForwardToolsCall toolName arguments authInfo →
  ∃ err st' trace,
    forwardRun entry responses st = Some (err, st', trace) ∧
    Forall error_is_internal trace ∧ reply_last trace.
Proof.
  intros Hf Hentry.
  assert (∃ err st1 pre call request cb,
            entry st = Some (err, st1, (pre ++ [call])%list) ∧
            Forall is_log pre ∧ callOf call = Some (request, cb) ∧
            registered call = match err with None => Some cb | Some _ => None end ∧
            ctx_ready (ctx st1) = true)
    as (err & st1 & pre & call & request & cb & Hrun & Hpre & Hcall & Hreg & Hr).
  { destruct Hentry as [-> | ->].
    - destruct (ForwardToolsList_entry cursor authInfo st Hf)
        as (err & st1 & pre & call & request & cb & ? & ? & ? & ? & ? & _).
      by exists err, st1, pre, call, request, cb.
    - destruct (ForwardToolsCall_entry toolName arguments authInfo st Hf)
        as (err & st1 & pre & call & request & cb & ? & ? & ? & ? & ? & _).
      by exists err, st1, pre, call, request, cb. }
  destruct (forwardRun_facts _ responses _ _ _ _ _ _ _ Hrun Hpre Hcall Hreg Hr)
    as (st2 & trace & Hfr & _).
  exists err, st2, trace. split; [done|].
  unfold forwardRun in Hfr. rewrite Hrun in Hfr.
  destruct (callOf_registered call request cb Hcall) as (Hcr & _ & _).
  pose proof (logs_summary pre Hpre) as (_ & Hregs & Hfl & _).
  assert (List.filter is_reply (pre ++ [call]) = []) as Hf0.
  { rewrite List.filter_app, Hfl. simpl. by rewrite Hcr. }
  assert (Forall error_is_internal (pre ++ [call])) as Hi0.
  { apply Forall_app. split; [by apply logs_internal|].
    constructor; [by destruct call|constructor]. }
  rewrite omap_app, Hregs in Hfr. simpl in Hfr. rewrite Hreg in Hfr.
  destruct err as [err|].
  - rewrite serve_no_pending in Hfr. injection Hfr as <- <-.
    rewrite app_nil_r. split; [done|by left].
  - destruct (serve responses [cb] st1) as [[st3 trace3]|] eqn:Hs; [|done].
    injection Hfr as <- <-. destruct (serve_final _ _ _ _ _ Hr Hs) as [Hi Hl].
    split; [by apply Forall_app|by apply reply_last_app].
Qed.

(** X18. The reply to the client ends the run of a forwarded tools/list
    or tools/call request: in the trace of the run from any fresh context,
    either no reply is sent, or one reply is sent and nothing follows it
    but, at most, the resumption of the client request; no request goes to
    the backend and no second frame to the client after it. *)
Theorem reply_ends_the_run (entry : M (option GoError)) (cursor : option string)
    (toolName : string) (arguments : gmap string val) (authInfo : option ProxyAuthInfo)
    (responses : list BackendResponse) (st : State) :
  ctx_fresh (ctx st) = true →
  entry = ForwardToolsList cursor authInfo ∨
  entry = ForwardToolsCall toolName arguments authInfo →
  ∃ err st' trace,
    forwardRun entry responses st = Some (err, st', trace) ∧
    (List.filter is_reply trace = [] ∨
     ∃ before e after,
       trace = (before ++ e :: after)%list ∧ is_reply e = true ∧
       List.filter is_reply before = [] ∧ (after = [] ∨ after = [EResume])).
Proof.
  intros Hf Hentry.
  destruct (forwardRun_final entry cursor toolName arguments authInfo responses st Hf Hentry)
    as (err & st' & trace & Hrun & _ & Hlast).
  exists err, st', trace. split; [done|].
  destruct Hlast as [Hn|(before & e & resumed & -> & He & Hb)]; [by left|].
  right. exists before, e, (ends resumed). split; [done|]. split; [done|]. split; [done|].
  destruct resumed; auto.
Qed.

(** X19. Every error that the protocol handler reports to the client in
    the run of a forwarded request carries the code of an internal error:
    [utils.OnMCPResponseError] is never reached with
    [utils.ErrInvalidParams], whatever the backend answers. *)
Theorem error_replies_are_internal (entry : M (option GoError)) (cursor : option string)
    (toolName : string) (arguments : gmap string val) (authInfo : option ProxyAuthInfo)
    (responses : list BackendResponse) (st : State) :
  ctx_fresh (ctx st) = true →
  entry = ForwardToolsList cursor authInfo ∨
  entry = ForwardToolsCall toolName arguments authInfo →
  ∃ err st' trace,
    forwardRun entry responses st = Some (err, st', trace) ∧
    ∀ e code debugInfo, EResponseError e code debugInfo ∈ trace → code = ErrInternalError.
Proof.
  intros Hf Hentry.
  destruct (forwardRun_final entry cursor toolName arguments authInfo responses st Hf Hentry)
    as (err & st' & trace & Hrun & Hint & _).
  exists err, st', trace. split; [done|].
  intros e code debugInfo Hin. rewrite Forall_forall in Hint.
  exact (Hint _ Hin).
Qed.

End FinalFrames.

Lemma reply_ends_the_run_witness :
  ctx_fresh (ctx exampleState) = true ∧
  ∃ err st' trace,
    forwardRun (H := exampleEnv) (ForwardToolsList (H := exampleEnv) None None)
      [ {| resp_status := 500; resp_headers := []; resp_body := None |} ] exampleState
    = Some (err, st', trace) ∧
    (List.filter is_reply trace = [] ∨
     ∃ before e after,
       trace = (before ++ e :: after)%list ∧ is_reply e = true ∧
       List.filter is_reply before = [] ∧ (after = [] ∨ after = [EResume])).
Proof.
  split; [exact ctx_fresh_empty|].
  exact (reply_ends_the_run (H := exampleEnv)
           (ForwardToolsList (H := exampleEnv) None None)
           None "" ∅ None
           [ {| resp_status := 500; resp_headers := []; resp_body := None |} ]
           exampleState ctx_fresh_empty (or_introl eq_refl)).
Defined.

Lemma error_replies_are_internal_witness :
  ctx_fresh (ctx exampleState) = true ∧
  ∃ err st' trace,
    forwardRun (H := exampleEnv)
      (ForwardToolsCall (H := exampleEnv) "get_product" productArguments None)
      [ {| resp_status := 200; resp_headers := []; resp_body := Some versionErrorResponse |} ]
      exampleState
    = Some (err, st', trace) ∧
    ∀ e code debugInfo, EResponseError e code debugInfo ∈ trace → code = ErrInternalError.
Proof.
  split; [exact ctx_fresh_empty|].
  exact (error_replies_are_internal (H := exampleEnv)
           (ForwardToolsCall (H := exampleEnv) "get_product" productArguments None)
           None "get_product" productArguments None
           [ {| resp_status := 200; resp_headers := [];
                resp_body := Some versionErrorResponse |} ]
           exampleState ctx_fresh_empty (or_intror eq_refl)).
Defined.

(** ** The session manager *)

Lemma to_int_not_nil (z : Z) :
  Z.to_int z ≠ Decimal.Pos Decimal.Nil ∧ Z.to_int z ≠ Decimal.Neg Decimal.Nil.
Proof.
  destruct z as [|p|p]; simpl; split; try done.
  - intros [= Hp]. by apply (DecimalPos.Unsigned.to_uint_nonnil p).
  - intros [= Hp]. by apply (DecimalPos.Unsigned.to_uint_nonnil p).
Qed.

(** Session ids are equal only for equal readings of the clock. *)
Lemma sessionIDOf_inj (n n' : Z) : sessionIDOf n = sessionIDOf n' → n = n'.
Proof.
  unfold sessionIDOf. intros Heq. simpl in Heq. simplify_eq.
  apply DecimalZ.to_int_inj.
  destruct (to_int_not_nil n), (to_int_not_nil n').
  assert (Some (Z.to_int n) = Some (Z.to_int n')) as [= ?]; [|done].
  rewrite <- !DecimalString.NilZero.isi by done. by f_equal.
Qed.

(** The saturated difference exceeds a duration exactly when the
    difference does, unless the duration is the greatest one. *)
Lemma Sub_exceeds (t u maxAge : Z) :
  minDuration ≤ maxAge ≤ maxDuration →
  (maxAge <? Sub t u) = (maxAge <? t - u) && (maxAge <? maxDuration).
Proof.
  unfold Sub, minDuration, maxDuration. intros Hr.
  destruct (Z.ltb_spec maxAge (Z.max (- 2 ^ 63) (Z.min (2 ^ 63 - 1) (t - u))));
    destruct (Z.ltb_spec maxAge (t - u));
    destruct (Z.ltb_spec maxAge (2 ^ 63 - 1)); simpl; try done; lia.
Qed.

(** The loop of [CleanupExpiredSessions] keeps what has not expired. *)
Lemma CleanupExpiredSessions_lookup (sessions : gmap string McpSession)
    (maxAge now : Z) (sessionID : string) :
  CleanupExpiredSessions sessions maxAge now !! sessionID
  = match sessions !! sessionID with
    | Some session =>
        if maxAge <? Sub now (session_LastUsed session) then None else Some session
    | None => None
    end.
Proof.
  unfold CleanupExpiredSessions.
  assert (∀ m0 : gmap string McpSession,
            map_fold
              (λ sessionID session (remaining : gmap string McpSession),
                 if maxAge <? Sub now (session_LastUsed session)
                 then delete sessionID remaining
                 else remaining) m0 sessions !! sessionID
            = match sessions !! sessionID with
              | Some session =>
                  if maxAge <? Sub now (session_LastUsed session)
                  then None else m0 !! sessionID
              | None => m0 !! sessionID
              end) as Hfold.
  { intros m0.
    apply (map_fold_weak_ind
             (λ (r : gmap string McpSession) (m : gmap string McpSession),
                r !! sessionID
                = match m !! sessionID with
                  | Some session =>
                      if maxAge <? Sub now (session_LastUsed session)
                      then None else m0 !! sessionID
                  | None => m0 !! sessionID
                  end)).
    - by rewrite lookup_empty.
    - intros i x m r Hi IH. destruct (decide (i = sessionID)) as [->|Hne].
      + rewrite lookup_insert_eq. rewrite Hi in IH.
        destruct (maxAge <? Sub now (session_LastUsed x)); [by rewrite lookup_delete_eq|done].
      + rewrite lookup_insert_ne by done.
        destruct (maxAge <? Sub now (session_LastUsed x));
          by rewrite ?lookup_delete_ne by done. }
  rewrite Hfold. by destruct (sessions !! sessionID).
Qed.

(** X20. [CleanupExpiredSessions] is a filter, whatever the order in which
    the loop visits the map: a session is in the map afterwards exactly
    when it was there before and the time since its last use does not
    exceed [maxAge]; with the greatest duration as [maxAge] nothing is ever
    removed, because the difference of two instants saturates there. *)
Theorem CleanupExpiredSessions_keeps_recent (sessions : gmap string McpSession)
    (maxAge now : Z) (sessionID : string) (session : McpSession) :
  minDuration ≤ maxAge ≤ maxDuration →
  (CleanupExpiredSessions sessions maxAge now !! sessionID = Some session ↔
   sessions !! sessionID = Some session ∧
   (now - session_LastUsed session ≤ maxAge ∨ maxAge = maxDuration)) ∧
  (maxAge = maxDuration → CleanupExpiredSessions sessions maxAge now = sessions).
Proof.
  intros Hr. split.
  - rewrite CleanupExpiredSessions_lookup.
    destruct (sessions !! sessionID) as [s|]; [|by split; [|intros [? _]]].
    rewrite (Sub_exceeds _ _ _ Hr).
    destruct (Z.ltb_spec maxAge (now - session_LastUsed s));
      destruct (Z.ltb_spec maxAge maxDuration); simpl.
    + split; [done|]. intros [[= ->] [?|?]]; lia.
    + split; [intros [= ->]; split; [done|right; lia]|by intros [[= ->] _]].
    + split; [intros [= ->]; split; [done|left; lia]|by intros [[= ->] _]].
    + split; [intros [= ->]; split; [done|left; lia]|by intros [[= ->] _]].
  - intros ->. apply map_eq. intros i. rewrite CleanupExpiredSessions_lookup.
    destruct (sessions !! i) as [s|]; [|done].
    rewrite (Sub_exceeds _ _ _ Hr). by rewrite Z.ltb_irrefl, andb_false_r.
Qed.

Lemma CleanupExpiredSessions_keeps_recent_witness :
  CleanupExpiredSessions
    (fst (CreateSession ∅ exampleBackendURL 1000 1000 1000)) 500 1400
  !! sessionIDOf 1000
  = Some {| session_ID := sessionIDOf 1000; session_BackendURL := exampleBackendURL;
            session_CreatedAt := 1000; session_LastUsed := 1000 |}.
Proof.
  apply (proj1 (CleanupExpiredSessions_keeps_recent
                  (fst (CreateSession ∅ exampleBackendURL 1000 1000 1000)) 500 1400
                  (sessionIDOf 1000) _ ltac:(unfold minDuration, maxDuration; lia))).
  split.
  - unfold CreateSession. simpl. by rewrite lookup_insert_eq.
  - left. simpl. lia.
Defined.

(** X21. Reading a session keeps it alive: [GetSession] returns the
    session with its last use set to the instant of the read and leaves
    every other session alone, and a cleanup that runs no more than
    [maxAge] after the read keeps the session, however long ago it was
    created or used before. *)
Theorem GetSession_refreshes (sessions : gmap string McpSession) (sessionID : string)
    (session : McpSession) (readAt maxAge now : Z) :
  sessions !! sessionID = Some session →
  minDuration ≤ maxAge ≤ maxDuration →
  now - readAt ≤ maxAge →
  let refreshed :=
    {| session_ID := session_ID session;
       session_BackendURL := session_BackendURL session;
       session_CreatedAt := session_CreatedAt session;
       session_LastUsed := readAt |} in
  snd (GetSession sessions sessionID readAt) = Some refreshed ∧
  (∀ other, other ≠ sessionID →
            fst (GetSession sessions sessionID readAt) !! other = sessions !! other) ∧
  CleanupExpiredSessions (fst (GetSession sessions sessionID readAt)) maxAge now
    !! sessionID = Some refreshed.
Proof.
  intros Hs Hr Hage. cbv zeta. unfold GetSession. rewrite Hs. simpl.
  split; [done|]. split; [by intros other Hne; rewrite lookup_insert_ne|].
  rewrite CleanupExpiredSessions_lookup, lookup_insert_eq. simpl.
  rewrite (Sub_exceeds _ _ _ Hr).
  destruct (Z.ltb_spec maxAge (now - readAt)); [lia|done].
Qed.

Lemma GetSession_refreshes_witness :
  CleanupExpiredSessions
    (fst (GetSession (fst (CreateSession ∅ exampleBackendURL 1000 1000 1000))
            (sessionIDOf 1000) 5000)) 500 5400
  !! sessionIDOf 1000
  = Some {| session_ID := sessionIDOf 1000; session_BackendURL := exampleBackendURL;
            session_CreatedAt := 1000; session_LastUsed := 5000 |}.
Proof.
  refine (proj2 (proj2 (GetSession_refreshes
                   (fst (CreateSession ∅ exampleBackendURL 1000 1000 1000))
                   (sessionIDOf 1000)
                   {| session_ID := sessionIDOf 1000;
                      session_BackendURL := exampleBackendURL;
                      session_CreatedAt := 1000; session_LastUsed := 1000 |}
                   5000 500 5400 _ _ _))).
  - unfold CreateSession. simpl. by rewrite lookup_insert_eq.
  - unfold minDuration, maxDuration. lia.
  - lia.
Defined.

(** X22. Session ids are as distinct as the readings of the clock: two
    sessions created at different readings have different ids and are both
    in the map afterwards, while a session created at the reading of an
    earlier one takes its id and replaces it. *)
Theorem CreateSession_ids (sessions : gmap string McpSession) (url1 url2 : string)
    (nano1 created1 used1 nano2 created2 used2 : Z) :
  let r1 := CreateSession sessions url1 nano1 created1 used1 in
  let r2 := CreateSession (fst r1) url2 nano2 created2 used2 in
  (snd r1 = snd r2 ↔ nano1 = nano2) ∧
  (session_BackendURL <$> fst r2 !! snd r2) = Some url2 ∧
  (nano1 ≠ nano2 → (session_BackendURL <$> fst r2 !! snd r1) = Some url1) ∧
  (nano1 = nano2 → (session_BackendURL <$> fst r2 !! snd r1) = Some url2 ∧
                    fst r2 = fst (CreateSession sessions url2 nano2 created2 used2)).
Proof.
  cbv zeta. unfold CreateSession. simpl. split; [|split; [|split]].
  - split; [apply sessionIDOf_inj|by intros ->].
  - by rewrite lookup_insert_eq.
  - intros Hne. rewrite lookup_insert_ne; [by rewrite lookup_insert_eq|].
    intros Heq. by apply Hne, sessionIDOf_inj.
  - intros ->. rewrite lookup_insert_eq. split; [done|]. by rewrite insert_insert_eq.
Qed.

(** ** The log package *)

(** X23. Safe log mode suppresses the sensitive lines and nothing else:
    with a logger set and safe mode enabled, a sequence of logging calls
    never panics, leaves the package variables as they were, and hands the
    logger exactly the lines of the calls that are not [Unsafe] ones, in
    order.  Without a logger, the [Unsafe] functions are the only ones
    that do not panic in safe mode. *)
Theorem safe_mode_suppresses_unsafe_lines (logger : nat) (calls : list LogCall) :
  Forall (λ call, is_logging_call call = true) calls →
  logCalls {| pluginLog := Some logger; safeLogEnabled := true |} calls
  = Some ({| pluginLog := Some logger; safeLogEnabled := true |}, plainLines logger calls) ∧
  (is_Some (logCalls {| pluginLog := None; safeLogEnabled := true |} calls) ↔
   Forall (λ call, is_unsafe_call call = true) calls).
Proof.
  induction 1 as [|call calls Hcall _ [IH1 IH2]].
  { split; [done|]. split; [by constructor|by eauto]. }
  destruct call as [| |method text|function text]; try done; simpl.
  - split.
    + rewrite IH1. done.
    + split; [by intros [? ?]|]. by intros [? _]%Forall_cons.
  - split.
    + rewrite IH1. done.
    + rewrite Forall_cons, <- IH2.
      destruct (logCalls {| pluginLog := None; safeLogEnabled := true |} calls)
        as [[vars lines]|]; simpl; split; intros Hx.
      * split; [done|by eauto].
      * by eauto.
      * by destruct Hx as [? ?].
      * by destruct Hx as [_ [? ?]].
Qed.

Lemma safe_mode_suppresses_unsafe_lines_witness :
  logCalls {| pluginLog := Some 1%nat; safeLogEnabled := true |}
    [CallLog MInfo "request received"; CallUnsafe UnsafeInfof "headers: %v";
     CallLog MWarnf "slow backend: %s"]
  = Some ({| pluginLog := Some 1%nat; safeLogEnabled := true |},
          [ {| line_logger := 1; line_method := MInfo; line_text := "request received" |};
            {| line_logger := 1; line_method := MWarnf; line_text := "slow backend: %s" |} ]).
Proof.
  refine (proj1 (safe_mode_suppresses_unsafe_lines 1
                   [CallLog MInfo "request received"; CallUnsafe UnsafeInfof "headers: %v";
                    CallLog MWarnf "slow backend: %s"] _)).
  by repeat constructor.
Defined.

(** X24. In any sequence of calls that does not panic, the package
    variables afterwards hold the logger and the mode that were set last,
    or the ones of the start when none was set; and when the sequence
    starts in safe mode and never sets the mode, it ends in safe mode and
    every line handed to a logger stems from a call of a plain logging
    function, also when loggers are exchanged on the way. *)
Theorem unsafe_lines_only_outside_safe_mode (calls : list LogCall) (vars vars' : LogVars)
    (lines : list LogLine) :
  logCalls vars calls = Some (vars', lines) →
  (safeLogEnabled vars = true →
   Forall (λ call, ∀ enabled, call ≠ CallSetSafeLogEnabled enabled) calls →
   safeLogEnabled vars' = true ∧
   ∀ line, line ∈ lines → ∃ method text, CallLog method text ∈ calls ∧
                                        line_method line = method ∧ line_text line = text) ∧
  safeLogEnabled vars'
  = default (safeLogEnabled vars)
      (last (omap (λ call, match call with
                           | CallSetSafeLogEnabled enabled => Some enabled
                           | _ => None
                           end) calls)) ∧
  pluginLog vars'
  = default (pluginLog vars)
      (last (omap (λ call, match call with
                           | CallSetPluginLog logger => Some logger
                           | _ => None
                           end) calls)).
Proof.
  revert vars vars' lines. induction calls as [|call calls IH]; intros vars vars' lines Hrun.
  { injection Hrun as <- <-. split; [|done]. intros Hs _. split; [done|].
    by intros line ?%elem_of_nil. }
  cbn [logCalls] in Hrun.
  destruct (logCall vars call) as [[vars1 lines1]|] eqn:Hcall; [|done].
  destruct (logCalls vars1 calls) as [[vars2 lines2]|] eqn:Hrest; [|done].
  injection Hrun as <- <-. destruct (IH _ _ _ Hrest) as (IHsafe & IHmode & IHlog).
  assert (∀ {A} (x : A) (l : list A) (d : A), default d (last (x :: l)) = default x (last l))
    as Hlast.
  { intros A x l d. rewrite last_cons. by destruct (last l). }
  split; [|split].
  - intros Hs [Hne Hall]%Forall_cons.
    assert (safeLogEnabled vars1 = true ∧
            ∀ line, line ∈ lines1 →
                    ∃ method text, call = CallLog method text ∧
                                   line_method line = method ∧ line_text line = text)
      as [Hs1 Hl1].
    { destruct call as [logger|enabled|method text|function text]; simpl in Hcall.
      - injection Hcall as <- <-. split; [done|]. by intros line ?%elem_of_nil.
      - by destruct (Hne enabled).
      - unfold forward in Hcall. destruct (pluginLog vars); [|done].
        injection Hcall as <- <-. split; [done|].
        intros line ->%list_elem_of_singleton. by exists method, text.
      - rewrite Hs in Hcall. simpl in Hcall. injection Hcall as <- <-.
        split; [done|]. by intros line ?%elem_of_nil. }
    destruct (IHsafe Hs1 Hall) as [Hs2 Hl2]. split; [done|].
    intros line [Hin|Hin]%elem_of_app.
    + destruct (Hl1 line Hin) as (method & text & -> & ? & ?).
      exists method, text. split; [by left|done].
    + destruct (Hl2 line Hin) as (method & text & ? & ? & ?).
      exists method, text. split; [by right|done].
  - rewrite IHmode. destruct call as [logger|enabled|method text|function text];
      simpl in Hcall |- *.
    + by injection Hcall as <- <-.
    + injection Hcall as <- <-. simpl. by rewrite Hlast.
    + unfold forward in Hcall. destruct (pluginLog vars); [|done]. by injection Hcall as <- <-.
    + unfold forward in Hcall.
      destruct (negb (safeLogEnabled vars)); [destruct (pluginLog vars); [|done]|];
        by injection Hcall as <- <-.
  - rewrite IHlog. destruct call as [logger|enabled|method text|function text];
      simpl in Hcall |- *.
    + injection Hcall as <- <-. simpl. by rewrite Hlast.
    + by injection Hcall as <- <-.
    + unfold forward in Hcall. destruct (pluginLog vars) eqn:El; [|done].
      injection Hcall as <- <-. by rewrite El.
    + unfold forward in Hcall.
      destruct (negb (safeLogEnabled vars)); [destruct (pluginLog vars) eqn:El; [|done]|];
        injection Hcall as <- <-; by rewrite ?El.
Qed.

Lemma unsafe_lines_only_outside_safe_mode_witness :
  safeLogEnabled {| pluginLog := Some 1%nat; safeLogEnabled := true |}
  = default false
      (last (omap (λ call, match call with
                           | CallSetSafeLogEnabled enabled => Some enabled
                           | _ => None
                           end)
               [CallSetPluginLog (Some 1%nat); CallSetSafeLogEnabled true;
                CallUnsafe UnsafeDebug "body"])).
Proof.
  exact (proj1 (proj2 (unsafe_lines_only_outside_safe_mode
                         [CallSetPluginLog (Some 1%nat); CallSetSafeLogEnabled true;
                          CallUnsafe UnsafeDebug "body"]
                         initialLogVars
                         {| pluginLog := Some 1%nat; safeLogEnabled := true |} []
                         eq_refl))).
Defined.

(** ** Preservation of the client id, from the request to the reply *)

Section ClientIdRuns.
Context `{Env}.

Lemma registered_accepted (call : Effect) (request : json) (cb : Callback) :
  host_accepts → callOf call = Some (request, cb) → registered call = Some cb.
Proof.
  intros [Hpost Hroute]. destruct call; try done; simpl; intros [= <- <-].
  - by rewrite Hpost.
  - by rewrite Hroute.
Qed.

(** The frames of a run whose entry point sent one request after log lines
    on a context that is ready afterwards: each carries the id of the
    client, there is at most one, and there is one when the host accepts
    the calls and the backend answers as often as the callback has steps
    left. *)
Lemma forwarded_frames (entry : M (option GoError)) (responses : list BackendResponse)
    (st st1 : State) (err : option GoError) (pre : list Effect) (call : Effect)
    (request : json) (cb : Callback) (id : json) :
  entry st = Some (err, st1, (pre ++ [call])%list) →
  Forall is_log pre → callOf call = Some (request, cb) →
  registered call = match err with None => Some cb | Some _ => None end →
  ctx_ready (ctx st1) = true →
  ∃ st2 trace,
    forwardRun entry responses st = Some (err, st2, trace) ∧
    Forall (λ reply, frameMember "id" reply = Some id) (clientFrames id trace) ∧
    (List.length (clientFrames id trace) ≤ 1)%nat ∧
    (host_accepts → (stepsLeft cb ≤ List.length responses)%nat →
     err = None ∧
     ∃ reply, clientFrames id trace = [reply] ∧ frameMember "id" reply = Some id).
Proof.
  intros Hentry Hpre Hcall Hreg Hr.
  destruct (forwardRun_facts entry responses st st1 err pre call request cb
              Hentry Hpre Hcall Hreg Hr)
    as (st2 & trace & Hrun & Hle & _ & Hlive & _).
  exists st2, trace. split; [done|].
  assert (Forall (λ reply, frameMember "id" reply = Some id) (clientFrames id trace)) as Hid.
  { apply Forall_forall. intros reply. apply clientFrames_id. }
  split; [done|]. rewrite length_clientFrames. split; [done|].
  intros Hhost Hsteps.
  assert (err = None) as ->.
  { rewrite (registered_accepted call request cb Hhost Hcall) in Hreg. by destruct err. }
  split; [done|]. specialize (Hlive eq_refl Hsteps).
  rewrite <- (length_clientFrames id) in Hlive.
  destruct (clientFrames id trace) as [|reply [|reply' frames]]; try done.
  exists reply. split; [done|]. by apply Forall_inv in Hid.
Qed.

(** C1. For a client frame that parses, with an id: the id is the string
    or number of the request; a local reply carries it; the proxy layer is
    handed it; and in every run of a proxied tools/list or tools/call
    request for that id, whatever the backend answers, the client receives
    at most one frame and every frame it receives carries that id, of the
    same JSON type and value; when the host accepts the calls and the
    backend answers three times, the client does receive one frame, with
    that id.  The frames injected by the SSE state machine carry it as
    well.  For a frame without id (a notification) the reply is the bare
    acknowledgement: no frame is produced. *)
Theorem client_id_preserved (body : option json) (frame : ClientFrame) :
  parseClientFrame body = inr frame →
  match frame_id frame with
  | Some id =>
      ((∃ s, id = JString s) ∨ (∃ n, id = JNumber n)) ∧
      (∃ m, body = Some (JObject m) ∧ m !! "id" = Some id) ∧
      (∀ reply, dispatchClientFrame body = DLocal reply →
                frameMember "id" reply = Some id) ∧
      (∀ id' method params, dispatchClientFrame body = DProxy id' method params →
                            id' = id) ∧
      (∀ server allowTools mcpServerURL configTimeout authInfo allowToolsHeaderStr
         cursor responses,
         ∃ frames,
           proxyToolsList id server allowTools mcpServerURL configTimeout authInfo
             allowToolsHeaderStr cursor responses = Some frames ∧
           Forall (λ reply, frameMember "id" reply = Some id) frames ∧
           (List.length frames ≤ 1)%nat ∧
           (host_accepts → (3 ≤ List.length responses)%nat →
            ∃ reply, frames = [reply] ∧ frameMember "id" reply = Some id)) ∧
      (∀ mcpServerURL configTimeout authInfo toolName arguments responses,
         ∃ err frames,
           proxyToolsCall id mcpServerURL configTimeout authInfo toolName arguments
             responses = Some (err, frames) ∧
           Forall (λ reply, frameMember "id" reply = Some id) frames ∧
           (List.length frames ≤ 1)%nat ∧
           (host_accepts → (3 ≤ List.length responses)%nat →
            err = None ∧
            ∃ reply, frames = [reply] ∧ frameMember "id" reply = Some id)) ∧
      (∀ method toolRequest store origin inputs,
         Forall (λ reply, frameMember "id" reply = Some id)
           (injections
              (sseRun (newRequestContext id method toolRequest store origin) inputs).2))
  | None => dispatchClientFrame body = DAck
  end.
Proof.
  intros Hp. unfold dispatchClientFrame. rewrite Hp.
  unfold parseClientFrame in Hp.
  destruct body as [[| | | | |m]|]; try done.
  destruct (m !! "jsonrpc") as [[| | |v| |]|] eqn:Ej; try done.
  destruct (String.eqb_spec v "2.0") as [->|Hv].
  2: { repeat case_match; simplify_eq. }
  destruct (m !! "id") as [i|] eqn:Ei.
  - assert (frame_id frame = Some i ∧
            ((∃ s, i = JString s) ∨ (∃ n, i = JNumber n))) as [Hid Hshape].
    { destruct i; simplify_eq; simpl; eauto. }
    rewrite Hid. split; [done|]. split; [by exists m|].
    split; [|split; [|split; [|split]]].
    + intros reply. repeat case_match; intros [= <-]; done.
    + intros id' method params. repeat case_match; intros [=]; done.
    + intros server allowTools mcpServerURL configTimeout authInfo allowToolsHeaderStr
        cursor responses.
      destruct (toolsListState_fresh server allowTools mcpServerURL configTimeout
                  allowToolsHeaderStr) as (Hf & Hi & _).
      destruct (ForwardToolsList_entry cursor authInfo _ Hf)
        as (err & st1 & pre & call & request & cb & Hentry & Hpre & Hcall & Hreg & Hr
            & _ & Hcase).
      rewrite Hi in Hcase. destruct Hcase as [-> ->].
      destruct (forwarded_frames _ responses _ _ _ _ _ _ _ i Hentry Hpre Hcall Hreg Hr)
        as (st2 & trace & Hrun & Hall & Hle & Hlive).
      exists (clientFrames i trace). rewrite proxyToolsList_forwardRun, Hrun.
      split; [done|]. split; [done|]. split; [done|].
      intros Hhost Hthree. by destruct (Hlive Hhost Hthree) as [_ ?].
    + intros mcpServerURL configTimeout authInfo toolName arguments responses.
      destruct (ForwardToolsCall_entry toolName arguments authInfo
                  {| ctx := ∅;
                     handler := NewMcpProtocolHandler mcpServerURL configTimeout |}
                  ctx_fresh_empty)
        as (err & st1 & pre & call & request & cb & Hentry & Hpre & Hcall & Hreg & Hr
            & _ & Hcase).
      cbn [ctx] in Hcase. rewrite lookup_empty in Hcase. destruct Hcase as [-> ->].
      destruct (forwarded_frames _ responses _ _ _ _ _ _ _ i Hentry Hpre Hcall Hreg Hr)
        as (st2 & trace & Hrun & Hall & Hle & Hlive).
      exists err, (clientFrames i trace). unfold proxyToolsCall. rewrite Hrun.
      split; [done|]. split; [done|]. split; [done|]. exact Hlive.
    + intros. apply sse_injections_id.
  - by simplify_eq.
Qed.

End ClientIdRuns.

(** In the examples the host accepts every call. *)
Lemma exampleEnv_accepts : host_accepts (H := exampleEnv).
Proof. by split. Qed.

(** The witness of C1: the tools/call request of the repository's test,
    with id 3, and the three answers of its backend, which carry the ids 1
    and 2: the client receives one frame, with id 3. *)
Lemma client_id_preserved_witness :
  let frame :=
    {| frame_id := Some (JNumber 3); frame_method := Some "tools/call";
       frame_params :=
         Some (JObject (<["name" := JString "get_product"]>
                       (<["arguments" := JObject {["product_id" := JString "12345"]}]>
                        ∅))) |} in
  parseClientFrame (Some testToolsCallRequest) = inr frame ∧
  dispatchClientFrame (Some testToolsCallRequest)
  = DProxy (JNumber 3) "tools/call" (frame_params frame) ∧
  ∃ reply,
    proxyToolsCall (H := exampleEnv) (JNumber 3) exampleBackendURL 5000 None
      "get_product" productArguments
      [testInitializeResponse; testNotificationResponse; testToolsCallResponse]
    = Some (None, [reply]) ∧
    frameMember "id" reply = Some (JNumber 3).
Proof.
  intros frame.
  assert (parseClientFrame (Some testToolsCallRequest) = inr frame) as Hp
    by (vm_compute; reflexivity).
  split; [exact Hp|]. split; [vm_compute; reflexivity|].
  pose proof (client_id_preserved (H := exampleEnv) (Some testToolsCallRequest) frame Hp)
    as (_ & _ & _ & _ & _ & Hcall & _).
  destruct (Hcall exampleBackendURL 5000 None "get_product" productArguments
              [testInitializeResponse; testNotificationResponse; testToolsCallResponse])
    as (err & frames & Hrun & _ & _ & Hlive).
  destruct (Hlive exampleEnv_accepts ltac:(simpl; lia)) as (-> & reply & -> & Hid).
  by exists reply.
Defined.

(** The run of that test, evaluated: the frame that reaches the client is
    the success frame with the id of the client and the result of the
    backend; the ids 1 and 2 of the backend answers are not in it. *)
Example test_tools_call_reply :
  proxyToolsCall (H := exampleEnv) (JNumber 3) exampleBackendURL 5000 None
    "get_product" productArguments
    [testInitializeResponse; testNotificationResponse; testToolsCallResponse]
  = Some (None, [buildSuccess (JNumber 3) (JObject testToolsCallResult)]).
Proof. vm_compute. reflexivity. Qed.
